(** * score.py: the ResNet50 inference wrapper (class [MLModel])

    A shallow embedding of the [score.py] module that the notebook
    [create_resnet50_icpu_inference_engine.ipynb] writes out, and the
    properties of its [Preprocess], [Postprocess] and [Score] methods and of
    the label file that [__init__] reads.

    Conventions of the embedding:
    - a NumPy array is a record of its shape and its elements in row-major
      (C) order; images hold 8-bit samples;
    - the element type is a [Dtype]: the comparison used by NumPy's sort,
      conversion from an integer and true division.  Two instances are given,
      IEEE binary64 (what NumPy uses for a Python list of floats) and exact
      rationals; the session's own outputs are float32, which the theorems
      stated for every [Dtype] cover;
    - a Python call either returns a value or raises; every method also
      appends to the log written by [PrintGetExceptionDetails];
    - the library routines whose code is not part of [score.py] are
      interfaces: [np.sort] and [np.argsort] are any pair of routines with
      the documented results ([NumPy]), [cv2.cvtColor] is any routine that
      swaps the channels of a colour image ([OpenCV]), and the session is a
      field of the model.  The properties are stated for all of them; the
      implementations given here serve to run the code on examples and to
      show what the interfaces leave open. *)

From Stdlib Require Import String Ascii.
From Stdlib Require Import List Arith ZArith Lia Bool QArith Floats Sorted Permutation.
Import ListNotations.

Set Implicit Arguments.
Local Close Scope Q_scope.
Local Open Scope nat_scope.
Local Open Scope list_scope.

(** ** Python calls: exceptions and the log *)

Module Py.

(** The exception classes the wrapper can meet. *)
Inductive exn : Type :=
| IndexError      (* sequence index out of range; too many indices *)
| TypeError       (* an array used as a list index *)
| AxisError       (* sort along the last axis of a 0-d array *)
| ValueError      (* axes do not match the array *)
| CvError         (* cv2.error *)
| RuntimeError    (* onnxruntime, given an input it cannot use *)
| SessionError (code : nat).  (* any other failure of onnxruntime *)

Inductive outcome (A : Type) : Type :=
| Returns (a : A)
| Raises (e : exn).
Arguments Raises {A} e.

(** What [logging.info] received, oldest first. *)
Definition log := list exn.

Definition py (A : Type) : Type := (outcome A * log)%type.

Definition ret {A} (a : A) : py A := (Returns a, []).
Definition raise {A} (e : exn) : py A := (Raises e, []).

Definition bind {A B} (m : py A) (k : A -> py B) : py B :=
  match m with
  | (Returns a, l) => let (r, l') := k a in (r, l ++ l')
  | (Raises e, l) => (Raises e, l)
  end.

(** [try: body / except: handler] with a bare [except]. *)
Definition try_except {A} (body : py A) (handler : exn -> py A) : py A :=
  match body with
  | (Returns a, l) => (Returns a, l)
  | (Raises e, l) => let (r, l') := handler e in (r, l ++ l')
  end.

End Py.
Import Py.

Declare Scope py_scope.
Delimit Scope py_scope with py.
Notation "x <- m ;; k" := (bind m (fun x => k))
  (at level 61, m at next level, right associativity) : py_scope.
Local Open Scope py_scope.

(** [PrintGetExceptionDetails()]: formats the exception in flight and hands
    it to [logging.info]; returns nothing. *)
Definition PrintGetExceptionDetails (exValue : exn) : py unit :=
  (Returns tt, [exValue]).

(** A method body of the shape
    [try: ... return v / except: PrintGetExceptionDetails()]:
    on an exception the method logs it and falls off its end, returning
    [None].  [Some v] is a returned value [v]. *)
Definition guarded {A} (body : py (option A)) : py (option A) :=
  try_except body (fun e => _ <- PrintGetExceptionDetails e ;; ret None).

(** [return v] *)
Definition return_ {A} (v : A) : py (option A) := ret (Some v).

(** ** Element types *)

Class Dtype : Type := {
  scalar : Type;
  lt : scalar -> scalar -> bool;      (* the order NumPy sorts by *)
  of_int : Z -> scalar;               (* conversion of an integer *)
  truediv : scalar -> scalar -> scalar
}.

(** IEEE 754 binary64.  NumPy's sort compares with
    [a < b || (b != b && a == a)], which puts NaN last. *)
Definition float_lt (a b : float) : bool :=
  (PrimFloat.ltb a b || (negb (PrimFloat.eqb b b) && PrimFloat.eqb a a))%bool.

(** [float(z)], exact while [|z| < 2^53]; the code converts 100, 255 and
    8-bit samples. *)
Definition float_of_int (z : Z) : float :=
  match z with
  | Z0 => PrimFloat.zero
  | Zpos _ => PrimFloat.of_uint63 (Uint63.of_Z z)
  | Zneg _ => PrimFloat.opp (PrimFloat.of_uint63 (Uint63.of_Z (Z.opp z)))
  end.

#[export] Instance float64 : Dtype := {
  scalar := float;
  lt := float_lt;
  of_int := float_of_int;
  truediv := PrimFloat.div
}.

(** Exact rationals: the arithmetic the floating-point code approximates. *)
Definition Q_lt (a b : Q) : bool :=
  match Qcompare a b with Lt => true | _ => false end.

#[export] Instance rational : Dtype := {
  scalar := Q;
  lt := Q_lt;
  of_int := inject_Z;
  truediv := Qdiv
}.

(** [x >= y] in the order NumPy sorts by. *)
Definition geq {D : Dtype} (x y : scalar) : Prop := lt x y = false.

(** The closed interval [[0, 1]]. *)
Definition in_unit_interval {D : Dtype} (x : scalar) : Prop :=
  geq x (of_int 0) /\ geq (of_int 1) x.

(** The order that a sort needs: a strict weak order.  Binary64 with
    NumPy's comparison and the rationals have it. *)
Class SortOrder (D : Dtype) : Prop := {
  lt_irrefl : forall x, lt x x = false;
  lt_trans : forall x y z, lt x y = true -> lt y z = true -> lt x z = true;
  lt_negtrans : forall x y z, geq x y -> geq y z -> geq x z
}.

(** [a] and [b] compare equal: neither is less.  For binary64 these are the
    pairs with [a == b], and the pairs of NaN. *)
Definition same {D : Dtype} (a b : scalar) : bool := negb (lt a b) && negb (lt b a).

(** [a] may stand before [b] in ascending order. *)
Definition ascending {D : Dtype} (a b : scalar) : Prop := lt b a = false.

(** The number of elements of [l] that satisfy [f]. *)
Definition count {A} (f : A -> bool) (l : list A) : nat := length (filter f l).

(** ** NumPy arrays *)

Record ndarray (A : Type) : Type := mk_ndarray {
  shape : list nat;
  data : list A
}.

Definition size (s : list nat) : nat := fold_right Nat.mul 1 s.

(** The invariant of every array. *)
Definition wf {A} (a : ndarray A) : Prop := length (data a) = size (shape a).

(** The first [k] consecutive blocks of [n] elements. *)
Fixpoint chunks {A} (n : nat) (l : list A) (k : nat) : list (list A) :=
  match k with
  | O => []
  | S k' => firstn n l :: chunks n (skipn n l) k'
  end.

(** Row-major offset of a multi-index. *)
Fixpoint offset_from (acc : nat) (s ix : list nat) : option nat :=
  match s, ix with
  | [], [] => Some acc
  | d :: s', i :: ix' => if i <? d then offset_from (acc * d + i) s' ix' else None
  | _, _ => None
  end.

(** [a[i, j, ...]] with every index given and in range. *)
Definition get {A} (a : ndarray A) (ix : list nat) : option A :=
  match offset_from 0 (shape a) ix with
  | Some o => nth_error (data a) o
  | None => None
  end.

(** A 0-d array, which is what indexing a 1-d array gives. *)
Definition np_scalar {A} (x : A) : ndarray A := mk_ndarray [] [x].

Definition np_map {A B} (f : A -> B) (a : ndarray A) : ndarray B :=
  mk_ndarray (shape a) (map f (data a)).

Definition shape_eqb (s t : list nat) : bool :=
  if list_eq_dec Nat.eq_dec s t then true else false.

(** [np.asarray] of a Python list of arrays of one shape: they are stacked
    along a new first axis.  A list of Python floats is a list of 0-d
    arrays. *)
Definition np_asarray {A} (l : list (ndarray A)) : py (ndarray A) :=
  match l with
  | [] => ret (mk_ndarray [0] [])
  | a :: rest =>
      if forallb (fun b => shape_eqb (shape b) (shape a)) rest
      then ret (mk_ndarray (length l :: shape a) (flat_map (@data A) l))
      else raise ValueError
  end.

(** Apply [f] to every lane along the last axis ([axis=-1]). *)
Definition along_last_axis {A B} (f : list A -> list B) (a : ndarray A)
  : py (ndarray B) :=
  match shape a with
  | [] => raise AxisError
  | _ :: _ =>
      let n := last (shape a) 0 in
      let lanes := chunks n (data a) (size (removelast (shape a))) in
      ret (mk_ndarray (shape a) (flat_map f lanes))
  end.

(** [np.squeeze]: drop every axis of length one. *)
Definition np_squeeze {A} (a : ndarray A) : ndarray A :=
  mk_ndarray (filter (fun d => negb (d =? 1)) (shape a)) (data a).

(** [a[::-1]]: reverse along the first axis. *)
Definition flip {A} (a : ndarray A) : py (ndarray A) :=
  match shape a with
  | [] => raise IndexError
  | n :: s => ret (mk_ndarray (n :: s) (concat (rev (chunks (size s) (data a) n))))
  end.

(** [a[i]] for a Python integer [i >= 0]. *)
Definition item {A} (a : ndarray A) (i : nat) : py (ndarray A) :=
  match shape a with
  | [] => raise IndexError
  | n :: s =>
      if i <? n
      then ret (mk_ndarray s (firstn (size s) (skipn (i * size s) (data a))))
      else raise IndexError
  end.

(** [operator.index]: only a 0-d integer array converts to an index. *)
Definition operator_index (a : ndarray Z) : py Z :=
  match shape a, data a with
  | [], [i] => ret i
  | _, _ => raise TypeError
  end.

(** [l[i]] on a Python list: a negative index counts from the end. *)
Definition getitem {A} (l : list A) (i : Z) : py A :=
  let n := Z.of_nat (length l) in
  let j := if (i <? 0)%Z then (n + i)%Z else i in
  if ((0 <=? j) && (j <? n))%bool%Z then
    match nth_error l (Z.to_nat j) with
    | Some x => ret x
    | None => raise IndexError
    end
  else raise IndexError.

(** ** Sorting

    [np.sort] and [np.argsort] are called with the default [kind], for which
    NumPy documents the result and not the method: the method depends on
    the version, the element type and the processor (an introsort that ends
    in an insertion sort, or a vectorised sort), and it is not stable.  What
    every method delivers, on one lane:
    - [np.sort]: as many elements as the lane has, each of them an element
      of the lane, in ascending order, and of every value as many as the
      lane holds elements that compare equal to it;
    - [np.argsort]: the indices [0 .. n-1], each once, in an order in which
      the elements they point to ascend. *)
Class NumPy (D : Dtype) : Type := {
  sort_lane : list scalar -> list scalar;
  argsort_lane : list scalar -> list Z;
  sort_lane_length : forall l, length (sort_lane l) = length l;
  sort_lane_In : forall l y, In y (sort_lane l) -> In y l;
  sort_lane_sorted : forall l, StronglySorted ascending (sort_lane l);
  sort_lane_count : forall l v, count (same v) (sort_lane l) = count (same v) l;
  argsort_lane_perm : forall l,
    Permutation (argsort_lane l) (map Z.of_nat (seq 0 (length l)));
  argsort_lane_sorted : forall l,
    StronglySorted ascending
      (map (fun k => nth (Z.to_nat k) l (of_int 0)) (argsort_lane l))
}.

(** One method: the insertion sort that ends NumPy's introsort, and is the
    whole of it on a lane of at most 16 elements.  It moves an element left
    past the elements that compare greater, so it is stable. *)
Section Sorting.
Context {A : Type} (less : A -> A -> bool).

(** The inner loop: [r] is the sorted prefix, read from its right end. *)
Fixpoint sift (x : A) (r : list A) : list A :=
  match r with
  | [] => [x]
  | y :: r' => if less x y then y :: sift x r' else x :: r
  end.

(** The sorted prefix after the outer loop, still read from the right. *)
Definition sift_all (l : list A) : list A :=
  fold_left (fun r x => sift x r) l [].

Definition insertion_sort (l : list A) : list A := rev (sift_all l).
End Sorting.

Definition enumerate {A} (l : list A) : list (Z * A) :=
  combine (map Z.of_nat (seq 0 (length l))) l.

Section Methods.
Context {D : Dtype}.

Definition stable_sort_lane (lane : list scalar) : list scalar :=
  insertion_sort lt lane.

(** The indices that sort the lane: the same passes, moving indices and
    comparing the elements they point to. *)
Definition stable_argsort_lane (lane : list scalar) : list Z :=
  map fst (insertion_sort (fun p q => lt (snd p) (snd q)) (enumerate lane)).

(** Another method: the same passes over the lane read backwards.  Among
    elements that compare equal the later one comes first. *)
Definition backward_argsort_lane (lane : list scalar) : list Z :=
  map (fun k => (Z.of_nat (length lane) - 1 - k)%Z) (stable_argsort_lane (rev lane)).
End Methods.

Section Numpy.
Context {D : Dtype} {NP : NumPy D}.

Definition np_sort (a : list (ndarray scalar)) : py (ndarray scalar) :=
  x <- np_asarray a ;; along_last_axis sort_lane x.

Definition np_argsort (a : list (ndarray scalar)) : py (ndarray Z) :=
  x <- np_asarray a ;; along_last_axis argsort_lane x.

(** [a / k] for a Python integer [k]. *)
Definition np_divide (a : ndarray scalar) (k : Z) : ndarray scalar :=
  np_map (fun x => truediv x (of_int k)) a.
End Numpy.

(** ** Strings *)

(** [s.split(' ', 1)]: split at the first space character, if any. *)
Fixpoint split_space_1 (s : string) : list string :=
  match s with
  | EmptyString => [EmptyString]
  | String c s' =>
      if Ascii.eqb c " " then [EmptyString; s']
      else match split_space_1 s' with
           | h :: t => String c h :: t
           | [] => [String c EmptyString]
           end
  end.

(** ** The class [MLModel] *)

(** A loop [for i in range(n)] whose body appends one element. *)
Fixpoint for_range_from {A} (i n : nat) (body : nat -> py A) : py (list A) :=
  match n with
  | O => ret []
  | S n' => x <- body i ;; xs <- for_range_from (S i) n' body ;; ret (x :: xs)
  end.

Definition for_range {A} (n : nat) (body : nat -> py A) : py (list A) :=
  for_range_from 0 n body.

(** [cv2.cvtColor(img, cv2.COLOR_BGR2RGB)] on one pixel. *)
Definition bgr2rgb (px : list Z) : list Z :=
  match px with
  | b :: g :: r :: _ => [r; g; b]
  | _ => px
  end.

(** [cv2.cvtColor(img, cv2.COLOR_BGR2RGB)], on arrays of unsigned 8-bit
    samples, the depth of a decoded frame.  On a non-empty image of three or
    four channels it returns the image with blue and red swapped, three
    channels wide (a fourth, alpha, channel is dropped); the samples are
    moved, not read.  What it does with any other array is OpenCV's business
    and is left open. *)
Class OpenCV : Type := {
  cvtColor_BGR2RGB : ndarray Z -> py (ndarray Z);
  cvtColor_BGR2RGB_colour : forall img h w c,
    shape img = [h; w; c] -> 0 < h -> 0 < w -> c = 3 \/ c = 4 ->
    cvtColor_BGR2RGB img
    = ret (mk_ndarray [h; w; 3] (flat_map bgr2rgb (chunks c (data img) (h * w))))
}.

(** One such routine: it raises [cv2.error] on every other array. *)
Definition strict_cvtColor (img : ndarray Z) : py (ndarray Z) :=
  match shape img with
  | [h; w; c] =>
      if ((0 <? h) && (0 <? w) && ((c =? 3) || (c =? 4)))%bool
      then ret (mk_ndarray [h; w; 3] (flat_map bgr2rgb (chunks c (data img) (h * w))))
      else raise CvError
  | _ => raise CvError
  end.

Section MLModel.
Context {D : Dtype} {NP : NumPy D} {CV : OpenCV}.

(** One element of the returned list:
    [{"type": ..., "classification": {"tag": {"value": ..., "confidence": ...}}}].
    The confidence is a NumPy scalar, a 0-d array. *)
Record Tag : Type := mk_tag {
  value : string;
  confidence : ndarray scalar
}.

Record Inference : Type := mk_inference {
  type_ : string;                (* ["type"] *)
  classification_tag : Tag       (* ["classification"]["tag"] *)
}.

(** The attributes [__init__] sets.  [_onnxSession] is
    [self._onnxSession.run(None, {"data": imageBlob})]: what the loaded
    model does with the value handed to it, the tensor or the [None] that
    [Preprocess] returned; it gives the list of its outputs, or raises. *)
Record MLModel : Type := mk_model {
  _labelList : list string;
  _onnxSession : option (ndarray scalar) -> py (list (ndarray scalar))
}.

Variable self : MLModel.

(** [np.squeeze(np.sort(probabilities))[::-1]] *)
Definition sorted_prob_of (probabilities : list (ndarray scalar))
  : py (ndarray scalar) :=
  s <- np_sort probabilities ;; flip (np_squeeze s).

(** [np.squeeze(np.argsort(probabilities))[::-1]] *)
Definition sorted_indices_of (probabilities : list (ndarray scalar))
  : py (ndarray Z) :=
  a <- np_argsort probabilities ;; flip (np_squeeze a).

Definition Postprocess (probabilities : list (ndarray scalar))
  : py (option (list Inference)) :=
  guarded (
    sorted_prob <- sorted_prob_of probabilities ;;
    sorted_indices <- sorted_indices_of probabilities ;;
    detectedObjects <- for_range 3 (fun i =>
      p <- item sorted_prob i ;;
      let confidence := np_divide p 100 in
      k <- item sorted_indices i ;;
      k <- operator_index k ;;
      obj <- getitem (_labelList self) k ;;
      obj_name <- getitem (split_space_1 obj) 1 ;;
      ret (mk_inference "classification" (mk_tag obj_name confidence))) ;;
    return_ detectedObjects).

(** [np.transpose(a, [2, 0, 1])]: element [(k, i, j)] of the result is
    element [(i, j, k)] of [a]. *)
Definition np_transpose_201 {A} (a : ndarray A) : py (ndarray A) :=
  match shape a with
  | [h; w; c] =>
      ret (mk_ndarray [c; h; w]
             (flat_map (fun k =>
                flat_map (fun i =>
                  flat_map (fun j =>
                    match nth_error (data a) ((i * w + j) * c + k) with
                    | Some x => [x]
                    | None => []
                    end) (seq 0 w)) (seq 0 h)) (seq 0 c)))
  | _ => raise ValueError
  end.

(** [np.expand_dims(a, 0)] *)
Definition np_expand_dims_0 {A} (a : ndarray A) : ndarray A :=
  mk_ndarray (1 :: shape a) (data a).

Definition Preprocess (cvImage : ndarray Z) : py (option (ndarray scalar)) :=
  guarded (
    imageBlob <- cvtColor_BGR2RGB cvImage ;;
    let imageBlob := np_map of_int imageBlob in
    let imageBlob := np_map (fun x => truediv x (of_int 255)) imageBlob in
    imageBlob <- np_transpose_201 imageBlob ;;
    let imageBlob := np_expand_dims_0 imageBlob in
    return_ imageBlob).

(** [with self._lock: body], seen by a single caller: the lock is free,
    is taken, and is released when the body ends, normally or not. *)
Definition with_lock {A} (body : py A) : py A := body.

(** The body of the [with] block of [Score]. *)
Definition Score_locked (cvImage : ndarray Z) : py (list (ndarray scalar)) :=
  imageBlob <- Preprocess cvImage ;;
  _onnxSession self imageBlob.

Definition Score (cvImage : ndarray Z) : py (option (list Inference)) :=
  guarded (
    probabilities <- with_lock (Score_locked cvImage) ;;
    Postprocess probabilities).

End MLModel.

(** ** Concurrent callers of [Score]

    Several threads call [Score] on one [MLModel].  A caller advances through
    the stages below; [threading.Lock] is one shared boolean.  A scheduler
    picks which caller advances next. *)

Section Callers.
Context {D : Dtype} {NP : NumPy D} {CV : OpenCV}.
Variable self : MLModel.

Inductive stage : Type :=
| Start                                           (* about to enter [with self._lock] *)
| Locked                                          (* lock taken; next: [Preprocess] *)
| Preprocessed (imageBlob : option (ndarray scalar))     (* next: the session *)
| Ran (o : outcome (list (ndarray scalar)))       (* block over; next: release *)
| Unlocked (o : outcome (list (ndarray scalar)))  (* next: [Postprocess] or [except] *)
| Finished (r : option (list Inference)).         (* [Score] has returned [r] *)

Record caller : Type := mk_caller {
  cvImage : ndarray Z;
  at_stage : stage;
  own_log : log         (* what this caller has logged so far *)
}.

Record world : Type := mk_world {
  lock : bool;          (* [self._lock.locked()] *)
  callers : list caller
}.

(** One step of a caller: the new state of the lock and of the caller, or
    [None] when it cannot move (it waits for the lock, or has returned). *)
Definition advance (locked : bool) (c : caller) : option (bool * caller) :=
  let img := cvImage c in
  let l := own_log c in
  match at_stage c with
  | Start =>
      if locked then None else Some (true, mk_caller img Locked l)
  | Locked =>
      match Preprocess img with
      | (Returns blob, l') => Some (locked, mk_caller img (Preprocessed blob) (l ++ l'))
      | (Raises e, l') => Some (locked, mk_caller img (Ran (Raises e)) (l ++ l'))
      end
  | Preprocessed blob =>
      let (o, l') := _onnxSession self blob in
      Some (locked, mk_caller img (Ran o) (l ++ l'))
  | Ran o =>
      Some (false, mk_caller img (Unlocked o) l)
  | Unlocked (Returns probabilities) =>
      match Postprocess self probabilities with
      | (Returns r, l') => Some (locked, mk_caller img (Finished r) (l ++ l'))
      | (Raises e, l') => Some (locked, mk_caller img (Finished None) ((l ++ l') ++ [e]))
      end
  | Unlocked (Raises e) =>
      Some (locked, mk_caller img (Finished None) (l ++ [e]))
  | Finished _ => None
  end.

Fixpoint update_nth {A} (n : nat) (x : A) (l : list A) : list A :=
  match l, n with
  | [], _ => []
  | _ :: l', O => x :: l'
  | y :: l', S n' => y :: update_nth n' x l'
  end.

(** The scheduler lets caller [n] advance. *)
Definition step_at (n : nat) (w : world) : option world :=
  match nth_error (callers w) n with
  | Some c =>
      match advance (lock w) c with
      | Some (locked, c') => Some (mk_world locked (update_nth n c' (callers w)))
      | None => None
      end
  | None => None
  end.

Fixpoint run (schedule : list nat) (w : world) : option world :=
  match schedule with
  | [] => Some w
  | n :: rest =>
      match step_at n w with
      | Some w' => run rest w'
      | None => None
      end
  end.

Definition initial (images : list (ndarray Z)) : world :=
  mk_world false (map (fun img => mk_caller img Start []) images).

(** A caller is inside the [with] block: between taking the lock and
    releasing it, where [Preprocess] and the session run. *)
Definition inside (s : stage) : bool :=
  match s with
  | Locked | Preprocessed _ | Ran _ => true
  | _ => false
  end.

Definition active (cs : list caller) : nat :=
  length (filter (fun c => inside (at_stage c)) cs).

Definition finished (c : caller) : Prop := exists r, at_stage c = Finished r.

(** The steps a caller still has to take, at most. *)
Definition remaining (s : stage) : nat :=
  match s with
  | Start => 5
  | Locked => 4
  | Preprocessed _ => 3
  | Ran _ => 2
  | Unlocked _ => 1
  | Finished _ => 0
  end.

Definition total (cs : list caller) : nat :=
  fold_right (fun c n => remaining (at_stage c) + n) 0 cs.

(** What a caller holds at each stage, in terms of the sequential [Score]. *)
Definition consistent (c : caller) : Prop :=
  match at_stage c with
  | Start | Locked => own_log c = []
  | Preprocessed blob => Preprocess (cvImage c) = (Returns blob, own_log c)
  | Ran o | Unlocked o => Score_locked self (cvImage c) = (o, own_log c)
  | Finished r => Score self (cvImage c) = (Returns r, own_log c)
  end.

(** The number of callers a taken lock accounts for. *)
Definition b2n (b : bool) : nat := if b then 1 else 0.

(** The first caller that can move. *)
Fixpoint enabled_from (i : nat) (locked : bool) (cs : list caller) : option nat :=
  match cs with
  | [] => None
  | c :: cs' =>
      match advance locked c with
      | Some _ => Some i
      | None => enabled_from (S i) locked cs'
      end
  end.

Definition invariant (images : list (ndarray Z)) (w : world) : Prop :=
  active (callers w) = (if lock w then 1 else 0) /\
  map cvImage (callers w) = images /\
  Forall consistent (callers w).

End Callers.

(** * The vocabulary of the properties *)

(** ** Vectors, order and rank *)

(** The shape [(1, ..., 1, n)]: what the session returns for a batch of one,
    wrapped in a list, and also a plain list of [n] numbers. *)
Definition vector_shape (k n : nat) : list nat := repeat 1 k ++ [n].

(** [x] occurs before [y] in [l]. *)
Definition precedes {A} (x y : A) (l : list A) : Prop :=
  exists l1 l2 l3, l = l1 ++ x :: l2 ++ y :: l3.

Section SortingVocabulary.
Context {A : Type} (less : A -> A -> bool).

(** The outer loop of the sort, started from a sorted prefix [acc]. *)
Definition sift_from (acc l : list A) : list A :=
  fold_left (fun r x => sift less x r) l acc.

(** [x] is not less than [y]. *)
Definition ge (x y : A) : Prop := less x y = false.

End SortingVocabulary.

(** The pairs (index, score) in the order of [sorted_indices] and
    [sorted_prob], best first: position by position, what [np.argsort] and
    what [np.sort] returned, both reversed. *)
Definition ranked {D : Dtype} {NP : NumPy D} (p : list scalar) : list (Z * scalar) :=
  combine (rev (argsort_lane p)) (rev (sort_lane p)).

(** The same pairs under the insertion sort. *)
Definition stable_ranked {D : Dtype} (p : list scalar) : list (Z * scalar) :=
  sift_all (fun a b => lt (snd a) (snd b)) (enumerate p).

(** No two scores of the vector compare equal. *)
Fixpoint tie_free {D : Dtype} (p : list scalar) : bool :=
  match p with
  | [] => true
  | x :: p' => forallb (fun y => negb (same x y)) p' && tie_free p'
  end.

(** A call that writes nothing to the log. *)
Definition silent {A} (m : py A) : Prop := snd m = [].

(** The rank of index [k]: its first position in [sorted_indices]. *)
Fixpoint rank_of (k : Z) (l : list Z) : option nat :=
  match l with
  | [] => None
  | x :: l' => if Z.eqb x k then Some 0 else option_map S (rank_of k l')
  end.

(** What [Preprocess] does to one sample. *)
Definition normalise {D : Dtype} (v : Z) : scalar := truediv (of_int v) (of_int 255).

Section PostprocessVocabulary.
Context {D : Dtype} {NP : NumPy D}.
Variable self : MLModel.

(** [self._labelList[k].split(' ', 1)[1]] for an index [k >= 0]. *)
Definition lookup_name (k : Z) : option string :=
  match nth_error (_labelList self) (Z.to_nat k) with
  | Some obj => nth_error (split_space_1 obj) 1
  | None => None
  end.

(** The result for index [fst kx] with score [snd kx], when its label line
    has a name. *)
Definition entry (kx : Z * scalar) : option Inference :=
  match lookup_name (fst kx) with
  | Some obj_name =>
      Some (mk_inference "classification"
              (mk_tag obj_name (np_scalar (truediv (snd kx) (of_int 100)))))
  | None => None
  end.

(** What [Postprocess] computes from a vector [p]. *)
Definition rank3 (p : list scalar) : option (list Inference) :=
  match ranked p with
  | a :: b :: c :: _ =>
      match entry a, entry b, entry c with
      | Some x, Some y, Some z => Some [x; y; z]
      | _, _, _ => None
      end
  | _ => None
  end.

(** The body of the loop. *)
Definition detect (sorted_prob : ndarray scalar) (sorted_indices : ndarray Z)
  (i : nat) : py Inference :=
  p <- item sorted_prob i ;;
  let confidence := np_divide p 100 in
  k <- item sorted_indices i ;;
  k <- operator_index k ;;
  obj <- getitem (_labelList self) k ;;
  obj_name <- getitem (split_space_1 obj) 1 ;;
  ret (mk_inference "classification" (mk_tag obj_name confidence)).

(** What is left of [Score] once [Preprocess] has returned [imageBlob]. *)
Definition Score_from (imageBlob : option (ndarray scalar))
  : py (option (list Inference)) :=
  guarded (
    probabilities <- _onnxSession self imageBlob ;;
    Postprocess self probabilities).

End PostprocessVocabulary.

(** ** Tokens *)

(** Tab, line feed, vertical tab, form feed, carriage return, space. *)
Definition is_whitespace (c : ascii) : bool :=
  match nat_of_ascii c with
  | 9 | 10 | 11 | 12 | 13 | 32 => true
  | _ => false
  end.

Definition flush (cur : option string) : list string :=
  match cur with
  | Some t => [t]
  | None => []
  end.

Definition push (cur : option string) (c : ascii) : option string :=
  match cur with
  | Some t => Some (t ++ String c EmptyString)%string
  | None => Some (String c EmptyString)
  end.

Fixpoint tokens_from (cur : option string) (s : string) : list string :=
  match s with
  | EmptyString => flush cur
  | String c s' =>
      if is_whitespace c then flush cur ++ tokens_from None s'
      else tokens_from (push cur c) s'
  end.

(** The whitespace-delimited tokens of a line ([line.split()]). *)
Definition tokens (line : string) : list string := tokens_from None line.

(** The line contains the space character. *)
Fixpoint has_space (s : string) : bool :=
  match s with
  | EmptyString => false
  | String c s' => Ascii.eqb c " " || has_space s'
  end.

(** ** Inputs *)

(** An 8-bit sample. *)
Definition uint8 (v : Z) : Prop := (0 <= v <= 255)%Z.

(** An element type in which every scaled 8-bit sample lies in [[0, 1]]. *)
Class UnitRange (D : Dtype) : Prop :=
  unit_range : forall v, uint8 v -> in_unit_interval (normalise v).

(** The check of one sample, and of the 256 of them. *)
Definition sample_in_unit_interval {D : Dtype} (n : nat) : bool :=
  negb (lt (normalise (Z.of_nat n)) (of_int 0)) &&
  negb (lt (of_int 1) (normalise (Z.of_nat n))).

Definition samples_in_unit_interval (D : Dtype) : bool :=
  forallb sample_in_unit_interval (seq 0 256).


(** An image of one colour. *)
Definition plain_image (h w : nat) (v : Z) : ndarray Z :=
  mk_ndarray [h; w; 3] (repeat v (h * w * 3)).

Set Warnings "-inexact-float".

(** A Python list of floats. *)
Definition vec (l : list float) : list (ndarray float) := map (@np_scalar float) l.

(** The session layout of the same vector: one output of shape [(1, n)]. *)
Definition batch1 {A} (l : list A) : list (ndarray A) := [mk_ndarray [1; length l] l].

(** A label table of five lines. *)
Definition labels5 : list string :=
  ["0 cat"; "1 dog"; "2 bird"; "3 fish"; "4 mouse"]%string.

(** A label line whose two tokens are separated by a tab. *)
Definition tab_line : string := String "1" (String "009" "dog").

(** One returned record: a label and a confidence. *)
Definition detection {D : Dtype} (name : string) (c : scalar) : Inference :=
  mk_inference "classification" (mk_tag name (np_scalar c)).

(** Each result with its rank, the position in the returned list. *)
Definition with_rank {D : Dtype} (l : list Inference)
  : list (string * ndarray scalar * nat) :=
  combine (map (fun r => (value (classification_tag r),
                          confidence (classification_tag r))) l)
          (seq 0 (length l)).

(** A model whose session always fails. *)
Definition broken_session : MLModel (D:=float64) :=
  mk_model (D:=float64) labels5 (fun _ => raise (SessionError 1)).

(** A model whose graph does not read its input: the scores are
    [250, 1, 2, 0, 3] whatever it is handed. *)
Definition loud_scores : list float := [250; 1; 2; 0; 3]%float.

Definition loud_session : MLModel (D:=float64) :=
  mk_model (D:=float64) labels5 (fun _ => ret (batch1 loud_scores)).

(** ** The claims as they are worded

    A claim is about the code, so it is read for every [np.sort],
    [np.argsort] and [cv2.cvtColor] that the code may be run with. *)

(** The reading of C2: of two equal scores the lower index is ranked first. *)
Definition lower_index_wins (D : Dtype) : Prop :=
  forall (NP : NumPy D) (p : list scalar) i j x,
    i < j -> nth_error p i = Some x -> nth_error p j = Some x ->
    exists si ri rj,
      sorted_indices_of (map (@np_scalar scalar) p) = ret si /\
      rank_of (Z.of_nat i) (data si) = Some ri /\
      rank_of (Z.of_nat j) (data si) = Some rj /\
      ri < rj.


(** The reading of C5: a line of two or more whitespace-delimited tokens has a
    name to return. *)
Definition two_tokens_suffice : Prop :=
  forall line, 2 <= length (tokens line) ->
  exists name, getitem (split_space_1 line) 1 = ret name.

(** A stage of [Score] fails: [Preprocess] returns [None], or the session
    raises, or [Postprocess] returns [None]. *)
Definition stage_fails {D : Dtype} {NP : NumPy D} {CV : OpenCV}
    (self : MLModel) (cvImage : ndarray Z) : Prop :=
  (exists l, Preprocess cvImage = (Returns None, l)) \/
  (exists blob l1 e l2,
     Preprocess cvImage = (Returns blob, l1) /\
     _onnxSession self blob = (Raises e, l2)) \/
  (exists blob l1 probabilities l2 l3,
     Preprocess cvImage = (Returns blob, l1) /\
     _onnxSession self blob = (Returns probabilities, l2) /\
     Postprocess self probabilities = (Returns None, l3)).

(** The reading of C6: a failed stage reaches the caller as an error. *)
Definition failure_reaches_caller (D : Dtype) : Prop :=
  forall (NP : NumPy D) (CV : OpenCV) (self : MLModel) cvImage,
    stage_fails self cvImage -> exists e l, Score self cvImage = (Raises e, l).

(** The reading of C7: an image that is not 224 x 224 x 3 yields no tensor. *)
Definition shape_is_checked (D : Dtype) : Prop :=
  forall (CV : OpenCV) img, wf img -> shape img <> [224; 224; 3] ->
  forall t l, Preprocess img <> (Returns (Some t), l).

(** The reading of C8: a vector shorter than three, or a label table shorter
    than the vector, makes the operation raise. *)
Definition mismatch_raises (D : Dtype) : Prop :=
  forall (NP : NumPy D) (self : MLModel) (p : list scalar),
    length p < 3 \/ length (_labelList self) < length p ->
    exists e l, Postprocess self (map (@np_scalar scalar) p) = (Raises e, l).


(** ** [MLModel.__init__]: reading the label file

    [open(self._labelFileName, "r")] reads text with universal newlines, and
    [self._labelList = [l.rstrip() for l in f]] keeps one entry per line.
    A text is the sequence of its decoded characters, here those with a
    code point below 256. *)

Definition LF : ascii := "010"%char.
Definition CR : ascii := "013"%char.

(** [c.isspace()] *)
Definition py_isspace (c : ascii) : bool :=
  let n := nat_of_ascii c in
  (((9 <=? n) && (n <=? 13)) || ((28 <=? n) && (n <=? 32)) || (n =? 133) || (n =? 160))%bool.

(** [s.rstrip()] *)
Fixpoint rstrip (s : string) : string :=
  match s with
  | EmptyString => EmptyString
  | String c s' =>
      match rstrip s' with
      | EmptyString => if py_isspace c then EmptyString else String c EmptyString
      | t => String c t
      end
  end.

(** The lines that iterating over the open file yields: a line ends after
    ["\n"], ["\r"] or ["\r\n"], each of which is handed over as ["\n"]; the
    last line ends with the text. *)
Fixpoint readlines (text : string) : list string :=
  match text with
  | EmptyString => []
  | String c rest =>
      if Ascii.eqb c LF then String LF EmptyString :: readlines rest
      else if Ascii.eqb c CR then
        String LF EmptyString ::
        match rest with
        | String c' rest' => if Ascii.eqb c' LF then readlines rest' else readlines rest
        | EmptyString => []
        end
      else
        match readlines rest with
        | l :: ls => String c l :: ls
        | [] => [String c EmptyString]
        end
  end.

(** [[l.rstrip() for l in f]] *)
Definition labelList_of (text : string) : list string := map rstrip (readlines text).

(** The attributes after an [__init__] in which neither [open] nor
    [onnxruntime.InferenceSession] raises: [text] is the content of
    [synset.txt], [session] what the loaded model computes. *)
Definition __init__ {D : Dtype} (text : string)
  (session : option (ndarray scalar) -> py (list (ndarray scalar))) : MLModel :=
  mk_model (labelList_of text) session.

(** ** Label files *)

(** No line break inside the string. *)
Fixpoint no_newline (s : string) : bool :=
  match s with
  | EmptyString => true
  | String c s' => negb (Ascii.eqb c LF) && negb (Ascii.eqb c CR) && no_newline s'
  end.

(** Whitespace only. *)
Fixpoint all_space (s : string) : bool :=
  match s with
  | EmptyString => true
  | String c s' => py_isspace c && all_space s'
  end.

(** A label as [__init__] stores it: no line break, no whitespace at its
    end. *)
Definition clean (l : string) : Prop := no_newline l = true /\ rstrip l = l.

(** The three line terminators. *)
Definition terminator (nl : string) : Prop :=
  nl = String LF EmptyString \/ nl = String CR (String LF EmptyString) \/
  nl = String CR EmptyString.

(** The text whose lines are [ls], each ended by [nl]. *)
Definition unlines (nl : string) (ls : list string) : string :=
  fold_right (fun l text => (l ++ nl ++ text)%string) EmptyString ls.

(** A line of [synset.txt]: an identifier, a space, a name. *)
Definition label_line (line : string * string) : string :=
  (fst line ++ String " " (snd line))%string.

(** A well-formed entry: an identifier without a space or a line break, and
    a name that is not empty and is clean. *)
Definition synset_entry (line : string * string) : Prop :=
  has_space (fst line) = false /\ no_newline (fst line) = true /\
  snd line <> EmptyString /\ clean (snd line).

(** The name on line [fst kx] of the entries. *)
Definition name_at (entries : list (string * string)) {A} (kx : Z * A) : string :=
  nth (Z.to_nat (fst kx)) (map snd entries) EmptyString.

(** ** The order of binary64 *)

(** NumPy's comparison on the IEEE 754 values themselves. *)
Definition sf_lt (a b : spec_float) : bool :=
  (SFltb a b || (negb (SFeqb b b) && SFeqb a a))%bool.

(** [math.isnan(x)] *)
Definition is_nan (x : float) : bool := negb (PrimFloat.eqb x x).

(** ** Further inputs *)

(** The session layout with the scores down a column: one output of shape
    [(n, 1)]. *)
Definition column {A} (l : list A) : list (ndarray A) := [mk_ndarray [length l; 1] l].

(** One output that holds two rows of three scores. *)
Definition two_rows : list (ndarray float) :=
  [mk_ndarray [2; 3] [0.1; 92.0; 0.05; 4.0; 3.0; 0.01]%float].

(** A 1 x 2 image with an alpha channel. *)
Definition bgra_image : ndarray Z :=
  mk_ndarray [1; 2; 4] [10; 20; 30; 255; 40; 50; 60; 128]%Z.

(** A 2 x 2 image of two channels. *)
Definition two_channel_image : ndarray Z :=
  mk_ndarray [2; 2; 2] [0; 32; 64; 96; 128; 160; 192; 255]%Z.

(** A model whose graph reads its input: it raises when handed [None]. *)
Definition reading_session : MLModel (D:=float64) :=
  mk_model (D:=float64) labels5
    (fun imageBlob => match imageBlob with
                      | Some _ => ret (batch1 loud_scores)
                      | None => raise RuntimeError
                      end).

Definition tied_scores : list float := [5; 5; 1; 1]%float.

(** Five entries in the form of [synset.txt]. *)
Definition synset5 : list (string * string) :=
  [("n01440764", "tench, Tinca tinca"); ("n01443537", "goldfish, Carassius auratus");
   ("n01484850", "great white shark"); ("n01491361", "tiger shark");
   ("n01494475", "hammerhead")]%string.

(** The Windows line terminator. *)
Definition CRLF : string := String CR (String LF EmptyString).

(** A label table that agrees with [labels5] on lines 1, 3 and 4 only. *)
Definition other_labels : list string :=
  ["zero"; "1 dog"; "two"; "3 fish"; "4 mouse"; "5 more"]%string.

(** Label lines with blanks at their ends. *)
Definition padded_labels : list string :=
  ["0 cat  "; "1 dog"; String "2" (String " " (String "b" (String "009" EmptyString)))]%string.

(** Three scores, one of them NaN. *)
Definition nan_scores : list float := [0.5; PrimFloat.nan; 3.0]%float.

(** Labels with an empty line among them. *)
Definition gapped_labels : list string := ["0 cat"; EmptyString; "2 bird"]%string.

(** * Properties *)

(** ** The monad *)

Lemma bind_ret {A B} (a : A) (k : A -> py B) : bind (ret a) k = k a.
Proof. unfold bind, ret. destruct (k a) as [r l]. reflexivity. Qed.

(** A guarded method never lets an exception out. *)
Lemma guarded_returns {A} (body : py (option A)) :
  exists r l, guarded body = (Returns r, l).
Proof.
  destruct body as [[v | e] l]; cbn.
  - exists v, l. reflexivity.
  - exists None, (l ++ [e]). reflexivity.
Qed.

(** ** Arrays that hold one vector *)

Lemma size_ones k : size (repeat 1 k) = 1.
Proof. unfold size. induction k; cbn; [reflexivity | rewrite IHk; reflexivity]. Qed.

Lemma chunks_whole {A} (l : list A) : chunks (length l) l 1 = [l].
Proof. cbn. rewrite firstn_all. reflexivity. Qed.

Lemma chunks_singletons {A} (l : list A) :
  chunks 1 l (length l) = map (fun x => [x]) l.
Proof. induction l as [| x l IH]; cbn; [reflexivity | rewrite IH; reflexivity]. Qed.

Lemma concat_rev_singletons {A} (l : list A) :
  concat (rev (map (fun x => [x]) l)) = rev l.
Proof.
  induction l as [| x l IH]; cbn; [reflexivity |].
  rewrite concat_app, IH. cbn. reflexivity.
Qed.

Lemma vector_shape_cons k n : exists d s, vector_shape k n = d :: s.
Proof. destruct k; cbn; eauto. Qed.

Lemma along_last_axis_vector {A B} (f : list A -> list B) k (p : list A) :
  along_last_axis f (mk_ndarray (vector_shape k (length p)) p)
  = ret (mk_ndarray (vector_shape k (length p)) (f p)).
Proof.
  unfold along_last_axis. cbn [shape data].
  destruct (vector_shape_cons k (length p)) as (d & s & E).
  rewrite E. rewrite <- E. unfold vector_shape.
  rewrite last_last, removelast_last, size_ones.
  rewrite chunks_whole.
  cbn. rewrite app_nil_r. reflexivity.
Qed.

Lemma squeeze_vector {A} k (p : list A) n :
  np_squeeze (mk_ndarray (vector_shape k n) p)
  = mk_ndarray (if n =? 1 then [] else [n]) p.
Proof.
  unfold np_squeeze, vector_shape. cbn [shape data]. f_equal.
  rewrite filter_app. cbn.
  assert (E : filter (fun d => negb (d =? 1)) (repeat 1 k) = []).
  { induction k; cbn; auto. }
  rewrite E. destruct (n =? 1); reflexivity.
Qed.

Lemma flip_1d {A} (l : list A) :
  flip (mk_ndarray [length l] l) = ret (mk_ndarray [length l] (rev l)).
Proof.
  unfold flip. cbn [shape data size fold_right].
  rewrite chunks_singletons, concat_rev_singletons. reflexivity.
Qed.

Lemma item_1d {A} (l : list A) n i :
  item (mk_ndarray [n] l) i =
  if i <? n then ret (mk_ndarray [] (firstn 1 (skipn i l))) else raise IndexError.
Proof.
  unfold item. cbn [shape data size fold_right]. rewrite Nat.mul_1_r. reflexivity.
Qed.

Lemma firstn_1_skipn {A} (l : list A) i x :
  nth_error l i = Some x -> firstn 1 (skipn i l) = [x].
Proof.
  revert i. induction l as [| y l IH]; intros [| i] H; cbn in *; try discriminate.
  - injection H as ->. reflexivity.
  - apply IH. exact H.
Qed.

(** ** Insertion sort *)

Lemma precedes_cons {A} (z x y : A) l : precedes x y l -> precedes x y (z :: l).
Proof. intros (l1 & l2 & l3 & ->). exists (z :: l1), l2, l3. reflexivity. Qed.

Lemma precedes_head {A} (x y : A) l : In y l -> precedes x y (x :: l).
Proof.
  intros H. apply in_split in H as (l2 & l3 & ->).
  exists [], l2, l3. reflexivity.
Qed.

Lemma precedes_map {A B} (f : A -> B) x y l :
  precedes x y l -> precedes (f x) (f y) (map f l).
Proof.
  intros (l1 & l2 & l3 & ->).
  exists (map f l1), (map f l2), (map f l3).
  rewrite map_app. cbn. rewrite map_app. reflexivity.
Qed.

Section SortingFacts.
Context {A : Type} (less : A -> A -> bool).

Lemma sift_all_from l : sift_all less l = sift_from less [] l.
Proof. reflexivity. Qed.

Lemma sift_from_cons acc x l : sift_from less acc (x :: l) = sift_from less (sift less x acc) l.
Proof. reflexivity. Qed.

Lemma sift_from_app acc l l' :
  sift_from less acc (l ++ l') = sift_from less (sift_from less acc l) l'.
Proof. apply fold_left_app. Qed.

Lemma sift_length x r : length (sift less x r) = S (length r).
Proof.
  induction r as [| y r IH]; cbn; [reflexivity |].
  destruct (less x y); cbn; [rewrite IH |]; reflexivity.
Qed.

Lemma sift_from_length l : forall acc, length (sift_from less acc l) = length acc + length l.
Proof.
  induction l as [| x l IH]; intros acc; cbn [sift_from fold_left length].
  - lia.
  - fold (sift_from less (sift less x acc) l). rewrite IH, sift_length. lia.
Qed.

Lemma sift_all_length l : length (sift_all less l) = length l.
Proof. rewrite sift_all_from, sift_from_length. reflexivity. Qed.

(** Nothing is lost or invented. *)
Lemma sift_In x r z : In z (sift less x r) <-> z = x \/ In z r.
Proof.
  induction r as [| y r IH]; cbn.
  - intuition congruence.
  - destruct (less x y); cbn; [rewrite IH |]; intuition congruence.
Qed.

Lemma sift_from_In l : forall acc z, In z (sift_from less acc l) <-> In z acc \/ In z l.
Proof.
  induction l as [| x l IH]; intros acc z; cbn [sift_from fold_left].
  - cbn. tauto.
  - fold (sift_from less (sift less x acc) l). rewrite IH, sift_In. cbn. intuition congruence.
Qed.

Lemma sift_all_In l z : In z (sift_all less l) <-> In z l.
Proof. rewrite sift_all_from, sift_from_In. cbn. tauto. Qed.

(** A pass keeps the order of the elements already placed. *)
Lemma sift_keeps x a b r : precedes a b r -> precedes a b (sift less x r).
Proof.
  intros (l1 & l2 & l3 & ->).
  induction l1 as [| y l1 IH]; cbn.
  - destruct (less x a).
    + apply precedes_head. apply sift_In. right. apply in_or_app. right. left. reflexivity.
    + exists [x], l2, l3. reflexivity.
  - destruct (less x y).
    + apply precedes_cons. exact IH.
    + exists (x :: y :: l1), l2, l3. reflexivity.
Qed.

Lemma sift_from_keeps a b l : forall acc,
  precedes a b acc -> precedes a b (sift_from less acc l).
Proof.
  induction l as [| x l IH]; intros acc H; cbn [sift_from fold_left]; [exact H |].
  apply IH, sift_keeps, H.
Qed.

(** Stability: an element that is not less than one already placed stays
    to its right, which is ahead of it when read from the right. *)
Lemma sift_stops b a r : In a r -> less b a = false -> precedes b a (sift less b r).
Proof.
  intros Hin Hba. induction r as [| y r IH]; [destruct Hin |].
  cbn. destruct (less b y) eqn:E.
  - destruct Hin as [-> | Hin]; [congruence |].
    apply precedes_cons, IH, Hin.
  - apply precedes_head, Hin.
Qed.

Lemma sift_all_stable l1 a l2 b l3 :
  less b a = false ->
  precedes b a (sift_all less (l1 ++ a :: l2 ++ b :: l3)).
Proof.
  intros Hba. rewrite sift_all_from.
  rewrite sift_from_app, sift_from_cons, sift_from_app, sift_from_cons.
  apply sift_from_keeps, sift_stops; [| exact Hba].
  apply sift_from_In. left. apply sift_In. left. reflexivity.
Qed.

(** The sorted prefix, read from the right, never increases. *)
Section Order.
Hypothesis less_irrefl : forall x, less x x = false.
Hypothesis less_trans :
  forall x y z, less x y = true -> less y z = true -> less x z = true.
Hypothesis less_negtrans :
  forall x y z, less x y = false -> less y z = false -> less x z = false.

Lemma less_asym x y : less x y = true -> less y x = false.
Proof.
  intros H. destruct (less y x) eqn:E; [| reflexivity].
  pose proof (less_trans H E) as C. rewrite less_irrefl in C. discriminate.
Qed.

Lemma sift_sorted x r : StronglySorted (ge less) r -> StronglySorted (ge less) (sift less x r).
Proof.
  induction 1 as [| y r Hr IH Hy]; cbn.
  - constructor; constructor.
  - destruct (less x y) eqn:E.
    + constructor; [exact IH |].
      apply Forall_forall. intros z Hz. apply sift_In in Hz as [-> | Hz].
      * apply less_asym, E.
      * rewrite Forall_forall in Hy. apply Hy, Hz.
    + constructor; [constructor; assumption |].
      constructor; [exact E |].
      apply Forall_forall. intros z Hz.
      rewrite Forall_forall in Hy. unfold ge.
      apply less_negtrans with y; [exact E | apply Hy, Hz].
Qed.

Lemma sift_from_sorted l : forall acc,
  StronglySorted (ge less) acc -> StronglySorted (ge less) (sift_from less acc l).
Proof.
  induction l as [| x l IH]; intros acc H; cbn [sift_from fold_left]; [exact H |].
  apply IH, sift_sorted, H.
Qed.

Lemma sift_all_sorted l : StronglySorted (ge less) (sift_all less l).
Proof. rewrite sift_all_from. apply sift_from_sorted. constructor. Qed.
End Order.
End SortingFacts.

(** Sorting by a key commutes with taking the key. *)
Lemma sift_map {A B} (less : B -> B -> bool) (f : A -> B) x r :
  map f (sift (fun a b => less (f a) (f b)) x r) = sift less (f x) (map f r).
Proof.
  induction r as [| y r IH]; cbn; [reflexivity |].
  destruct (less (f x) (f y)); cbn; [rewrite IH |]; reflexivity.
Qed.

Lemma sift_from_map {A B} (less : B -> B -> bool) (f : A -> B) l : forall acc,
  map f (sift_from (fun a b => less (f a) (f b)) acc l)
  = sift_from less (map f acc) (map f l).
Proof.
  induction l as [| x l IH]; intros acc; cbn [sift_from fold_left map]; [reflexivity |].
  fold (sift_from (fun a b => less (f a) (f b)) (sift (fun a b => less (f a) (f b)) x acc) l).
  fold (sift_from less (sift less (f x) (map f acc)) (map f l)).
  rewrite IH, sift_map. reflexivity.
Qed.

Lemma sift_all_map {A B} (less : B -> B -> bool) (f : A -> B) l :
  map f (sift_all (fun a b => less (f a) (f b)) l) = sift_all less (map f l).
Proof. rewrite !sift_all_from. apply (sift_from_map less f l []). Qed.

Lemma sift_Permutation {A} (less : A -> A -> bool) x r :
  Permutation (sift less x r) (x :: r).
Proof.
  induction r as [| y r IH]; cbn; [reflexivity |].
  destruct (less x y); [| reflexivity].
  rewrite IH. apply perm_swap.
Qed.

Lemma sift_from_Permutation {A} (less : A -> A -> bool) l : forall acc,
  Permutation (sift_from less acc l) (l ++ acc).
Proof.
  induction l as [| x l IH]; intros acc; cbn [sift_from fold_left app]; [reflexivity |].
  fold (sift_from less (sift less x acc) l).
  rewrite IH, sift_Permutation. symmetry. apply Permutation_middle.
Qed.

Lemma map_fst_combine_seq {A} (l : list A) : forall s,
  map fst (combine (map Z.of_nat (seq s (length l))) l) = map Z.of_nat (seq s (length l)).
Proof. induction l as [| y l IH]; intros s; cbn; [| rewrite IH]; reflexivity. Qed.

(** ** Lists with their indices *)

Lemma nth_error_precedes {A} (l : list A) : forall i j a b,
  i < j -> nth_error l i = Some a -> nth_error l j = Some b -> precedes a b l.
Proof.
  induction l as [| x l IH]; intros [| i] [| j] a b Hij Ha Hb; cbn in *;
    try discriminate; try lia.
  - injection Ha as ->. apply precedes_head. eapply nth_error_In, Hb.
  - apply precedes_cons. apply (IH i j); [lia | assumption | assumption].
Qed.

Lemma nth_error_combine_seq {A} (l : list A) : forall s i x,
  nth_error l i = Some x ->
  nth_error (combine (map Z.of_nat (seq s (length l))) l) i = Some (Z.of_nat (s + i), x).
Proof.
  induction l as [| y l IH]; intros s [| i] x H; cbn in *; try discriminate.
  - injection H as ->. rewrite Nat.add_0_r. reflexivity.
  - rewrite (IH (S s) i x H). do 2 f_equal. lia.
Qed.

Lemma nth_error_enumerate {A} (l : list A) i x :
  nth_error l i = Some x -> nth_error (enumerate l) i = Some (Z.of_nat i, x).
Proof. intros H. apply (nth_error_combine_seq l 0 i H). Qed.

Lemma map_snd_combine_seq {A} (l : list A) : forall s,
  map snd (combine (map Z.of_nat (seq s (length l))) l) = l.
Proof. induction l as [| y l IH]; intros s; cbn; [| rewrite IH]; reflexivity. Qed.

Lemma map_snd_enumerate {A} (l : list A) : map snd (enumerate l) = l.
Proof. apply map_snd_combine_seq. Qed.

Lemma enumerate_length {A} (l : list A) : length (enumerate l) = length l.
Proof. rewrite <- (map_snd_enumerate l) at 2. rewrite length_map. reflexivity. Qed.

Lemma In_combine_seq {A} (l : list A) : forall s k x,
  In (k, x) (combine (map Z.of_nat (seq s (length l))) l) ->
  (Z.of_nat s <= k < Z.of_nat (s + length l))%Z /\
  nth_error l (Z.to_nat k - s) = Some x.
Proof.
  induction l as [| y l IH]; intros s k x H; cbn in H; [destruct H |].
  destruct H as [H | H].
  - injection H as <- <-. split; [cbn; lia |].
    rewrite Nat2Z.id, Nat.sub_diag. reflexivity.
  - apply IH in H as [Hk Hn]. split; [cbn; lia |].
    replace (Z.to_nat k - s) with (S (Z.to_nat k - S s)) by lia. exact Hn.
Qed.

Lemma In_enumerate {A} (l : list A) k x :
  In (k, x) (enumerate l) ->
  (0 <= k < Z.of_nat (length l))%Z /\ nth_error l (Z.to_nat k) = Some x.
Proof.
  intros H. apply In_combine_seq in H as [Hk Hn].
  rewrite Nat.sub_0_r in Hn. split; [cbn in Hk; lia | exact Hn].
Qed.

(** ** Scores that compare equal *)

Lemma count_cons {A} (f : A -> bool) x l :
  count f (x :: l) = (if f x then 1 else 0) + count f l.
Proof. unfold count. cbn. destruct (f x); reflexivity. Qed.

Lemma count_pos {A} (f : A -> bool) l :
  0 < count f l -> exists y, In y l /\ f y = true.
Proof.
  induction l as [| x l IH]; [cbn; lia |].
  rewrite count_cons. destruct (f x) eqn:E.
  - intros _. exists x. split; [left; reflexivity | exact E].
  - intros H. destruct (IH H) as (y & Hy & Fy). exists y. split; [right |]; assumption.
Qed.

Lemma count_In {A} (f : A -> bool) l y : In y l -> f y = true -> 0 < count f l.
Proof.
  induction l as [| x l IH]; intros H Fy; [destruct H |].
  rewrite count_cons. destruct H as [-> | H].
  - rewrite Fy. lia.
  - specialize (IH H Fy). lia.
Qed.

Lemma count_Permutation {A} (f : A -> bool) l l' :
  Permutation l l' -> count f l = count f l'.
Proof.
  induction 1; rewrite ?count_cons; try reflexivity; try lia; congruence.
Qed.

Section SameFacts.
Context {D : Dtype} {O : SortOrder D}.

Lemma same_spec x y : same x y = true <-> lt x y = false /\ lt y x = false.
Proof. unfold same. rewrite andb_true_iff, !negb_true_iff. tauto. Qed.

Lemma same_refl x : same x x = true.
Proof. apply same_spec. split; apply lt_irrefl. Qed.

Lemma same_sym x y : same x y = same y x.
Proof. unfold same. apply andb_comm. Qed.

Lemma same_trans x y z : same x y = true -> same y z = true -> same x z = true.
Proof.
  rewrite !same_spec. intros [A B] [A' B']. split.
  - apply (@lt_negtrans D O x y z); assumption.
  - apply (@lt_negtrans D O z y x); assumption.
Qed.

(** Scores that compare equal have the same scores equal to them. *)
Lemma same_class v x y : same x y = true -> same v x = same v y.
Proof.
  intros H. destruct (same v x) eqn:E1, (same v y) eqn:E2; try reflexivity.
  - rewrite (@same_trans v x y E1 H) in E2. discriminate.
  - rewrite same_sym in H. rewrite (@same_trans v y x E2 H) in E1. discriminate.
Qed.

(** The least element of an ascending list is at most every element that
    compares equal to one of the list. *)
Lemma ascending_head h t x :
  StronglySorted ascending (h :: t) ->
  0 < count (same x) (h :: t) -> lt x h = false.
Proof.
  intros S Hc. apply StronglySorted_inv in S as [_ F].
  apply count_pos in Hc as (y & [<- | Hy] & E); apply same_spec in E as [E1 E2].
  - exact E1.
  - rewrite Forall_forall in F. apply (@lt_negtrans D O x y h); [exact E1 | apply F, Hy].
Qed.

(** Two ascending lists that hold as many elements of every value agree
    position by position, up to elements that compare equal. *)
Lemma sorted_same l1 : forall l2,
  StronglySorted ascending l1 -> StronglySorted ascending l2 ->
  (forall v, count (same v) l1 = count (same v) l2) ->
  Forall2 (fun a b => same a b = true) l1 l2.
Proof.
  induction l1 as [| h1 t1 IH]; intros [| h2 t2] S1 S2 Hc.
  - constructor.
  - specialize (Hc h2). rewrite count_cons, same_refl in Hc. cbn in Hc. discriminate.
  - specialize (Hc h1). rewrite count_cons, same_refl in Hc. cbn in Hc. discriminate.
  - assert (H12 : same h1 h2 = true).
    { apply same_spec. split.
      - apply (@ascending_head h2 t2 h1 S2). rewrite <- Hc, count_cons, same_refl. lia.
      - apply (@ascending_head h1 t1 h2 S1). rewrite Hc, count_cons, same_refl. lia. }
    constructor; [exact H12 |].
    apply StronglySorted_inv in S1 as [S1 _], S2 as [S2 _].
    apply IH; [exact S1 | exact S2 |].
    intros v. specialize (Hc v). rewrite !count_cons, (@same_class v h1 h2 H12) in Hc. lia.
Qed.

Lemma tie_free_In p :
  tie_free p = true ->
  forall x y, In x p -> In y p -> same x y = true -> x = y.
Proof.
  induction p as [| h t IH]; intros T x y Hx Hy E; [destruct Hx |].
  cbn [tie_free] in T. apply andb_true_iff in T as [Th Tt].
  rewrite forallb_forall in Th.
  destruct Hx as [<- | Hx], Hy as [<- | Hy].
  - reflexivity.
  - apply Th in Hy. rewrite E in Hy. discriminate.
  - apply Th in Hx. rewrite same_sym, E in Hx. discriminate.
  - apply (IH Tt x y Hx Hy E).
Qed.

Lemma tie_free_nth p d :
  tie_free p = true ->
  forall i j, i < length p -> j < length p ->
  same (nth i p d) (nth j p d) = true -> i = j.
Proof.
  induction p as [| h t IH]; intros T i j Hi Hj E; [cbn in Hi; lia |].
  cbn [tie_free] in T. apply andb_true_iff in T as [Th Tt].
  rewrite forallb_forall in Th. cbn [length] in Hi, Hj.
  destruct i as [| i], j as [| j]; cbn [nth] in E.
  - reflexivity.
  - assert (Hin : In (nth j t d) t) by (apply nth_In; lia).
    apply Th in Hin. rewrite E in Hin. discriminate.
  - assert (Hin : In (nth i t d) t) by (apply nth_In; lia).
    apply Th in Hin. rewrite same_sym, E in Hin. discriminate.
  - f_equal. apply (IH Tt); [lia | lia | exact E].
Qed.
End SameFacts.

Lemma Forall2_In_eq {A} (R : A -> A -> Prop) (l1 l2 : list A) :
  Forall2 R l1 l2 ->
  (forall a b, In a l1 -> In b l2 -> R a b -> a = b) ->
  l1 = l2.
Proof.
  induction 1 as [| a b l1 l2 Hab _ IH]; intros H; [reflexivity |].
  f_equal.
  - apply H; [left; reflexivity | left; reflexivity | exact Hab].
  - apply IH. intros x y Hx Hy. apply H; right; assumption.
Qed.

Lemma Forall2_map {A B C} (R : B -> C -> Prop) (f : A -> B) (g : A -> C) (l1 l2 : list A) :
  Forall2 R (map f l1) (map g l2) -> Forall2 (fun a b => R (f a) (g b)) l1 l2.
Proof.
  revert l2. induction l1 as [| a l1 IH]; intros [| b l2] H; inversion H; subst;
    constructor; auto.
Qed.



Lemma map_nth_seq {A} (l : list A) d :
  map (fun k => nth (Z.to_nat k) l d) (map Z.of_nat (seq 0 (length l))) = l.
Proof.
  rewrite map_map.
  induction l as [| x l IH]; [reflexivity |].
  cbn [length seq map]. rewrite Nat2Z.id. cbn [nth]. f_equal.
  rewrite <- seq_shift, map_map. rewrite <- IH at 2.
  apply map_ext. intros i. rewrite !Nat2Z.id. reflexivity.
Qed.

Lemma StronglySorted_snoc {A} (R : A -> A -> Prop) l x :
  StronglySorted R l -> Forall (fun a => R a x) l -> StronglySorted R (l ++ [x]).
Proof.
  induction 1 as [| a l Hs IH Ha]; intros F; cbn.
  - constructor; constructor.
  - constructor.
    + apply IH. apply (Forall_inv_tail F).
    + apply Forall_app. split; [exact Ha |].
      constructor; [apply (Forall_inv F) | constructor].
Qed.

Lemma StronglySorted_rev {A} (R : A -> A -> Prop) l :
  StronglySorted R l -> StronglySorted (fun a b => R b a) (rev l).
Proof.
  induction 1 as [| a l Hs IH Ha]; cbn; [constructor |].
  apply StronglySorted_snoc; [exact IH |].
  apply Forall_rev. exact Ha.
Qed.

Lemma StronglySorted_nth {A} (R : A -> A -> Prop) (l : list A) :
  StronglySorted R l ->
  forall i j x y, i < j -> nth_error l i = Some x -> nth_error l j = Some y -> R x y.
Proof.
  induction 1 as [| a l Hs IH Ha]; intros i j x y Hij Hi Hj.
  - destruct i; discriminate.
  - destruct j as [| j]; [lia |]. cbn in Hj.
    destruct i as [| i]; cbn in Hi.
    + injection Hi as <-. rewrite Forall_forall in Ha. apply Ha. eapply nth_error_In, Hj.
    + apply (IH i j x y); [lia | exact Hi | exact Hj].
Qed.

(** ** The two methods are sorts *)

Lemma In_seqZ n x : In x (map Z.of_nat (seq 0 n)) <-> (0 <= x < Z.of_nat n)%Z.
Proof.
  rewrite in_map_iff. split.
  - intros (i & <- & Hi). apply in_seq in Hi. lia.
  - intros H. exists (Z.to_nat x). split; [lia | apply in_seq; lia].
Qed.

Lemma NoDup_seqZ n : NoDup (map Z.of_nat (seq 0 n)).
Proof.
  apply Finite.Injective_map_NoDup; [| apply seq_NoDup].
  intros a b H. apply Nat2Z.inj, H.
Qed.

Lemma map_fst_enumerate {A} (l : list A) :
  map fst (enumerate l) = map Z.of_nat (seq 0 (length l)).
Proof. apply map_fst_combine_seq. Qed.

Section MethodFacts.
Context {D : Dtype} {O : SortOrder D}.

Lemma stable_sort_lane_length l : length (stable_sort_lane l) = length l.
Proof. unfold stable_sort_lane, insertion_sort. rewrite length_rev. apply sift_all_length. Qed.

Lemma stable_sort_lane_Permutation l : Permutation (stable_sort_lane l) l.
Proof.
  unfold stable_sort_lane, insertion_sort. rewrite <- Permutation_rev, sift_all_from.
  rewrite (sift_from_Permutation lt l []), app_nil_r. reflexivity.
Qed.

Lemma stable_sort_lane_In l y : In y (stable_sort_lane l) -> In y l.
Proof. apply Permutation_in, stable_sort_lane_Permutation. Qed.

Lemma stable_sort_lane_sorted l : StronglySorted ascending (stable_sort_lane l).
Proof.
  unfold stable_sort_lane, insertion_sort.
  apply (@StronglySorted_rev _ (ge lt)).
  apply sift_all_sorted; [exact lt_irrefl | exact lt_trans | exact lt_negtrans].
Qed.

Lemma stable_sort_lane_count l v :
  count (same v) (stable_sort_lane l) = count (same v) l.
Proof. apply count_Permutation, stable_sort_lane_Permutation. Qed.

Lemma stable_ranked_Permutation l : Permutation (stable_ranked l) (enumerate l).
Proof.
  unfold stable_ranked. rewrite sift_all_from.
  rewrite (sift_from_Permutation (fun a b : Z * scalar => lt (snd a) (snd b)) (enumerate l) []).
  rewrite app_nil_r. reflexivity.
Qed.

Lemma stable_ranked_scores l : map snd (stable_ranked l) = sift_all lt l.
Proof.
  unfold stable_ranked. rewrite (sift_all_map lt snd), map_snd_enumerate. reflexivity.
Qed.

Lemma stable_argsort_lane_ranked l : stable_argsort_lane l = rev (map fst (stable_ranked l)).
Proof. unfold stable_argsort_lane, insertion_sort, stable_ranked. apply map_rev. Qed.

Lemma stable_sort_lane_ranked l : stable_sort_lane l = rev (map snd (stable_ranked l)).
Proof. rewrite stable_ranked_scores. reflexivity. Qed.

Lemma stable_argsort_lane_perm l :
  Permutation (stable_argsort_lane l) (map Z.of_nat (seq 0 (length l))).
Proof.
  rewrite stable_argsort_lane_ranked, <- Permutation_rev, <- map_fst_enumerate.
  apply Permutation_map, stable_ranked_Permutation.
Qed.

Lemma nth_enumerate (l : list scalar) kx :
  In kx (enumerate l) -> nth (Z.to_nat (fst kx)) l (of_int 0) = snd kx.
Proof.
  destruct kx as [k x]. intros H. apply In_enumerate in H as [_ H].
  cbn [fst snd]. apply nth_error_nth, H.
Qed.

Lemma stable_argsort_lane_values l :
  map (fun k => nth (Z.to_nat k) l (of_int 0)) (stable_argsort_lane l) = stable_sort_lane l.
Proof.
  rewrite stable_argsort_lane_ranked, stable_sort_lane_ranked, <- !map_rev, map_map.
  apply map_ext_in. intros kx H. apply nth_enumerate.
  apply in_rev in H. apply (Permutation_in _ (stable_ranked_Permutation l)), H.
Qed.

Lemma stable_argsort_lane_sorted l :
  StronglySorted ascending
    (map (fun k => nth (Z.to_nat k) l (of_int 0)) (stable_argsort_lane l)).
Proof. rewrite stable_argsort_lane_values. apply stable_sort_lane_sorted. Qed.

Lemma backward_argsort_lane_perm l :
  Permutation (backward_argsort_lane l) (map Z.of_nat (seq 0 (length l))).
Proof.
  unfold backward_argsort_lane.
  rewrite (Permutation_map _ (stable_argsort_lane_perm (rev l))), length_rev.
  apply NoDup_Permutation.
  - apply Finite.Injective_map_NoDup; [| apply NoDup_seqZ]. intros a b H. lia.
  - apply NoDup_seqZ.
  - intros x. rewrite in_map_iff, In_seqZ. split.
    + intros (k & <- & Hk). apply In_seqZ in Hk. lia.
    + intros H. exists (Z.of_nat (length l) - 1 - x)%Z. split; [lia |].
      apply In_seqZ. lia.
Qed.

Lemma backward_argsort_lane_sorted l :
  StronglySorted ascending
    (map (fun k => nth (Z.to_nat k) l (of_int 0)) (backward_argsort_lane l)).
Proof.
  unfold backward_argsort_lane. rewrite map_map.
  rewrite (map_ext_in _ (fun k => nth (Z.to_nat k) (rev l) (of_int 0))).
  - apply stable_argsort_lane_sorted.
  - intros k Hk.
    apply (Permutation_in _ (stable_argsort_lane_perm (rev l))) in Hk.
    apply In_seqZ in Hk. rewrite length_rev in Hk.
    rewrite rev_nth by lia. f_equal. lia.
Qed.

(** NumPy with the insertion sort. *)
Definition stable_NumPy : NumPy D := {|
  sort_lane := stable_sort_lane;
  argsort_lane := stable_argsort_lane;
  sort_lane_length := stable_sort_lane_length;
  sort_lane_In := stable_sort_lane_In;
  sort_lane_sorted := stable_sort_lane_sorted;
  sort_lane_count := stable_sort_lane_count;
  argsort_lane_perm := stable_argsort_lane_perm;
  argsort_lane_sorted := stable_argsort_lane_sorted
|}.

(** NumPy with an [np.argsort] that reads the lane backwards. *)
Definition backward_NumPy : NumPy D := {|
  sort_lane := stable_sort_lane;
  argsort_lane := backward_argsort_lane;
  sort_lane_length := stable_sort_lane_length;
  sort_lane_In := stable_sort_lane_In;
  sort_lane_sorted := stable_sort_lane_sorted;
  sort_lane_count := stable_sort_lane_count;
  argsort_lane_perm := backward_argsort_lane_perm;
  argsort_lane_sorted := backward_argsort_lane_sorted
|}.
End MethodFacts.

(** ** Binary64 and the rationals are ordered *)

Ltac compare_cases :=
  cbn;
  first [ solve [intros; discriminate] | solve [intros; reflexivity] | compare_next ]
with compare_next :=
  lazymatch goal with
  | |- context [Z.compare ?a ?b] =>
      destruct (Z.compare_spec a b); [subst | |]; compare_cases
  | |- context [Pos.compare_cont Eq ?a ?b] =>
      change (Pos.compare_cont Eq a b) with (Pos.compare a b);
      destruct (Pos.compare_spec a b); [subst | |]; compare_cases
  | |- _ => intros; first [reflexivity | discriminate | lia]
  end.

Ltac sf_cases :=
  unfold sf_lt, SFltb, SFeqb, SFleb, SFcompare;
  repeat match goal with
  | x : spec_float |- _ => destruct x as [[|] | [|] | | [|] ? ?]
  end;
  compare_cases.

Lemma sf_lt_irrefl x : sf_lt x x = false.
Proof. sf_cases. Qed.

Lemma sf_lt_trans x y z : sf_lt x y = true -> sf_lt y z = true -> sf_lt x z = true.
Proof. sf_cases. Qed.

Lemma sf_lt_negtrans x y z : sf_lt x y = false -> sf_lt y z = false -> sf_lt x z = false.
Proof. sf_cases. Qed.

(** [x >= y] in NumPy's order: a NaN [y] forces a NaN [x]; a number [x] is
    at least the number [y]. *)
Lemma sf_geq_spec x y :
  sf_lt x y = false ->
  (SFeqb y y = false -> SFeqb x x = false) /\
  (SFeqb x x = true -> SFeqb y y = true /\ SFleb y x = true).
Proof. revert x y. intros x y. sf_cases; split; intros; try split; compare_cases. Qed.

Lemma SFeqb_nan x : SFeqb x x = false -> x = S754_nan.
Proof. sf_cases. Qed.

Lemma float_lt_spec a b : float_lt a b = sf_lt (Prim2SF a) (Prim2SF b).
Proof. unfold float_lt, sf_lt. rewrite ltb_spec, !eqb_spec. reflexivity. Qed.

Lemma is_nan_spec x : is_nan x = true <-> Prim2SF x = S754_nan.
Proof.
  unfold is_nan. rewrite eqb_spec, negb_true_iff. split.
  - apply SFeqb_nan.
  - intros ->. reflexivity.
Qed.

Lemma is_nan_div x y : is_nan x = true -> is_nan (x / y) = true.
Proof.
  rewrite !is_nan_spec, div_spec. intros ->. reflexivity.
Qed.

Lemma float_geq_spec (x y : float) :
  float_lt x y = false ->
  (is_nan y = true -> is_nan x = true) /\
  (is_nan x = false -> is_nan y = false /\ PrimFloat.leb y x = true).
Proof.
  rewrite float_lt_spec. intros H. apply sf_geq_spec in H as [H1 H2].
  unfold is_nan. rewrite leb_spec, !eqb_spec, !negb_true_iff, !negb_false_iff. auto.
Qed.

#[export] Instance float64_order : SortOrder float64.
Proof.
  constructor; unfold geq; cbn [scalar lt float64].
  - intros x. rewrite float_lt_spec. apply sf_lt_irrefl.
  - intros x y z. rewrite !float_lt_spec. apply sf_lt_trans.
  - intros x y z. rewrite !float_lt_spec. apply sf_lt_negtrans.
Qed.

Lemma Q_lt_true a b : Q_lt a b = true <-> (a < b)%Q.
Proof.
  unfold Q_lt. rewrite Qlt_alt. destruct (Qcompare a b); split; congruence.
Qed.

Lemma Q_lt_false a b : Q_lt a b = false <-> (b <= a)%Q.
Proof.
  rewrite <- not_true_iff_false, Q_lt_true. split.
  - apply Qnot_lt_le.
  - apply Qle_not_lt.
Qed.

#[export] Instance rational_order : SortOrder rational.
Proof.
  constructor; unfold geq; cbn [scalar lt rational].
  - intros x. apply Q_lt_false. apply Qle_refl.
  - intros x y z. rewrite !Q_lt_true. apply Qlt_trans.
  - intros x y z. rewrite !Q_lt_false. intros H1 H2. eapply Qle_trans; eassumption.
Qed.

(** ** Ranking a vector *)

Lemma combine_fst {A B} (l1 : list A) : forall (l2 : list B),
  length l1 = length l2 -> map fst (combine l1 l2) = l1.
Proof.
  induction l1 as [| a l1 IH]; intros [| b l2] H; cbn in *; try discriminate; [reflexivity |].
  f_equal. apply IH. lia.
Qed.

Lemma combine_snd {A B} (l1 : list A) : forall (l2 : list B),
  length l1 = length l2 -> map snd (combine l1 l2) = l2.
Proof.
  induction l1 as [| a l1 IH]; intros [| b l2] H; cbn in *; try discriminate; [reflexivity |].
  f_equal. apply IH. lia.
Qed.

Lemma combine_fst_snd {A B} (l : list (A * B)) : combine (map fst l) (map snd l) = l.
Proof. induction l as [| [a b] l IH]; cbn; [| rewrite IH]; reflexivity. Qed.

Lemma StronglySorted_map_inv {A B} (R : B -> B -> Prop) (f : A -> B) l :
  StronglySorted R (map f l) -> StronglySorted (fun a b => R (f a) (f b)) l.
Proof.
  induction l as [| x l IH]; cbn; intros H; [constructor |].
  apply StronglySorted_inv in H as [H F]. constructor; [apply IH, H |].
  rewrite Forall_forall in F |- *. intros b Hb. apply F, in_map, Hb.
Qed.



Section Ranking.
Context {D : Dtype} {NP : NumPy D}.

Lemma argsort_lane_length p : length (argsort_lane p) = length p.
Proof.
  rewrite (Permutation_length (argsort_lane_perm p)), length_map, length_seq. reflexivity.
Qed.

Lemma argsort_lane_range p k :
  In k (argsort_lane p) -> (0 <= k < Z.of_nat (length p))%Z.
Proof. intros H. apply In_seqZ. apply (Permutation_in _ (argsort_lane_perm p)), H. Qed.

Lemma ranked_indices p : map fst (ranked p) = rev (argsort_lane p).
Proof.
  unfold ranked. apply combine_fst.
  rewrite !length_rev, argsort_lane_length, sort_lane_length. reflexivity.
Qed.

Lemma ranked_scores p : map snd (ranked p) = rev (sort_lane p).
Proof.
  unfold ranked. apply combine_snd.
  rewrite !length_rev, argsort_lane_length, sort_lane_length. reflexivity.
Qed.

Lemma ranked_length p : length (ranked p) = length p.
Proof.
  rewrite <- (length_map fst), ranked_indices, length_rev. apply argsort_lane_length.
Qed.

(** Every pair holds an index of the vector and one of its scores. *)
Lemma ranked_In p k x :
  In (k, x) (ranked p) -> (0 <= k < Z.of_nat (length p))%Z /\ In x p.
Proof.
  intros H. split.
  - apply argsort_lane_range. apply in_rev. rewrite <- ranked_indices.
    apply (in_map fst) in H. exact H.
  - apply sort_lane_In. apply in_rev. rewrite <- ranked_scores.
    apply (in_map snd) in H. exact H.
Qed.

Lemma ranked_NoDup p : NoDup (map fst (ranked p)).
Proof.
  rewrite ranked_indices.
  apply (Permutation_NoDup (l := map Z.of_nat (seq 0 (length p)))); [| apply NoDup_seqZ].
  rewrite <- Permutation_rev. symmetry. apply argsort_lane_perm.
Qed.

(** The ranking never increases. *)
Lemma ranked_sorted p :
  StronglySorted (fun a b => geq (snd a) (snd b)) (ranked p).
Proof.
  apply (@StronglySorted_map_inv _ _ (fun x y => geq x y) snd).
  rewrite ranked_scores.
  apply (@StronglySorted_rev _ ascending), sort_lane_sorted.
Qed.

Lemma sorted_prob_of_vector probabilities k p :
  np_asarray probabilities = ret (mk_ndarray (vector_shape k (length p)) p) ->
  sorted_prob_of probabilities =
  if length p =? 1 then raise IndexError
  else ret (mk_ndarray [length p] (map snd (ranked p))).
Proof.
  intros H. unfold sorted_prob_of, np_sort. rewrite H, bind_ret.
  rewrite along_last_axis_vector, bind_ret, squeeze_vector.
  destruct (length p =? 1); [reflexivity |].
  rewrite ranked_scores, <- (sort_lane_length p). apply flip_1d.
Qed.

Lemma sorted_indices_of_vector probabilities k p :
  np_asarray probabilities = ret (mk_ndarray (vector_shape k (length p)) p) ->
  sorted_indices_of probabilities =
  if length p =? 1 then raise IndexError
  else ret (mk_ndarray [length p] (map fst (ranked p))).
Proof.
  intros H. unfold sorted_indices_of, np_argsort. rewrite H, bind_ret.
  rewrite along_last_axis_vector, bind_ret, squeeze_vector.
  destruct (length p =? 1); [reflexivity |].
  rewrite ranked_indices, <- (argsort_lane_length p). apply flip_1d.
Qed.
End Ranking.

(** With the insertion sort, the ranking is the one its passes build. *)
Lemma ranked_stable {D : Dtype} {O : SortOrder D} (p : list scalar) :
  ranked (NP:=stable_NumPy) p = stable_ranked p.
Proof.
  unfold ranked. cbn [sort_lane argsort_lane stable_NumPy].
  rewrite stable_argsort_lane_ranked, stable_sort_lane_ranked, !rev_involutive.
  apply combine_fst_snd.
Qed.

(** ** What the two sorts have in common *)

Section Pairing.
Context {D : Dtype} {O : SortOrder D} {NP : NumPy D}.

Lemma argsort_lane_values_Permutation p :
  Permutation (map (fun k => nth (Z.to_nat k) p (of_int 0)) (argsort_lane p)) p.
Proof.
  rewrite (Permutation_map _ (argsort_lane_perm p)), map_nth_seq. reflexivity.
Qed.


End Pairing.

(** ** Vectors without ties: every method gives the same *)

Section Unique.
Context {D : Dtype} {O : SortOrder D}.
Variables N1 N2 : NumPy D.

Lemma sort_lane_unique p :
  tie_free p = true -> sort_lane (NumPy:=N1) p = sort_lane (NumPy:=N2) p.
Proof.
  intros T. apply (Forall2_In_eq (R := fun a b => same a b = true)).
  - apply sorted_same; [apply sort_lane_sorted | apply sort_lane_sorted |].
    intros v. rewrite !sort_lane_count. reflexivity.
  - intros a b Ha Hb. apply (@tie_free_In D p T); apply sort_lane_In in Ha, Hb; assumption.
Qed.

Lemma argsort_lane_unique p :
  tie_free p = true -> argsort_lane (NumPy:=N1) p = argsort_lane (NumPy:=N2) p.
Proof.
  intros T.
  apply (Forall2_In_eq (R := fun a b => same (nth (Z.to_nat a) p (of_int 0))
                                             (nth (Z.to_nat b) p (of_int 0)) = true)).
  - apply (@Forall2_map _ _ _ (fun a b => same a b = true)
             (fun k => nth (Z.to_nat k) p (of_int 0))
             (fun k => nth (Z.to_nat k) p (of_int 0))).
    apply sorted_same; [apply argsort_lane_sorted | apply argsort_lane_sorted |].
    intros v.
    rewrite (@count_Permutation _ (same v) _ _ (argsort_lane_values_Permutation (NP:=N1) p)).
    rewrite (@count_Permutation _ (same v) _ _ (argsort_lane_values_Permutation (NP:=N2) p)).
    reflexivity.
  - intros a b Ha Hb E. apply argsort_lane_range in Ha, Hb.
    apply (@tie_free_nth D p (of_int 0) T) in E; lia.
Qed.

Lemma ranked_unique p :
  tie_free p = true -> ranked (NP:=N1) p = ranked (NP:=N2) p.
Proof.
  intros T. unfold ranked. rewrite (@sort_lane_unique p T), (@argsort_lane_unique p T). reflexivity.
Qed.
End Unique.

(** ** [Postprocess] on a vector *)

Lemma getitem_nonneg {A} (l : list A) (k : Z) :
  (0 <= k)%Z ->
  getitem l k = match nth_error l (Z.to_nat k) with
                | Some x => ret x
                | None => raise IndexError
                end.
Proof.
  intros Hk. unfold getitem.
  destruct (k <? 0)%Z eqn:E; [apply Z.ltb_lt in E; lia |].
  destruct (0 <=? k)%Z eqn:E0; [| apply Z.leb_gt in E0; lia].
  destruct (k <? Z.of_nat (length l))%Z eqn:E1; cbn [andb]; [reflexivity |].
  apply Z.ltb_ge in E1.
  destruct (nth_error l (Z.to_nat k)) eqn:N; [| reflexivity].
  assert (Z.to_nat k < length l) by (apply nth_error_Some; congruence). lia.
Qed.

Section PostprocessFacts.
Context {D : Dtype} {NP : NumPy D}.
Variable self : MLModel.

Lemma detect_ranked (r : list (Z * scalar)) i :
  (forall kx, In kx r -> (0 <= fst kx)%Z) ->
  detect self (mk_ndarray [length r] (map snd r)) (mk_ndarray [length r] (map fst r)) i
  = match nth_error r i with
    | Some kx => match entry self kx with
                 | Some e => ret e
                 | None => raise IndexError
                 end
    | None => raise IndexError
    end.
Proof.
  intros Hpos. unfold detect. rewrite !item_1d.
  destruct (nth_error r i) as [[k x] |] eqn:N.
  - assert (Hi : i < length r) by (apply nth_error_Some; congruence).
    apply Nat.ltb_lt in Hi. rewrite Hi, bind_ret, bind_ret.
    rewrite (firstn_1_skipn (map fst r) i (x:=k))
      by (rewrite nth_error_map, N; reflexivity).
    rewrite (firstn_1_skipn (map snd r) i (x:=x))
      by (rewrite nth_error_map, N; reflexivity).
    unfold operator_index. cbn [shape data]. rewrite bind_ret.
    assert (Hk : (0 <= k)%Z) by (apply (Hpos (k, x)); eapply nth_error_In, N).
    rewrite (getitem_nonneg _ Hk). unfold entry, lookup_name. cbn [fst snd].
    destruct (nth_error (_labelList self) (Z.to_nat k)) as [obj |]; [| reflexivity].
    rewrite bind_ret, getitem_nonneg by lia.
    change (Z.to_nat 1) with 1.
    destruct (nth_error (split_space_1 obj) 1) as [name |]; [| reflexivity].
    rewrite bind_ret. reflexivity.
  - assert (Hi : length r <= i) by (apply nth_error_None, N).
    apply Nat.ltb_ge in Hi. rewrite Hi. reflexivity.
Qed.

Lemma Postprocess_vector probabilities k p :
  np_asarray probabilities = ret (mk_ndarray (vector_shape k (length p)) p) ->
  Postprocess self probabilities =
  match rank3 self p with
  | Some r => (Returns (Some r), [])
  | None => (Returns None, [IndexError])
  end.
Proof.
  intros H.
  assert (Hpos : forall kx, In kx (ranked p) -> (0 <= fst kx)%Z).
  { intros [j x] Hin. apply ranked_In in Hin. cbn. lia. }
  change (Postprocess self probabilities) with
    (guarded (
       sorted_prob <- sorted_prob_of probabilities ;;
       sorted_indices <- sorted_indices_of probabilities ;;
       detectedObjects <- for_range 3 (detect self sorted_prob sorted_indices) ;;
       return_ detectedObjects)).
  rewrite (@sorted_prob_of_vector D NP probabilities k p H).
  rewrite (@sorted_indices_of_vector D NP probabilities k p H).
  unfold rank3. rewrite <- (ranked_length p).
  destruct (length (ranked p) =? 1) eqn:L1.
  - apply Nat.eqb_eq in L1.
    destruct (ranked p) as [| a [| b r]]; try discriminate; reflexivity.
  - rewrite !bind_ret. unfold for_range. cbn [for_range_from].
    rewrite !(@detect_ranked (ranked p) _ Hpos).
    destruct (ranked p) as [| a [| b [| c r]]]; cbn [nth_error]; try reflexivity.
    + discriminate.
    + destruct (entry self a); [| reflexivity].
      destruct (entry self b); reflexivity.
    + destruct (entry self a); [| reflexivity].
      destruct (entry self b); [| reflexivity].
      destruct (entry self c); reflexivity.
Qed.
End PostprocessFacts.

(** On a vector without ties the result does not depend on the method. *)
Lemma Postprocess_unique {D : Dtype} {O : SortOrder D} (N1 N2 : NumPy D)
    (self : MLModel) probabilities k (p : list scalar) :
  np_asarray probabilities = ret (mk_ndarray (vector_shape k (length p)) p) ->
  tie_free p = true ->
  Postprocess (NP:=N1) self probabilities = Postprocess (NP:=N2) self probabilities.
Proof.
  intros H T.
  rewrite (@Postprocess_vector D N1 self probabilities k p H).
  rewrite (@Postprocess_vector D N2 self probabilities k p H).
  unfold rank3. rewrite (@ranked_unique D O N1 N2 p T). reflexivity.
Qed.

(** ** [Preprocess] *)

Lemma nth_error_flat_map_uniform {A B} (f : A -> list B) n (l : list A) :
  (forall x, In x l -> length (f x) = n) ->
  forall q r, r < n ->
  nth_error (flat_map f l) (q * n + r) =
  match nth_error l q with
  | Some x => nth_error (f x) r
  | None => None
  end.
Proof.
  induction l as [| x l IH]; intros Hlen q r Hr.
  - cbn [flat_map]. rewrite !nth_error_nil. reflexivity.
  - cbn [flat_map]. destruct q as [| q]; cbn [nth_error Nat.mul Nat.add].
    + apply nth_error_app1. rewrite Hlen by (left; reflexivity). exact Hr.
    + rewrite nth_error_app2 by (rewrite Hlen by (left; reflexivity); lia).
      rewrite Hlen by (left; reflexivity).
      replace (n + q * n + r - n) with (q * n + r) by lia.
      apply IH; [| exact Hr]. intros y Hy. apply Hlen. right. exact Hy.
Qed.

Lemma length_flat_map_uniform {A B} (f : A -> list B) n (l : list A) :
  (forall x, In x l -> length (f x) = n) ->
  length (flat_map f l) = length l * n.
Proof.
  induction l as [| x l IH]; intros Hlen; [reflexivity |].
  cbn [flat_map length Nat.mul]. rewrite length_app, Hlen by (left; reflexivity).
  rewrite IH; [reflexivity |]. intros y Hy. apply Hlen. right. exact Hy.
Qed.

Lemma chunks_length {A} n k : forall (l : list A), length (chunks n l k) = k.
Proof. induction k as [| k IH]; intros l; cbn; [| rewrite IH]; reflexivity. Qed.

Lemma nth_error_chunks {A} n k : forall (l : list A) q,
  q < k -> nth_error (chunks n l k) q = Some (firstn n (skipn (q * n) l)).
Proof.
  induction k as [| k IH]; intros l q Hq; [lia |].
  destruct q as [| q]; cbn [chunks nth_error]; [reflexivity |].
  rewrite IH by lia. cbn [Nat.mul]. rewrite skipn_skipn.
  do 3 f_equal. lia.
Qed.

Lemma In_chunks_length {A} n k : forall (l : list A) c,
  k * n <= length l -> In c (chunks n l k) -> length c = n.
Proof.
  induction k as [| k IH]; intros l c Hl Hc; [destruct Hc |].
  cbn in Hc, Hl. destruct Hc as [<- | Hc].
  - rewrite length_firstn. lia.
  - apply (IH (skipn n l)); [rewrite length_skipn; lia | exact Hc].
Qed.

Lemma nth_error_firstn_skipn {A} (l : list A) o n r :
  r < n -> nth_error (firstn n (skipn o l)) r = nth_error l (o + r).
Proof.
  intros Hr. rewrite nth_error_firstn.
  destruct (Nat.ltb_spec r n); [| lia].
  apply nth_error_skipn.
Qed.

Lemma nth_error_seq0 n q : q < n -> nth_error (seq 0 n) q = Some q.
Proof.
  intros H. rewrite (nth_error_nth' _ 0) by (rewrite length_seq; exact H).
  rewrite seq_nth by exact H. reflexivity.
Qed.

Lemma bgr2rgb_length px : length px = 3 -> length (bgr2rgb px) = 3.
Proof. destruct px as [| b [| g [| r [| a px]]]]; cbn; intros; try discriminate; reflexivity. Qed.

Lemma bgr2rgb_nth px k :
  length px = 3 -> k < 3 -> nth_error (bgr2rgb px) k = nth_error px (2 - k).
Proof.
  destruct px as [| b [| g [| r [| a px]]]]; cbn [length]; intros H Hk; try discriminate.
  destruct k as [| [| [| k]]]; try lia; reflexivity.
Qed.

Lemma bgr2rgb_In px x : In x (bgr2rgb px) -> In x px.
Proof.
  destruct px as [| b [| g [| r px]]]; cbn; tauto.
Qed.

Lemma In_chunks {A} n k : forall (l c : list A) x,
  In c (chunks n l k) -> In x c -> In x l.
Proof.
  induction k as [| k IH]; intros l c x Hc Hx; [destruct Hc |].
  cbn in Hc. destruct Hc as [<- | Hc].
  - rewrite <- (firstn_skipn n l). apply in_or_app. left. exact Hx.
  - rewrite <- (firstn_skipn n l). apply in_or_app. right. eapply IH; eassumption.
Qed.

Section ColourOrder.
Context {CV : OpenCV}.
Variables (img : ndarray Z) (h w : nat).
Hypothesis Hshape : shape img = [h; w; 3].
Hypothesis Hwf : wf img.

Let rgb : ndarray Z :=
  mk_ndarray [h; w; 3] (flat_map bgr2rgb (chunks 3 (data img) (h * w))).

Lemma img_length : length (data img) = h * w * 3.
Proof. unfold wf in Hwf. rewrite Hwf, Hshape. cbn. lia. Qed.

Lemma rgb_chunk c : In c (chunks 3 (data img) (h * w)) -> length (bgr2rgb c) = 3.
Proof.
  intros Hc. apply bgr2rgb_length.
  apply (In_chunks_length 3 (h * w) (data img)); [rewrite img_length; lia | exact Hc].
Qed.

Lemma rgb_length : length (data rgb) = h * w * 3.
Proof.
  cbn [rgb data]. rewrite (length_flat_map_uniform bgr2rgb (n:=3)) by apply rgb_chunk.
  rewrite chunks_length. reflexivity.
Qed.

(** Channel [k] of a pixel of the result is channel [2 - k] of the input. *)
Lemma rgb_nth q k :
  q < h * w -> k < 3 ->
  nth_error (data rgb) (q * 3 + k) = nth_error (data img) (q * 3 + (2 - k)).
Proof.
  intros Hq Hk. cbn [rgb data].
  rewrite (nth_error_flat_map_uniform bgr2rgb (n:=3)) by (apply rgb_chunk || exact Hk).
  rewrite nth_error_chunks by exact Hq.
  rewrite bgr2rgb_nth; [| | exact Hk].
  - apply nth_error_firstn_skipn. lia.
  - rewrite length_firstn, length_skipn, img_length. nia.
Qed.

Lemma rgb_In x : In x (data rgb) -> In x (data img).
Proof.
  cbn [rgb data]. intros H. apply in_flat_map in H as (c & Hc & Hx).
  eapply In_chunks; [exact Hc | apply bgr2rgb_In, Hx].
Qed.

Lemma cvtColor_image :
  0 < h -> 0 < w -> cvtColor_BGR2RGB img = ret rgb.
Proof.
  intros Hh Hw. apply (@cvtColor_BGR2RGB_colour CV img h w 3 Hshape Hh Hw). left. reflexivity.
Qed.
End ColourOrder.

Section Transpose.
Context {A : Type}.
Variables (a : ndarray A) (h w c : nat).
Hypothesis Hshape : shape a = [h; w; c].
Hypothesis Hlen : length (data a) = h * w * c.

Let cell (k i j : nat) : list A :=
  match nth_error (data a) ((i * w + j) * c + k) with
  | Some x => [x]
  | None => []
  end.

Let transposed : ndarray A :=
  mk_ndarray [c; h; w]
    (flat_map (fun k => flat_map (fun i => flat_map (cell k i) (seq 0 w)) (seq 0 h))
              (seq 0 c)).

Lemma cell_length k i j : k < c -> i < h -> j < w -> length (cell k i j) = 1.
Proof.
  intros Hk Hi Hj. unfold cell.
  destruct (nth_error (data a) ((i * w + j) * c + k)) eqn:E; [reflexivity |].
  apply nth_error_None in E. rewrite Hlen in E.
  assert (i * w + j < h * w) by nia.
  assert ((i * w + j) * c + k < h * w * c) by nia. lia.
Qed.

Lemma row_length k i : k < c -> i < h -> length (flat_map (cell k i) (seq 0 w)) = w.
Proof.
  intros Hk Hi. rewrite (length_flat_map_uniform (cell k i) (n:=1)).
  - rewrite length_seq. lia.
  - intros j Hj. apply in_seq in Hj. apply cell_length; lia.
Qed.

Lemma plane_length k :
  k < c -> length (flat_map (fun i => flat_map (cell k i) (seq 0 w)) (seq 0 h)) = h * w.
Proof.
  intros Hk. rewrite (length_flat_map_uniform _ (n:=w)).
  - rewrite length_seq. reflexivity.
  - intros i Hi. apply in_seq in Hi. apply row_length; lia.
Qed.

Lemma transposed_length : length (data transposed) = c * h * w.
Proof.
  cbn [transposed data]. rewrite (length_flat_map_uniform _ (n:=h * w)).
  - rewrite length_seq. lia.
  - intros k Hk. apply in_seq in Hk. apply plane_length. lia.
Qed.

(** Element [(k, i, j)] of the result is element [(i, j, k)] of [a]. *)
Lemma transposed_nth k i j :
  k < c -> i < h -> j < w ->
  nth_error (data transposed) ((k * h + i) * w + j)
  = nth_error (data a) ((i * w + j) * c + k).
Proof.
  intros Hk Hi Hj. cbn [transposed data].
  replace ((k * h + i) * w + j) with (k * (h * w) + (i * w + j)) by lia.
  rewrite (nth_error_flat_map_uniform _ (n:=h * w)).
  2:{ intros x Hx. apply in_seq in Hx. apply plane_length. lia. }
  2:{ nia. }
  rewrite nth_error_seq0 by exact Hk.
  rewrite (nth_error_flat_map_uniform _ (n:=w)).
  2:{ intros x Hx. apply in_seq in Hx. apply row_length; lia. }
  2:{ exact Hj. }
  rewrite nth_error_seq0 by exact Hi.
  replace j with (j * 1 + 0) at 1 by lia.
  rewrite (nth_error_flat_map_uniform (cell k i) (n:=1)).
  2:{ intros x Hx. apply in_seq in Hx. apply cell_length; lia. }
  2:{ lia. }
  rewrite nth_error_seq0 by exact Hj.
  unfold cell.
  destruct (nth_error (data a) ((i * w + j) * c + k)); reflexivity.
Qed.

Lemma transposed_In x : In x (data transposed) -> In x (data a).
Proof.
  cbn [transposed data]. intros H.
  apply in_flat_map in H as (k & _ & H).
  apply in_flat_map in H as (i & _ & H).
  apply in_flat_map in H as (j & _ & H).
  unfold cell in H.
  destruct (nth_error (data a) ((i * w + j) * c + k)) eqn:E; [| destruct H].
  destruct H as [<- | []]. eapply nth_error_In, E.
Qed.

Lemma transpose_image : np_transpose_201 a = ret transposed.
Proof. unfold np_transpose_201. rewrite Hshape. reflexivity. Qed.
End Transpose.

Section PreprocessFacts.
Context {D : Dtype} {CV : OpenCV}.

Lemma Preprocess_returns cvImage : exists r l, Preprocess cvImage = (Returns r, l).
Proof. apply guarded_returns. Qed.

Lemma Preprocess_after_cvtColor cvImage rgb :
  cvtColor_BGR2RGB cvImage = ret rgb ->
  Preprocess cvImage =
  guarded (t <- np_transpose_201
                  (np_map (fun x => truediv x (of_int 255)) (np_map of_int rgb)) ;;
           return_ (np_expand_dims_0 t)).
Proof. intros H. unfold Preprocess. rewrite H, bind_ret. reflexivity. Qed.

Lemma Preprocess_image (img : ndarray Z) (h w : nat) :
  shape img = [h; w; 3] -> wf img -> 0 < h -> 0 < w ->
  exists t,
    Preprocess img = (Returns (Some t), []) /\
    shape t = [1; 3; h; w] /\
    wf t /\
    (forall i j k, i < h -> j < w -> k < 3 ->
       exists v, get img [i; j; 2 - k] = Some v /\
                 get t [0; k; i; j] = Some (normalise v)) /\
    (forall y, In y (data t) -> exists v, In v (data img) /\ y = normalise v).
Proof.
  intros Hshape Hwf Hh Hw.
  pose proof (@Preprocess_after_cvtColor img _ (cvtColor_image img Hshape Hh Hw)) as P.
  pose proof (rgb_length Hshape Hwf) as Lrgb.
  pose proof (@rgb_nth img h w Hshape Hwf) as Nrgb.
  pose proof (rgb_In img h w) as Irgb.
  set (rgb := mk_ndarray [h; w; 3] (flat_map bgr2rgb (chunks 3 (data img) (h * w)))) in *.
  assert (Hs : shape (np_map (fun x => truediv x (of_int 255)) (np_map of_int rgb))
               = [h; w; 3]) by reflexivity.
  assert (Hd : data (np_map (fun x => truediv x (of_int 255)) (np_map of_int rgb))
               = map normalise (data rgb)).
  { cbn [np_map data]. rewrite map_map. reflexivity. }
  set (scaled := np_map (fun x => truediv x (of_int 255)) (np_map of_int rgb)) in *.
  clearbody scaled. clearbody rgb.
  assert (Hl : length (data scaled) = h * w * 3).
  { rewrite Hd, length_map. exact Lrgb. }
  rewrite (transpose_image scaled Hs), bind_ret in P.
  pose proof (transposed_length scaled h w 3 Hl) as TL.
  pose proof (@transposed_nth _ scaled h w 3 Hl) as TN.
  pose proof (transposed_In scaled h w 3) as TI.
  cbn [data] in TL, TN, TI.
  set (cells := flat_map _ (seq 0 3)) in *. clearbody cells.
  exists (np_expand_dims_0 (mk_ndarray [3; h; w] cells)).
  split; [| split; [| split; [| split]]].
  - exact P.
  - reflexivity.
  - unfold wf. cbn [np_expand_dims_0 data shape].
    rewrite TL. cbn. lia.
  - intros i j k Hi Hj Hk.
    assert (Hq : i * w + j < h * w) by nia.
    destruct (nth_error (data img) ((i * w + j) * 3 + (2 - k))) as [v |] eqn:V.
    2:{ apply nth_error_None in V. rewrite (img_length Hshape Hwf) in V. lia. }
    exists v. split.
    + unfold get. rewrite Hshape. cbn [offset_from].
      apply Nat.ltb_lt in Hi, Hj. rewrite Hi, Hj.
      assert (E : (2 - k <? 3) = true) by (apply Nat.ltb_lt; lia). rewrite E.
      rewrite <- V. f_equal.
    + unfold get. cbn [np_expand_dims_0 shape data offset_from].
      pose proof Hi as Hi'. pose proof Hj as Hj'. pose proof Hk as Hk'.
      apply Nat.ltb_lt in Hi', Hj', Hk'.
      change (0 <? 1) with true. cbv iota. rewrite Hk', Hi', Hj'.
      replace ((((0 * 1 + 0) * 3 + k) * h + i) * w + j) with ((k * h + i) * w + j) by lia.
      rewrite (TN k i j Hk Hi Hj).
      rewrite Hd, nth_error_map, (Nrgb _ _ Hq Hk), V. reflexivity.
  - intros y Hy. cbn [np_expand_dims_0 data] in Hy.
    apply TI in Hy. rewrite Hd in Hy.
    apply in_map_iff in Hy as (v & <- & Hv).
    exists v. split; [| reflexivity].
    apply Irgb, Hv.
Qed.
End PreprocessFacts.

(** ** Scaled samples *)

Lemma samples_checked (D : Dtype) :
  samples_in_unit_interval D = true -> UnitRange D.
Proof.
  intros H v [H0 H255]. unfold samples_in_unit_interval in H.
  rewrite forallb_forall in H.
  assert (Hin : In (Z.to_nat v) (seq 0 256)) by (apply in_seq; lia).
  apply H in Hin. unfold sample_in_unit_interval in Hin.
  rewrite Z2Nat.id in Hin by exact H0. apply andb_true_iff in Hin as [A B].
  apply negb_true_iff in A, B. split; assumption.
Qed.

#[export] Instance float64_unit_range : UnitRange float64.
Proof. apply samples_checked. vm_compute. reflexivity. Qed.

#[export] Instance rational_unit_range : UnitRange rational.
Proof. apply samples_checked. vm_compute. reflexivity. Qed.

(** ** [Score] *)

Lemma bind_returns {A B} (m : py A) (k : A -> py B) v l :
  bind m k = (Returns v, l) ->
  exists a l1 l2, m = (Returns a, l1) /\ k a = (Returns v, l2) /\ l = l1 ++ l2.
Proof.
  destruct m as [[a | e] l1]; cbn; [| discriminate].
  destruct (k a) as [r l2] eqn:K. intros H. injection H as -> <-.
  exists a, l1, l2. auto.
Qed.

(** A guarded method whose body can only return a value returns [None]
    only after logging an exception. *)
Lemma guarded_none_logged {A} (body : py (option A)) l :
  (forall v l', body = (Returns v, l') -> v <> None) ->
  guarded body = (Returns None, l) -> l <> [].
Proof.
  intros Hsome. destruct body as [[v | e] l0]; cbn.
  - intros H. injection H as -> <-. exfalso. eapply Hsome; reflexivity.
  - intros H. injection H as <-. destruct l0; discriminate.
Qed.

Section ScoreFacts.
Context {D : Dtype} {NP : NumPy D} {CV : OpenCV}.
Variable self : MLModel.

Lemma Score_returns cvImage : exists r l, Score self cvImage = (Returns r, l).
Proof. apply guarded_returns. Qed.

Lemma Postprocess_none_logged probabilities l :
  Postprocess self probabilities = (Returns None, l) -> l <> [].
Proof.
  apply guarded_none_logged. intros v l' H.
  apply bind_returns in H as (sp & ? & ? & _ & H & _).
  apply bind_returns in H as (si & ? & ? & _ & H & _).
  apply bind_returns in H as (d & ? & ? & _ & H & _).
  injection H as <- _. discriminate.
Qed.

(** The three ways a call can go, once [Preprocess] has returned. *)
Lemma Score_inference_raises cvImage blob l1 e l2 :
  Preprocess cvImage = (Returns blob, l1) ->
  _onnxSession self blob = (Raises e, l2) ->
  Score self cvImage = (Returns None, (l1 ++ l2) ++ [e]).
Proof.
  intros P R. unfold Score, with_lock, Score_locked. rewrite P. cbn [bind].
  rewrite R. reflexivity.
Qed.

Lemma Score_inference_returns cvImage blob l1 probabilities l2 r l3 :
  Preprocess cvImage = (Returns blob, l1) ->
  _onnxSession self blob = (Returns probabilities, l2) ->
  Postprocess self probabilities = (Returns r, l3) ->
  Score self cvImage = (Returns r, (l1 ++ l2) ++ l3).
Proof.
  intros P R Q. unfold Score, with_lock, Score_locked. rewrite P. cbn [bind].
  rewrite R. cbn [bind]. rewrite Q. reflexivity.
Qed.
End ScoreFacts.

(** ** Positions in the ranking *)

Lemma rank_of_app_notin k l1 l2 :
  ~ In k l1 -> rank_of k (l1 ++ l2) = option_map (Nat.add (length l1)) (rank_of k l2).
Proof.
  induction l1 as [| x l1 IH]; intros Hn; cbn.
  - destruct (rank_of k l2); reflexivity.
  - destruct (Z.eqb_spec x k) as [-> | _]; [exfalso; apply Hn; left; reflexivity |].
    rewrite IH by (intros H; apply Hn; right; exact H).
    destruct (rank_of k l2); reflexivity.
Qed.

Lemma rank_of_head k l : rank_of k (k :: l) = Some 0.
Proof. cbn. rewrite Z.eqb_refl. reflexivity. Qed.

Lemma precedes_rank a b l :
  NoDup l -> precedes a b l ->
  exists ra rb, rank_of a l = Some ra /\ rank_of b l = Some rb /\ ra < rb.
Proof.
  intros Hnd (l1 & l2 & l3 & ->).
  apply NoDup_remove in Hnd as [Hnd Ha].
  assert (Ha1 : ~ In a l1) by (intros H; apply Ha, in_or_app; left; exact H).
  assert (Hab : a <> b).
  { intros ->. apply Ha, in_or_app. right. apply in_or_app. right. left. reflexivity. }
  assert (Hb : ~ In b (l1 ++ a :: l2)).
  { change (l1 ++ l2 ++ b :: l3) with (l1 ++ (l2 ++ b :: l3)) in Hnd.
    rewrite app_assoc in Hnd. apply NoDup_remove_2 in Hnd.
    intros H. apply in_app_or in H as [H | [H | H]].
    - apply Hnd, in_or_app. left. apply in_or_app. left. exact H.
    - congruence.
    - apply Hnd, in_or_app. left. apply in_or_app. right. exact H. }
  exists (length l1), (length (l1 ++ a :: l2)). split; [| split].
  - rewrite rank_of_app_notin by exact Ha1. rewrite rank_of_head. cbn. f_equal. lia.
  - change (l1 ++ a :: l2 ++ b :: l3) with (l1 ++ (a :: l2) ++ b :: l3).
    rewrite app_assoc. rewrite rank_of_app_notin by exact Hb.
    rewrite rank_of_head. cbn. f_equal. lia.
  - rewrite length_app. cbn. lia.
Qed.

(** ** What [rank3] returns *)

Section Rank3Facts.
Context {D : Dtype} {NP : NumPy D}.
Variable self : MLModel.


Lemma rank3_some p r :
  rank3 self p = Some r ->
  exists a b c rest x y z,
    ranked p = a :: b :: c :: rest /\
    entry self a = Some x /\ entry self b = Some y /\ entry self c = Some z /\
    r = [x; y; z].
Proof.
  unfold rank3. destruct (ranked p) as [| a [| b [| c rest]]]; try discriminate.
  destruct (entry self a) as [x |] eqn:Ea; [| discriminate].
  destruct (entry self b) as [y |] eqn:Eb; [| discriminate].
  destruct (entry self c) as [z |] eqn:Ec; [| discriminate].
  intros H. injection H as <-.
  exists a, b, c, rest, x, y, z. auto.
Qed.

Lemma rank3_short p : length p < 3 -> rank3 self p = None.
Proof.
  intros H. rewrite <- ranked_length in H. unfold rank3.
  destruct (ranked p) as [| a [| b [| c rest]]]; cbn in H; try reflexivity; lia.
Qed.

Lemma entry_out_of_range kx :
  (Z.of_nat (length (_labelList self)) <= fst kx)%Z -> entry self kx = None.
Proof.
  intros H. unfold entry, lookup_name.
  destruct (nth_error (_labelList self) (Z.to_nat (fst kx))) eqn:E; [| reflexivity].
  assert (Z.to_nat (fst kx) < length (_labelList self)) by (apply nth_error_Some; congruence).
  lia.
Qed.

Lemma rank3_out_of_range p kx :
  In kx (firstn 3 (ranked p)) ->
  (Z.of_nat (length (_labelList self)) <= fst kx)%Z ->
  rank3 self p = None.
Proof.
  intros Hin Hk. apply entry_out_of_range in Hk. unfold rank3.
  destruct (ranked p) as [| a [| b [| c rest]]]; try reflexivity.
  cbn in Hin. destruct Hin as [<- | [<- | [<- | []]]].
  - rewrite Hk. reflexivity.
  - rewrite Hk. destruct (entry self a); reflexivity.
  - rewrite Hk. destruct (entry self a); [| reflexivity].
    destruct (entry self b); reflexivity.
Qed.
Lemma rank3_defined p :
  3 <= length p ->
  (forall kx, In kx (firstn 3 (ranked p)) -> lookup_name self (fst kx) <> None) ->
  exists x y z, rank3 self p = Some [x; y; z].
Proof.
  intros Hlen Hlab. rewrite <- ranked_length in Hlen. unfold rank3, entry.
  destruct (ranked p) as [| a [| b [| c rest]]]; cbn in Hlen; try lia.
  destruct (lookup_name self (fst a)) eqn:Ea;
    [| exfalso; apply (Hlab a); [left; reflexivity | exact Ea]].
  destruct (lookup_name self (fst b)) eqn:Eb;
    [| exfalso; apply (Hlab b); [right; left; reflexivity | exact Eb]].
  destruct (lookup_name self (fst c)) eqn:Ec;
    [| exfalso; apply (Hlab c); [right; right; left; reflexivity | exact Ec]].
  eexists _, _, _. reflexivity.
Qed.
End Rank3Facts.

(** ** Splitting a label line *)

Lemma split_space_1_no_space s : has_space s = false -> split_space_1 s = [s].
Proof.
  induction s as [| c s IH]; cbn; [reflexivity |].
  destruct (Ascii.eqb c " "); cbn; [discriminate |].
  intros H. rewrite (IH H). reflexivity.
Qed.

Lemma split_space_1_at_space tok rest :
  has_space tok = false ->
  split_space_1 (tok ++ String " " rest) = [tok; rest].
Proof.
  induction tok as [| c tok IH]; cbn; [reflexivity |].
  destruct (Ascii.eqb c " "); cbn; [discriminate |].
  intros H. rewrite (IH H). reflexivity.
Qed.

(** ** Concurrent callers *)

Section CallersFacts.
Context {D : Dtype} {NP : NumPy D} {CV : OpenCV}.
Variable self : MLModel.

Lemma update_nth_map {A B} (f : A -> B) (x : A) l : forall n y,
  nth_error l n = Some y -> f x = f y -> map f (update_nth n x l) = map f l.
Proof.
  induction l as [| z l IH]; intros [| n] y Hn Hf; cbn in *; try discriminate.
  - injection Hn as ->. rewrite Hf. reflexivity.
  - rewrite (IH n y Hn Hf). reflexivity.
Qed.

Lemma update_nth_Forall {A} (P : A -> Prop) (x : A) l : forall n,
  Forall P l -> P x -> Forall P (update_nth n x l).
Proof.
  induction l as [| z l IH]; intros [| n] Hl Hx; cbn; try exact Hl.
  - constructor; [exact Hx | apply (Forall_inv_tail Hl)].
  - constructor; [apply (Forall_inv Hl) | apply IH; [apply (Forall_inv_tail Hl) | exact Hx]].
Qed.

Lemma active_cons c cs : active (c :: cs) = b2n (inside (at_stage c)) + active cs.
Proof. unfold active. cbn. destruct (inside (at_stage c)); reflexivity. Qed.

Lemma active_update cs : forall n c c',
  nth_error cs n = Some c ->
  active (update_nth n c' cs) + b2n (inside (at_stage c))
  = active cs + b2n (inside (at_stage c')).
Proof.
  induction cs as [| d cs IH]; intros [| n] c c' Hn; cbn [nth_error] in Hn; try discriminate.
  - injection Hn as ->. cbn [update_nth]. rewrite !active_cons. lia.
  - cbn [update_nth]. rewrite !active_cons. specialize (IH n c c' Hn). lia.
Qed.

Lemma total_cons c cs : total (c :: cs) = remaining (at_stage c) + total cs.
Proof. reflexivity. Qed.

Lemma total_update cs : forall n c c',
  nth_error cs n = Some c ->
  total (update_nth n c' cs) + remaining (at_stage c)
  = total cs + remaining (at_stage c').
Proof.
  induction cs as [| d cs IH]; intros [| n] c c' Hn; cbn [nth_error] in Hn; try discriminate.
  - injection Hn as ->. cbn [update_nth]. rewrite !total_cons. lia.
  - cbn [update_nth]. rewrite !total_cons. specialize (IH n c c' Hn). lia.
Qed.

(** A step keeps the image, and what the caller holds still agrees with the
    sequential [Score]. *)
Lemma advance_consistent locked c locked' c' :
  advance self locked c = Some (locked', c') ->
  consistent self c ->
  cvImage c' = cvImage c /\ consistent self c'.
Proof.
  destruct c as [img st l]. unfold advance, consistent. cbn [cvImage at_stage own_log].
  destruct st as [| | blob | o | [probabilities | e] | r].
  - destruct locked; [discriminate |]. intros H. injection H as <- <-. auto.
  - destruct (Preprocess img) as [[blob | e] l'] eqn:P; intros H; injection H as <- <-;
      cbn [cvImage at_stage own_log]; intros ->; (split; [reflexivity |]);
      first [exact P | unfold Score_locked; rewrite P; reflexivity].
  - destruct (_onnxSession self blob) as [o l'] eqn:R. intros H. injection H as <- <-.
    cbn [cvImage at_stage own_log]. intros P. split; [reflexivity |].
    unfold Score_locked. rewrite P. cbn [bind]. rewrite R. reflexivity.
  - intros H. injection H as <- <-. auto.
  - destruct (Postprocess self probabilities) as [[r | e] l'] eqn:Q;
      intros H; injection H as <- <-; cbn [cvImage at_stage own_log]; intros L;
      (split; [reflexivity |]); unfold Score, with_lock; rewrite L; cbn [bind];
      rewrite Q; reflexivity.
  - intros H. injection H as <- <-. cbn [cvImage at_stage own_log]. intros L.
    split; [reflexivity |]. unfold Score, with_lock. rewrite L. reflexivity.
  - discriminate.
Qed.

(** A step takes the lock exactly when the caller goes inside and frees it
    exactly when the caller leaves. *)
Lemma advance_lock locked c locked' c' :
  advance self locked c = Some (locked', c') ->
  b2n locked' + b2n (inside (at_stage c)) = b2n locked + b2n (inside (at_stage c')) \/
  (inside (at_stage c) = true /\ inside (at_stage c') = false /\ locked' = false).
Proof.
  destruct c as [img st l]. unfold advance. cbn [cvImage at_stage own_log].
  destruct st as [| | blob | o | [probabilities | e] | r].
  - destruct locked; [discriminate |]. intros H. injection H as <- <-. left. reflexivity.
  - destruct (Preprocess img) as [[blob | e] l']; intros H; injection H as <- <-;
      left; reflexivity.
  - destruct (_onnxSession self blob) as [o l']. intros H. injection H as <- <-.
    left. reflexivity.
  - intros H. injection H as <- <-. right. auto.
  - destruct (Postprocess self probabilities) as [[r | e] l'];
      intros H; injection H as <- <-; left; reflexivity.
  - intros H. injection H as <- <-. left. reflexivity.
  - discriminate.
Qed.

Lemma advance_remaining locked c locked' c' :
  advance self locked c = Some (locked', c') ->
  remaining (at_stage c') < remaining (at_stage c).
Proof.
  destruct c as [img st l]. unfold advance. cbn [cvImage at_stage own_log].
  destruct st as [| | blob | o | [probabilities | e] | r].
  - destruct locked; [discriminate |]. intros H. injection H as <- <-. cbn. lia.
  - destruct (Preprocess img) as [[blob | e] l']; intros H; injection H as <- <-; cbn; lia.
  - destruct (_onnxSession self blob) as [o l']. intros H. injection H as <- <-. cbn. lia.
  - intros H. injection H as <- <-. cbn. lia.
  - destruct (Postprocess self probabilities) as [[r | e] l'];
      intros H; injection H as <- <-; cbn; lia.
  - intros H. injection H as <- <-. cbn. lia.
  - discriminate.
Qed.

Lemma step_at_invariant images n w w' :
  step_at self n w = Some w' ->
  invariant self images w ->
  invariant self images w' /\ total (callers w') < total (callers w).
Proof.
  unfold step_at. destruct (nth_error (callers w) n) as [c |] eqn:N; [| discriminate].
  destruct (advance self (lock w) c) as [[locked' c'] |] eqn:A; [| discriminate].
  intros H. injection H as <-. intros (Hact & Himg & Hcons).
  unfold invariant. cbn [lock callers].
  assert (Hc : consistent self c).
  { rewrite Forall_forall in Hcons. eapply Hcons, nth_error_In, N. }
  destruct (advance_consistent _ _ A Hc) as [Ei Hc'].
  pose proof (active_update (callers w) n c' N) as U.
  pose proof (total_update (callers w) n c' N) as T.
  pose proof (advance_remaining _ _ A) as R.
  split; [split; [| split] |].
  - destruct (advance_lock _ _ A) as [E | (E1 & E2 & ->)].
    + destruct (lock w), locked', (inside (at_stage c)), (inside (at_stage c'));
        cbn [b2n] in *; lia.
    + rewrite E1, E2 in U. destruct (lock w); cbn [b2n] in *; lia.
  - rewrite <- Himg. apply (update_nth_map cvImage c' (callers w) n N Ei).
  - apply update_nth_Forall; assumption.
  - lia.
Qed.

Lemma initial_invariant images : invariant self images (initial images).
Proof.
  unfold invariant, initial. cbn [lock callers]. split; [| split].
  - induction images as [| img images IH]; [reflexivity |].
    cbn [map]. rewrite active_cons, IH. reflexivity.
  - rewrite map_map. cbn. apply map_id.
  - apply Forall_forall. intros c Hc. apply in_map_iff in Hc as (img & <- & _). reflexivity.
Qed.

Lemma run_invariant images schedule : forall w w',
  run self schedule w = Some w' ->
  invariant self images w -> invariant self images w'.
Proof.
  induction schedule as [| n rest IH]; intros w w' H Hinv; cbn in H.
  - injection H as <-. exact Hinv.
  - destruct (step_at self n w) as [w1 |] eqn:S; [| discriminate].
    apply (IH w1 w' H). apply (@step_at_invariant images n w w1 S Hinv).
Qed.

Lemma enabled_from_some cs : forall i locked n,
  enabled_from self i locked cs = Some n ->
  exists c r, i <= n /\ nth_error cs (n - i) = Some c /\ advance self locked c = Some r.
Proof.
  induction cs as [| c cs IH]; intros i locked n H; cbn in H; [discriminate |].
  destruct (advance self locked c) as [r |] eqn:A.
  - injection H as <-. exists c, r. rewrite Nat.sub_diag. auto.
  - apply IH in H as (c' & r & Hi & Hn & Ha). exists c', r.
    replace (n - i) with (S (n - S i)) by lia. cbn. split; [lia | auto].
Qed.

(** When nobody can move, everybody has returned or waits for a lock that
    nobody inside holds. *)
Lemma enabled_from_none cs : forall i locked,
  enabled_from self i locked cs = None ->
  active cs = 0 /\ (locked = false -> total cs = 0).
Proof.
  induction cs as [| c cs IH]; intros i locked H; cbn in H; [split; reflexivity |].
  destruct (advance self locked c) as [r |] eqn:A; [discriminate |].
  apply IH in H as [Hact Htot]. rewrite active_cons, Hact.
  destruct c as [img st l]. unfold advance in A. cbn [cvImage at_stage own_log] in *.
  destruct st as [| | blob | o | [probabilities | e] | r].
  - destruct locked; [| discriminate]. split; [reflexivity | discriminate].
  - destruct (Preprocess img) as [[blob | e] l']; discriminate.
  - destruct (_onnxSession self blob) as [o l']; discriminate.
  - discriminate.
  - destruct (Postprocess self probabilities) as [[r | e] l']; discriminate.
  - discriminate.
  - split; [reflexivity |]. intros E. rewrite total_cons, (Htot E). reflexivity.
Qed.

(** No deadlock: while a caller has not returned, some caller can move. *)
Lemma progress images w :
  invariant self images w -> 0 < total (callers w) ->
  exists n w', step_at self n w = Some w'.
Proof.
  intros (Hact & _ & _) Hpos.
  destruct (enabled_from self 0 (lock w) (callers w)) as [n |] eqn:E.
  - apply enabled_from_some in E as (c & [locked' c'] & _ & Hn & Ha).
    rewrite Nat.sub_0_r in Hn.
    exists n, (mk_world locked' (update_nth n c' (callers w))).
    unfold step_at. rewrite Hn, Ha. reflexivity.
  - apply enabled_from_none in E as [E0 Et]. rewrite E0 in Hact.
    destruct (lock w); [discriminate |]. rewrite (Et eq_refl) in Hpos. lia.
Qed.

Lemma total_zero_finished cs : total cs = 0 -> Forall finished cs.
Proof.
  induction cs as [| c cs IH]; intros H; constructor.
  - rewrite total_cons in H. destruct (at_stage c) eqn:S; cbn in H; try lia.
    exists r. exact S.
  - apply IH. rewrite total_cons in H. lia.
Qed.

End CallersFacts.

(** ** Images *)

Lemma plain_image_wf h w v : wf (plain_image h w v).
Proof. unfold wf, plain_image. cbn. rewrite repeat_length. lia. Qed.

Lemma plain_image_uint8 h w v : uint8 v -> Forall uint8 (data (plain_image h w v)).
Proof.
  intros H. apply Forall_forall. intros x Hx. apply repeat_spec in Hx. subst x. exact H.
Qed.

(** What [cv2.cvtColor] raises, [Preprocess] logs. *)
Lemma Preprocess_raises {D : Dtype} {CV : OpenCV} img e l :
  cvtColor_BGR2RGB img = (Raises e, l) -> Preprocess img = (Returns None, l ++ [e]).
Proof. intros H. unfold Preprocess. rewrite H. reflexivity. Qed.

Lemma strict_cvtColor_colour img h w c :
  shape img = [h; w; c] -> 0 < h -> 0 < w -> c = 3 \/ c = 4 ->
  strict_cvtColor img
  = ret (mk_ndarray [h; w; 3] (flat_map bgr2rgb (chunks c (data img) (h * w)))).
Proof.
  intros Hs Hh Hw Hc. unfold strict_cvtColor. rewrite Hs.
  apply Nat.ltb_lt in Hh, Hw. rewrite Hh, Hw.
  destruct Hc as [-> | ->]; reflexivity.
Qed.

(** OpenCV with the routine that refuses every other array. *)
Definition strict_OpenCV : OpenCV := {|
  cvtColor_BGR2RGB := strict_cvtColor;
  cvtColor_BGR2RGB_colour := strict_cvtColor_colour
|}.

Set Warnings "-inexact-float".
(** ** What is logged *)

Lemma silent_ret {A} (a : A) : silent (ret a).
Proof. reflexivity. Qed.

Lemma silent_raise {A} e : silent (raise (A:=A) e).
Proof. reflexivity. Qed.

Lemma silent_bind {A B} (m : py A) (k : A -> py B) :
  silent m -> (forall a, silent (k a)) -> silent (bind m k).
Proof.
  unfold silent. destruct m as [[a | e] l]; cbn; intros -> H; [| reflexivity].
  specialize (H a). destruct (k a) as [r l']. cbn in *. exact H.
Qed.

Lemma silent_asarray {A} (l : list (ndarray A)) : silent (np_asarray l).
Proof.
  unfold np_asarray. destruct l as [| a rest]; [reflexivity |].
  destruct (forallb _ rest); reflexivity.
Qed.

Lemma silent_along_last_axis {A B} (f : list A -> list B) a : silent (along_last_axis f a).
Proof. unfold along_last_axis. destruct (shape a); reflexivity. Qed.

Lemma silent_flip {A} (a : ndarray A) : silent (flip a).
Proof. unfold flip. destruct (shape a); reflexivity. Qed.

Lemma silent_item {A} (a : ndarray A) i : silent (item a i).
Proof. unfold item. destruct (shape a); [reflexivity |]. destruct (i <? _); reflexivity. Qed.

Lemma silent_operator_index a : silent (operator_index a).
Proof.
  unfold operator_index. destruct (shape a); [| reflexivity].
  destruct (data a) as [| i [| ? ?]]; reflexivity.
Qed.

Lemma silent_getitem {A} (l : list A) i : silent (getitem l i).
Proof.
  unfold getitem. destruct (_ && _)%bool; [| reflexivity].
  destruct (nth_error l _); reflexivity.
Qed.

Lemma silent_for_range_from {A} (body : nat -> py A) n : forall i,
  (forall k, silent (body k)) -> silent (for_range_from i n body).
Proof.
  induction n as [| n IH]; intros i H; cbn [for_range_from]; [apply silent_ret |].
  apply silent_bind; [apply H |]. intros x.
  apply silent_bind; [apply IH, H |]. intros xs. apply silent_ret.
Qed.

(** A guarded method whose body is silent logs the exception it caught and
    nothing else. *)
Lemma guarded_silent {A} (body : py (option A)) r l :
  silent body -> guarded body = (Returns r, l) ->
  (body = (Returns r, []) /\ l = []) \/ (exists e, body = (Raises e, []) /\ r = None /\ l = [e]).
Proof.
  unfold silent. destruct body as [[v | e] l0]; cbn; intros -> H.
  - injection H as <- <-. left. auto.
  - injection H as <- <-. right. exists e. auto.
Qed.

Section Logs.
Context {D : Dtype} {NP : NumPy D}.
Variable self : MLModel.

Lemma silent_detect sp si i : silent (detect self sp si i).
Proof.
  unfold detect.
  apply silent_bind; [apply silent_item |]. intros p.
  apply silent_bind; [apply silent_item |]. intros k.
  apply silent_bind; [apply silent_operator_index |]. intros j.
  apply silent_bind; [apply silent_getitem |]. intros obj.
  apply silent_bind; [apply silent_getitem |]. intros name. apply silent_ret.
Qed.

(** [Postprocess] returns a list and logs nothing, or returns [None] and
    logs the one exception that stopped it. *)
Lemma Postprocess_log probabilities r l :
  Postprocess self probabilities = (Returns r, l) ->
  (exists v, r = Some v /\ l = []) \/ (r = None /\ exists e, l = [e]).
Proof.
  intros H.
  change (Postprocess self probabilities) with
    (guarded (
       sorted_prob <- sorted_prob_of probabilities ;;
       sorted_indices <- sorted_indices_of probabilities ;;
       detectedObjects <- for_range 3 (detect self sorted_prob sorted_indices) ;;
       return_ detectedObjects)) in H.
  apply guarded_silent in H as [[B ->] | (e & B & -> & ->)].
  - left. apply bind_returns in B as (sp & ? & ? & _ & B & _).
    apply bind_returns in B as (si & ? & ? & _ & B & _).
    apply bind_returns in B as (d & ? & ? & _ & B & _).
    injection B as <- _. exists d. auto.
  - right. split; [reflexivity |]. exists e. reflexivity.
  - apply silent_bind.
    { unfold sorted_prob_of, np_sort.
      apply silent_bind; [| intros; apply silent_flip].
      apply silent_bind; [apply silent_asarray | intros; apply silent_along_last_axis]. }
    intros sp. apply silent_bind.
    { unfold sorted_indices_of, np_argsort.
      apply silent_bind; [| intros; apply silent_flip].
      apply silent_bind; [apply silent_asarray | intros; apply silent_along_last_axis]. }
    intros si. apply silent_bind.
    { apply silent_for_range_from. intros k. apply silent_detect. }
    intros d. apply silent_ret.
Qed.
End Logs.

Section ScoreStages.
Context {D : Dtype} {NP : NumPy D} {CV : OpenCV}.
Variable self : MLModel.

(** [Score] goes on with whatever [Preprocess] returned. *)
Lemma Score_from_Preprocess cvImage blob l1 :
  Preprocess cvImage = (Returns blob, l1) ->
  Score self cvImage = (let (r, l) := Score_from self blob in (r, l1 ++ l)).
Proof.
  intros P. unfold Score, Score_from, with_lock, Score_locked, guarded, try_except.
  rewrite P. cbn [bind].
  destruct (_onnxSession self blob) as [[probabilities | e] l2]; cbn [bind].
  - destruct (Postprocess self probabilities) as [[r | e] l3]; cbn.
    + rewrite app_assoc. reflexivity.
    + rewrite !app_assoc. reflexivity.
  - cbn. rewrite app_assoc. reflexivity.
Qed.

(** [Preprocess] returns [None] only with the exception it caught at the
    end of its log. *)
Lemma Preprocess_none cvImage l :
  Preprocess cvImage = (Returns None, l) -> exists e l0, l = l0 ++ [e].
Proof.
  unfold Preprocess, guarded, try_except.
  destruct (cvtColor_BGR2RGB cvImage) as [[rgb | e] l0]; cbn [bind].
  - unfold np_transpose_201. cbn [np_map shape].
    destruct (shape rgb) as [| h [| w [| c [| ? ?]]]]; cbn; intros H;
      try (injection H as <-; exists ValueError, l0; rewrite app_nil_r; reflexivity).
    discriminate.
  - cbn. intros H. injection H as <-. exists e, l0. reflexivity.
Qed.
End ScoreStages.

(** ** Ranks of tied scores *)

Lemma rank_of_nth k l : forall r, rank_of k l = Some r -> nth_error l r = Some k.
Proof.
  induction l as [| x l IH]; intros r H; cbn in H; [discriminate |].
  destruct (Z.eqb_spec x k) as [-> | _].
  - injection H as <-. reflexivity.
  - destruct (rank_of k l) as [r' |]; [| discriminate].
    injection H as <-. cbn. apply IH. reflexivity.
Qed.

Lemma rank_of_In k l : In k l -> exists r, rank_of k l = Some r.
Proof.
  induction l as [| x l IH]; intros H; [destruct H |]. cbn.
  destruct (Z.eqb_spec x k) as [-> | Hx]; [eexists; reflexivity |].
  destruct H as [H | H]; [contradiction |].
  destruct (IH H) as (r & ->). eexists. reflexivity.
Qed.

Lemma nth_error_rev {A} (l : list A) i x :
  nth_error l i = Some x -> nth_error (rev l) (length l - S i) = Some x.
Proof.
  intros H.
  assert (Hi : i < length l) by (apply nth_error_Some; congruence).
  rewrite (nth_error_nth' _ x) by (rewrite length_rev; lia).
  rewrite rev_nth by lia. f_equal.
  replace (length l - S (length l - S i)) with i by lia.
  apply nth_error_nth, H.
Qed.

Section Ties.
Context {D : Dtype} {O : SortOrder D}.

(** The insertion sort ranks the later of two scores first, unless it is
    the smaller one. *)
Lemma stable_ranked_ties (q : list scalar) i j x y :
  i < j -> nth_error q i = Some x -> nth_error q j = Some y -> lt y x = false ->
  precedes (Z.of_nat j, y) (Z.of_nat i, x) (stable_ranked q).
Proof.
  intros Hij Hi Hj Hyx.
  destruct (@nth_error_precedes _ (enumerate q) i j _ _ Hij
              (@nth_error_enumerate _ q i x Hi) (@nth_error_enumerate _ q j y Hj))
    as (l1 & l2 & l3 & E).
  unfold stable_ranked. rewrite E. apply sift_all_stable. exact Hyx.
Qed.

Lemma stable_higher_index_first (p : list scalar) i j x :
  i < j -> nth_error p i = Some x -> nth_error p j = Some x ->
  precedes (Z.of_nat j) (Z.of_nat i) (map fst (ranked (NP:=stable_NumPy) p)).
Proof.
  intros Hij Hi Hj. rewrite ranked_stable.
  apply (@precedes_map _ _ fst (Z.of_nat j, x) (Z.of_nat i, x)).
  apply stable_ranked_ties; [exact Hij | exact Hi | exact Hj | apply lt_irrefl].
Qed.

Lemma backward_lower_index_first (p : list scalar) i j x :
  i < j -> nth_error p i = Some x -> nth_error p j = Some x ->
  precedes (Z.of_nat i) (Z.of_nat j) (map fst (ranked (NP:=backward_NumPy) p)).
Proof.
  intros Hij Hi Hj.
  assert (Hlen : j < length p) by (apply nth_error_Some; congruence).
  rewrite ranked_indices. cbn [argsort_lane backward_NumPy]. unfold backward_argsort_lane.
  rewrite stable_argsort_lane_ranked, <- map_rev, rev_involutive, map_map.
  pose proof (@stable_ranked_ties (rev p) (length p - S j) (length p - S i) x x
                ltac:(lia) (nth_error_rev p j Hj) (nth_error_rev p i Hi) (lt_irrefl x)) as P.
  apply (precedes_map (fun kx => (Z.of_nat (length p) - 1 - fst kx)%Z)) in P.
  cbn [fst] in P.
  replace (Z.of_nat (length p) - 1 - Z.of_nat (length p - S i))%Z with (Z.of_nat i) in P by lia.
  replace (Z.of_nat (length p) - 1 - Z.of_nat (length p - S j))%Z with (Z.of_nat j) in P by lia.
  exact P.
Qed.
End Ties.

(** ** The best score *)

Section Best.
Context {D : Dtype} {O : SortOrder D} {NP : NumPy D}.

(** No score of the vector exceeds the first of [sorted_prob]. *)
Lemma ranked_best (p : list scalar) xa rest :
  map snd (ranked p) = xa :: rest -> Forall (fun x => geq xa x) p.
Proof.
  intros E. apply Forall_forall. intros y Hy.
  pose proof (@count_In _ (same y) p y Hy (@same_refl D O y)) as Hc.
  rewrite <- (sort_lane_count p y) in Hc.
  apply count_pos in Hc as (z & Hz & Hyz).
  apply same_spec in Hyz as [_ Hzy].
  assert (Hxz : geq xa z).
  { pose proof (@StronglySorted_rev _ ascending _ (sort_lane_sorted p)) as S.
    rewrite <- ranked_scores, E in S.
    apply in_rev in Hz. rewrite <- ranked_scores, E in Hz.
    destruct Hz as [<- | Hz]; [apply (@lt_irrefl D O) |].
    apply StronglySorted_inv in S as [_ F]. rewrite Forall_forall in F. apply F, Hz. }
  apply (@lt_negtrans D O xa z y Hxz Hzy).
Qed.
End Best.
(** * The claims *)

(** C1.  For the probability vector [0.1, 92.0, 0.05, 4.0, 3.0] and the five
    label lines "0 cat" ... "4 mouse", [Postprocess] returns exactly
    ("dog", 0.92), ("fish", 0.04), ("mouse", 0.03) at ranks 0, 1, 2, whatever
    the session is and whichever sort NumPy runs: for the list of Python
    floats, for the same numbers in the layout the session returns, and in
    exact arithmetic. *)
Theorem C1_known_vector :
  (forall (NP : NumPy float64) run,
     let self := mk_model (D:=float64) labels5 run in
     exists r,
       Postprocess self (vec [0.1; 92.0; 0.05; 4.0; 3.0]%float) = (Returns (Some r), []) /\
       Postprocess self (batch1 [0.1; 92.0; 0.05; 4.0; 3.0]%float) = (Returns (Some r), []) /\
       with_rank r = [("dog"%string, np_scalar 0.92%float, 0);
                      ("fish"%string, np_scalar 0.04%float, 1);
                      ("mouse"%string, np_scalar 0.03%float, 2)]) /\
  (forall (NP : NumPy rational) run,
     let self := mk_model (D:=rational) labels5 run in
     exists r,
       Postprocess self (map (@np_scalar Q) [0.1; 92; 0.05; 4; 3]%Q)
       = (Returns (Some r), []) /\
       with_rank r = [("dog"%string, np_scalar 0.92%Q, 0);
                      ("fish"%string, np_scalar 0.04%Q, 1);
                      ("mouse"%string, np_scalar 0.03%Q, 2)]).
Proof.
  split; intros NP run self.
  - exists [detection (D:=float64) "dog" 0.92%float;
            detection (D:=float64) "fish" 0.04%float;
            detection (D:=float64) "mouse" 0.03%float].
    rewrite (@Postprocess_unique float64 float64_order NP stable_NumPy self
               (vec [0.1; 92.0; 0.05; 4.0; 3.0]%float) 0
               [0.1; 92.0; 0.05; 4.0; 3.0]%float eq_refl eq_refl).
    rewrite (@Postprocess_unique float64 float64_order NP stable_NumPy self
               (batch1 [0.1; 92.0; 0.05; 4.0; 3.0]%float) 2
               [0.1; 92.0; 0.05; 4.0; 3.0]%float eq_refl eq_refl).
    repeat split; vm_compute; reflexivity.
  - exists [detection (D:=rational) "dog" 0.92%Q;
            detection (D:=rational) "fish" 0.04%Q;
            detection (D:=rational) "mouse" 0.03%Q].
    rewrite (@Postprocess_unique rational rational_order NP stable_NumPy self
               (map (@np_scalar Q) [0.1; 92; 0.05; 4; 3]%Q) 0
               [0.1; 92; 0.05; 4; 3]%Q eq_refl eq_refl).
    repeat split; vm_compute; reflexivity.
Qed.

(** C2 fails: NumPy's default sort promises no order among equal scores, and
    the insertion sort, which meets all that [np.argsort] promises, ranks the
    later of two equal scores first.  For [5.0, 5.0, 1.0] its indices come
    out as [1, 0, 2], and with the labels "0 cat" ... the result lists "dog"
    before "cat". *)
Lemma C2_counterexample :
  ~ lower_index_wins float64 /\
  sorted_indices_of (D:=float64) (NP:=stable_NumPy) (vec [5; 5; 1]%float)
  = ret (mk_ndarray [3] [1; 0; 2]%Z) /\
  (forall run,
     Postprocess (D:=float64) (NP:=stable_NumPy) (mk_model (D:=float64) labels5 run) (vec [5; 5; 1]%float)
     = (Returns (Some [detection (D:=float64) "dog" 0.05%float;
                       detection (D:=float64) "cat" 0.05%float;
                       detection (D:=float64) "bird" 0.01%float]), [])).
Proof.
  split; [| split].
  - intros H.
    destruct (H stable_NumPy [5; 5; 1]%float 0 1 5%float) as (si & ri & rj & E & Ri & Rj & Hlt);
      [lia | reflexivity | reflexivity |].
    vm_compute in E. injection E as <-.
    vm_compute in Ri, Rj. injection Ri as <-. injection Rj as <-. lia.
  - vm_compute. reflexivity.
  - intros run. vm_compute. reflexivity.
Qed.

(** C2, amended.  The code leaves the order of equal scores to [np.argsort],
    whose default kind is not stable.  Two equal scores at indices [i < j]
    are both ranked, at different ranks, whichever sort runs; which of them
    comes first is not fixed: the insertion sort puts the higher index [j]
    first, the same sort run from the other end of the vector puts the lower
    index [i] first, and both meet all that [np.argsort] promises. *)
Theorem C2_tie_order_left_open (D : Dtype) (O : SortOrder D)
    probabilities k (p : list scalar) i j x :
  np_asarray probabilities = ret (mk_ndarray (vector_shape k (length p)) p) ->
  i < j -> nth_error p i = Some x -> nth_error p j = Some x ->
  (forall NP : NumPy D,
     exists si ri rj,
       sorted_indices_of probabilities = ret si /\
       rank_of (Z.of_nat i) (data si) = Some ri /\
       rank_of (Z.of_nat j) (data si) = Some rj /\
       ri <> rj) /\
  (exists si ri rj,
     sorted_indices_of (NP:=stable_NumPy) probabilities = ret si /\
     rank_of (Z.of_nat i) (data si) = Some ri /\
     rank_of (Z.of_nat j) (data si) = Some rj /\
     rj < ri) /\
  (exists si ri rj,
     sorted_indices_of (NP:=backward_NumPy) probabilities = ret si /\
     rank_of (Z.of_nat i) (data si) = Some ri /\
     rank_of (Z.of_nat j) (data si) = Some rj /\
     ri < rj).
Proof.
  intros Hv Hij Hi Hj.
  assert (Hlen : j < length p) by (apply nth_error_Some; congruence).
  assert (Hone : (length p =? 1) = false) by (apply Nat.eqb_neq; lia).
  split; [| split].
  - intros NP.
    rewrite (@sorted_indices_of_vector D NP probabilities k p Hv), Hone. cbn [data].
    assert (Hin : forall n, n < length p -> In (Z.of_nat n) (map fst (ranked p))).
    { intros n Hn. rewrite ranked_indices. apply in_rev. rewrite rev_involutive.
      apply (Permutation_in _ (Permutation_sym (argsort_lane_perm p))).
      apply in_map, in_seq. lia. }
    destruct (rank_of_In _ _ (Hin i ltac:(lia))) as (ri & Ri).
    destruct (rank_of_In _ _ (Hin j Hlen)) as (rj & Rj).
    exists (mk_ndarray [length p] (map fst (ranked p))), ri, rj.
    repeat split; try assumption.
    intros ->. apply rank_of_nth in Ri, Rj. rewrite Ri in Rj. injection Rj. lia.
  - rewrite (@sorted_indices_of_vector D stable_NumPy probabilities k p Hv), Hone.
    destruct (@precedes_rank _ _ _ (ranked_NoDup (NP:=stable_NumPy) p)
                (@stable_higher_index_first D O p i j x Hij Hi Hj))
      as (rj & ri & Rj & Ri & Hlt).
    exists (mk_ndarray [length p] (map fst (ranked (NP:=stable_NumPy) p))), ri, rj. auto.
  - rewrite (@sorted_indices_of_vector D backward_NumPy probabilities k p Hv), Hone.
    destruct (@precedes_rank _ _ _ (ranked_NoDup (NP:=backward_NumPy) p)
                (@backward_lower_index_first D O p i j x Hij Hi Hj))
      as (ri & rj & Ri & Rj & Hlt).
    exists (mk_ndarray [length p] (map fst (ranked (NP:=backward_NumPy) p))), ri, rj. auto.
Qed.

Lemma C2_tie_order_left_open_witness :
  (forall NP : NumPy float64,
     exists si ri rj,
       sorted_indices_of (D:=float64) (vec tied_scores) = ret si /\
       rank_of 0%Z (data si) = Some ri /\
       rank_of 1%Z (data si) = Some rj /\
       ri <> rj) /\
  (exists si ri rj,
     sorted_indices_of (D:=float64) (NP:=stable_NumPy) (vec tied_scores) = ret si /\
     rank_of 0%Z (data si) = Some ri /\
     rank_of 1%Z (data si) = Some rj /\
     rj < ri) /\
  (exists si ri rj,
     sorted_indices_of (D:=float64) (NP:=backward_NumPy) (vec tied_scores) = ret si /\
     rank_of 0%Z (data si) = Some ri /\
     rank_of 1%Z (data si) = Some rj /\
     ri < rj) /\
  sorted_indices_of (D:=float64) (NP:=stable_NumPy) (vec tied_scores) = ret (mk_ndarray [4] [1; 0; 3; 2]%Z) /\
  sorted_indices_of (D:=float64) (NP:=backward_NumPy) (vec tied_scores) = ret (mk_ndarray [4] [0; 1; 2; 3]%Z).
Proof.
  destruct (@C2_tie_order_left_open float64 float64_order (vec tied_scores) 0 tied_scores
              0 1 5%float eq_refl ltac:(lia) eq_refl eq_refl) as (Hany & Hstable & Hbackward).
  split; [exact Hany | split; [exact Hstable | split; [exact Hbackward |]]].
  split; vm_compute; reflexivity.
Defined.




(** C4.  On every 224 x 224 x 3 image of 8-bit samples [Preprocess] returns,
    without logging, the tensor of shape (1, 3, 224, 224) whose element
    (0, k, i, j) is sample (i, j, 2 - k) of the image, converted to the
    floating type and divided by 255: channels reversed (B,G,R to R,G,B),
    cast, scaled, layout (height, width, channel) turned into (channel,
    height, width), one batch axis in front.  Every element lies in
    [[0, 1]], in binary64 and in exact arithmetic. *)
Theorem C4_preprocess_steps (D : Dtype) (U : UnitRange D) (CV : OpenCV) (img : ndarray Z) :
  shape img = [224; 224; 3] -> wf img -> Forall uint8 (data img) ->
  exists t,
    Preprocess img = (Returns (Some t), []) /\
    shape t = [1; 3; 224; 224] /\
    wf t /\
    (forall i j k, i < 224 -> j < 224 -> k < 3 ->
       exists v, get img [i; j; 2 - k] = Some v /\
                 get t [0; k; i; j] = Some (truediv (of_int v) (of_int 255))) /\
    Forall in_unit_interval (data t).
Proof.
  intros Hshape Hwf H8.
  destruct (@Preprocess_image D CV img 224 224 Hshape Hwf) as (t & P & S & W & G & I);
    [lia | lia |].
  exists t. repeat split; try assumption.
  apply Forall_forall. intros y Hy. apply I in Hy as (v & Hv & ->).
  apply unit_range. rewrite Forall_forall in H8. apply H8, Hv.
Qed.

Lemma C4_preprocess_steps_witness :
  exists t,
    Preprocess (D:=float64) (CV:=strict_OpenCV) (plain_image 224 224 7)
    = (Returns (Some t), []) /\
    shape t = [1; 3; 224; 224] /\
    wf t /\
    (forall i j k, i < 224 -> j < 224 -> k < 3 ->
       exists v, get (plain_image 224 224 7) [i; j; 2 - k] = Some v /\
                 get t [0; k; i; j]
                 = Some (PrimFloat.div (float_of_int v) (float_of_int 255))) /\
    Forall (in_unit_interval (D:=float64)) (data t).
Proof.
  apply (@C4_preprocess_steps float64 float64_unit_range strict_OpenCV
           (plain_image 224 224 7)).
  - reflexivity.
  - apply plain_image_wf.
  - apply plain_image_uint8. unfold uint8. lia.
Defined.

(** C5 fails: the tab-separated line has two whitespace-delimited tokens, but
    [split(' ', 1)] does not split it, so [[1]] raises IndexError and
    [Postprocess] returns nothing when it selects that line. *)
Lemma C5_counterexample :
  ~ two_tokens_suffice /\
  tokens tab_line = ["1"; "dog"]%string /\
  getitem (split_space_1 tab_line) 1 = raise IndexError /\
  (forall (NP : NumPy float64) run,
     Postprocess (mk_model (D:=float64) ["0 cat"%string; tab_line; "2 bird"%string] run)
                 (vec [0.1; 92.0; 0.05]%float)
     = (Returns None, [IndexError])).
Proof.
  split; [| split; [| split]].
  - intros H. destruct (H tab_line) as (name & E).
    + vm_compute. lia.
    + vm_compute in E. discriminate.
  - vm_compute. reflexivity.
  - vm_compute. reflexivity.
  - intros NP run.
    rewrite (@Postprocess_unique float64 float64_order NP stable_NumPy _
               (vec [0.1; 92.0; 0.05]%float) 0 [0.1; 92.0; 0.05]%float eq_refl eq_refl).
    vm_compute. reflexivity.
Qed.

(** C5, amended.  The lookup splits at the first space character and at
    nothing else: for a first token [tok] without a space, the line
    [tok ++ " " ++ rest] resolves to [rest], all of it, however many tokens
    [rest] holds; the line [tok] alone, with no space, has no name and the
    lookup raises IndexError. *)
Theorem C5_split_at_first_space (tok rest : string) :
  has_space tok = false ->
  getitem (split_space_1 (tok ++ String " " rest)) 1 = ret rest /\
  getitem (split_space_1 tok) 1 = raise IndexError.
Proof.
  intros H. split.
  - rewrite (split_space_1_at_space tok rest H). reflexivity.
  - rewrite (split_space_1_no_space tok H). reflexivity.
Qed.

Lemma C5_split_at_first_space_witness :
  getitem (split_space_1 "9 n02119789 fox") 1 = ret "n02119789 fox"%string /\
  getitem (split_space_1 "9") 1 = raise IndexError.
Proof.
  apply (@C5_split_at_first_space "9" "n02119789 fox"). reflexivity.
Defined.

(** C6 fails: when the session raises, [Score] logs the exception and
    returns [None], whichever sort and colour conversion run. *)
Lemma C6_counterexample :
  ~ failure_reaches_caller float64 /\
  (forall (NP : NumPy float64) (CV : OpenCV),
     stage_fails broken_session (plain_image 1 1 0) /\
     Score broken_session (plain_image 1 1 0) = (Returns None, [SessionError 1])).
Proof.
  assert (S : forall (NP : NumPy float64) (CV : OpenCV),
              stage_fails broken_session (plain_image 1 1 0) /\
              Score broken_session (plain_image 1 1 0) = (Returns None, [SessionError 1])).
  { intros NP CV.
    destruct (@Preprocess_image float64 CV (plain_image 1 1 0) 1 1 eq_refl
                (plain_image_wf 1 1 0)) as (t & P & _); [lia | lia |].
    split.
    - right. left. exists (Some t), [], (SessionError 1), []. split; [exact P | reflexivity].
    - apply (@Score_inference_raises float64 NP CV broken_session (plain_image 1 1 0)
               (Some t) [] (SessionError 1) [] P). reflexivity. }
  split; [| exact S].
  intros H. destruct (S stable_NumPy strict_OpenCV) as [F E].
  destruct (H stable_NumPy strict_OpenCV broken_session (plain_image 1 1 0) F) as (e & l & E').
  rewrite E in E'. discriminate.
Qed.

(** C6, amended.  No failure is handed to the caller.  When the session
    raises, [Score] writes that exception to the log, as the last entry, and
    returns [None].  When [Postprocess] fails, it has written its one
    exception to the log and returned [None], and [Score] returns that
    [None].  When [Preprocess] fails, it has written its exception to the
    log and returned [None]; [Score] does not stop there: it hands [None] to
    the session and goes on as after any other [Preprocess], so that the call
    ends as the session and [Postprocess] make it end.  No exception leaves
    [Score] on any input. *)
Theorem C6_failure_logged_none_returned (D : Dtype) (NP : NumPy D) (CV : OpenCV)
    (self : MLModel) (cvImage : ndarray Z) :
  (forall blob l1 e l2,
     Preprocess cvImage = (Returns blob, l1) ->
     _onnxSession self blob = (Raises e, l2) ->
     Score self cvImage = (Returns None, (l1 ++ l2) ++ [e])) /\
  (forall blob l1 probabilities l2 l3,
     Preprocess cvImage = (Returns blob, l1) ->
     _onnxSession self blob = (Returns probabilities, l2) ->
     Postprocess self probabilities = (Returns None, l3) ->
     (exists e, l3 = [e]) /\
     Score self cvImage = (Returns None, (l1 ++ l2) ++ l3)) /\
  (forall l1,
     Preprocess cvImage = (Returns None, l1) ->
     (exists e l0, l1 = l0 ++ [e]) /\
     Score self cvImage = (let (r, l) := Score_from self None in (r, l1 ++ l))) /\
  (forall other, exists r l, Score self other = (Returns r, l)).
Proof.
  split; [| split; [| split]].
  - intros blob l1 e l2 P R.
    apply (@Score_inference_raises D NP CV self cvImage blob l1 e l2 P R).
  - intros blob l1 probabilities l2 l3 P R Q. split.
    + destruct (@Postprocess_log D NP self probabilities None l3 Q) as [[v [E _]] | [_ H]];
        [discriminate | exact H].
    + apply (@Score_inference_returns D NP CV self cvImage blob l1 probabilities l2 None l3
               P R Q).
  - intros l1 P. split.
    + apply (@Preprocess_none D CV cvImage l1 P).
    + apply (@Score_from_Preprocess D NP CV self cvImage None l1 P).
  - intros other. apply Score_returns.
Qed.

(** The three failures at work: a session that raises; a label table too
    short for the scores; an image of two channels, refused by the colour
    conversion, after which a graph that reads its input raises and a graph
    that does not read it yields three results. *)
Lemma C6_failure_logged_none_returned_witness :
  Score (NP:=stable_NumPy) (CV:=strict_OpenCV) broken_session (plain_image 1 1 0)
  = (Returns None, [SessionError 1]) /\
  Score (NP:=stable_NumPy) (CV:=strict_OpenCV)
        (mk_model (D:=float64) ["0 cat"]%string (fun _ => ret (batch1 loud_scores)))
        (plain_image 1 1 0)
  = (Returns None, [IndexError]) /\
  Preprocess (D:=float64) (CV:=strict_OpenCV) two_channel_image = (Returns None, [CvError]) /\
  Score (NP:=stable_NumPy) (CV:=strict_OpenCV) reading_session two_channel_image
  = (Returns None, [CvError; RuntimeError]) /\
  Score (NP:=stable_NumPy) (CV:=strict_OpenCV) loud_session two_channel_image
  = (Returns (Some [detection (D:=float64) "cat" 2.5%float;
                    detection (D:=float64) "mouse" 0.03%float;
                    detection (D:=float64) "bird" 0.02%float]), [CvError]) /\
  (forall other, exists r l,
     Score (NP:=stable_NumPy) (CV:=strict_OpenCV) broken_session other = (Returns r, l)).
Proof.
  destruct (@Preprocess_image float64 strict_OpenCV (plain_image 1 1 0) 1 1 eq_refl
              (plain_image_wf 1 1 0)) as (t & P & _); [lia | lia |].
  destruct (@C6_failure_logged_none_returned float64 stable_NumPy strict_OpenCV
              broken_session (plain_image 1 1 0)) as (Hraise & _ & _ & Hnever).
  destruct (@C6_failure_logged_none_returned float64 stable_NumPy strict_OpenCV
              (mk_model (D:=float64) ["0 cat"]%string (fun _ => ret (batch1 loud_scores)))
              (plain_image 1 1 0)) as (_ & Hpost & _ & _).
  destruct (@C6_failure_logged_none_returned float64 stable_NumPy strict_OpenCV
              reading_session two_channel_image) as (_ & _ & Hreading & _).
  destruct (@C6_failure_logged_none_returned float64 stable_NumPy strict_OpenCV
              loud_session two_channel_image) as (_ & _ & Hloud & _).
  assert (P2 : Preprocess (D:=float64) (CV:=strict_OpenCV) two_channel_image
               = (Returns None, [CvError])) by (vm_compute; reflexivity).
  split; [| split; [| split; [| split; [| split]]]].
  - apply (Hraise (Some t) [] (SessionError 1) [] P). reflexivity.
  - apply (Hpost (Some t) [] (batch1 loud_scores) [] [IndexError] P eq_refl).
    vm_compute. reflexivity.
  - exact P2.
  - destruct (Hreading [CvError] P2) as [_ ->]. vm_compute. reflexivity.
  - destruct (Hloud [CvError] P2) as [_ ->]. vm_compute. reflexivity.
  - exact Hnever.
Defined.

(** C7 fails: a 100 x 100 image with three channels goes through, and the
    result is a tensor of shape (1, 3, 100, 100), whichever colour
    conversion runs. *)
Lemma C7_counterexample :
  ~ shape_is_checked float64 /\
  (forall CV : OpenCV,
     exists t,
       Preprocess (D:=float64) (plain_image 100 100 0) = (Returns (Some t), []) /\
       shape t = [1; 3; 100; 100]).
Proof.
  assert (S : forall CV : OpenCV,
              exists t,
                Preprocess (D:=float64) (plain_image 100 100 0) = (Returns (Some t), []) /\
                shape t = [1; 3; 100; 100]).
  { intros CV.
    destruct (@Preprocess_image float64 CV (plain_image 100 100 0) 100 100)
      as (t & P & S & _); [reflexivity | apply plain_image_wf | lia | lia |].
    exists t. auto. }
  split; [| exact S].
  intros H. destruct (S strict_OpenCV) as (t & P & _).
  apply (H strict_OpenCV (plain_image 100 100 0) (plain_image_wf _ _ _)) with (t := t) (l := []).
  - cbn. intros E. injection E. lia.
  - exact P.
Qed.

(** C7, amended.  [Preprocess] checks no dimensions.  A non-empty image of
    8-bit samples with three channels, of any height [h] and width [w],
    yields the tensor of shape (1, 3, h, w) and no error; whether that fits
    the model is found out by the session only.  No exception leaves
    [Preprocess] on any input. *)
Theorem C7_no_shape_check (D : Dtype) (CV : OpenCV) (img : ndarray Z) (h w : nat) :
  shape img = [h; w; 3] -> wf img -> Forall uint8 (data img) -> 0 < h -> 0 < w ->
  (exists t, Preprocess img = (Returns (Some t), []) /\ shape t = [1; 3; h; w]) /\
  (forall other, exists r l, Preprocess other = (Returns r, l)).
Proof.
  intros Hshape Hwf _ Hh Hw. split.
  - destruct (@Preprocess_image D CV img h w Hshape Hwf Hh Hw) as (t & P & S & _).
    exists t. auto.
  - intros other. apply Preprocess_returns.
Qed.

Lemma C7_no_shape_check_witness :
  (exists t,
     Preprocess (D:=float64) (CV:=strict_OpenCV) (plain_image 100 100 0)
     = (Returns (Some t), []) /\
     shape t = [1; 3; 100; 100]) /\
  (forall other, exists r l,
     Preprocess (D:=float64) (CV:=strict_OpenCV) other = (Returns r, l)).
Proof.
  apply (@C7_no_shape_check float64 strict_OpenCV (plain_image 100 100 0) 100 100).
  - reflexivity.
  - apply plain_image_wf.
  - apply plain_image_uint8. unfold uint8. lia.
  - lia.
  - lia.
Defined.

(** C8 fails twice.  With two scores, or with a label table too short for a
    selected index, the IndexError is caught inside [Postprocess]: the caller
    gets [None], not an error.  And a label table shorter than the vector is
    not noticed at all while the three selected indices are in range: six
    scores with five labels give a result.  All of it whichever sort runs. *)
Lemma C8_counterexample :
  ~ mismatch_raises float64 /\
  (forall (NP : NumPy float64) run,
     Postprocess (mk_model (D:=float64) labels5 run) (vec [0.5; 0.2]%float)
     = (Returns None, [IndexError])) /\
  (forall (NP : NumPy float64) run,
     Postprocess (mk_model (D:=float64) ["0 cat"; "1 dog"]%string run)
                 (vec [0.1; 92.0; 0.05; 4.0; 3.0]%float)
     = (Returns None, [IndexError])) /\
  (forall (NP : NumPy float64) run,
     Postprocess (mk_model (D:=float64) labels5 run)
                 (vec [0.1; 92.0; 0.05; 4.0; 3.0; 0.01]%float)
     = (Returns (Some [detection (D:=float64) "dog" 0.92%float;
                       detection (D:=float64) "fish" 0.04%float;
                       detection (D:=float64) "mouse" 0.03%float]), [])).
Proof.
  assert (S : forall (NP : NumPy float64) run,
              Postprocess (mk_model (D:=float64) labels5 run) (vec [0.5; 0.2]%float)
              = (Returns None, [IndexError])).
  { intros NP run.
    rewrite (@Postprocess_unique float64 float64_order NP stable_NumPy _
               (vec [0.5; 0.2]%float) 0 [0.5; 0.2]%float eq_refl eq_refl).
    vm_compute. reflexivity. }
  split; [| split; [exact S | split]].
  - intros H.
    destruct (H stable_NumPy (mk_model (D:=float64) labels5 (fun _ => raise RuntimeError))
                [0.5; 0.2]%float) as (e & l & E).
    + left. cbn. lia.
    + vm_compute in E. discriminate.
  - intros NP run.
    rewrite (@Postprocess_unique float64 float64_order NP stable_NumPy _
               (vec [0.1; 92.0; 0.05; 4.0; 3.0]%float) 0
               [0.1; 92.0; 0.05; 4.0; 3.0]%float eq_refl eq_refl).
    vm_compute. reflexivity.
  - intros NP run.
    rewrite (@Postprocess_unique float64 float64_order NP stable_NumPy _
               (vec [0.1; 92.0; 0.05; 4.0; 3.0; 0.01]%float) 0
               [0.1; 92.0; 0.05; 4.0; 3.0; 0.01]%float eq_refl eq_refl).
    vm_compute. reflexivity.
Qed.

(** C8, amended.  The number of results is fixed at three.  When the vector
    has fewer than three scores, or one of the three indices that
    [np.argsort] put first is out of range for the label table,
    [Postprocess] logs one IndexError and returns [None]: it does not raise
    and returns no result.  When the vector has three scores or more and the
    three selected label lines have a name, it returns three results and
    logs nothing, however the length of the label table compares with the
    length of the vector.  The selected indices are never negative, so
    indexing the label table never wraps around. *)
Theorem C8_mismatch_returns_none (D : Dtype) (NP : NumPy D) (self : MLModel)
    probabilities k p :
  np_asarray probabilities = ret (mk_ndarray (vector_shape k (length p)) p) ->
  (length p < 3 \/
   (exists kx, In kx (firstn 3 (ranked p)) /\
               (Z.of_nat (length (_labelList self)) <= fst kx)%Z) ->
   Postprocess self probabilities = (Returns None, [IndexError])) /\
  (3 <= length p ->
   (forall kx, In kx (firstn 3 (ranked p)) -> lookup_name self (fst kx) <> None) ->
   exists x y z, Postprocess self probabilities = (Returns (Some [x; y; z]), [])) /\
  Forall (fun kx => (0 <= fst kx < Z.of_nat (length p))%Z) (ranked p).
Proof.
  intros Hv. rewrite (@Postprocess_vector D NP self probabilities k p Hv).
  split; [| split].
  - intros [Hshort | (kx & Hin & Hk)].
    + rewrite (rank3_short self p Hshort). reflexivity.
    + rewrite (@rank3_out_of_range D NP self p kx Hin Hk). reflexivity.
  - intros Hlen Hlab.
    destruct (@rank3_defined D NP self p Hlen Hlab) as (x & y & z & ->).
    exists x, y, z. reflexivity.
  - apply Forall_forall. intros [j x] Hin. apply ranked_In in Hin. cbn. lia.
Qed.

Lemma C8_mismatch_returns_none_witness :
  (forall NP : NumPy float64,
     Postprocess (mk_model (D:=float64) ["0 cat"; "1 dog"]%string (fun _ => raise RuntimeError))
                 (batch1 [0.1; 92.0; 0.05; 4.0; 3.0]%float)
     = (Returns None, [IndexError])) /\
  (forall NP : NumPy float64,
     exists x y z,
       Postprocess (mk_model (D:=float64) labels5 (fun _ => raise RuntimeError))
                   (batch1 [0.1; 92.0; 0.05; 4.0; 3.0; 0.01]%float)
       = (Returns (Some [x; y; z]), [])) /\
  Forall (fun kx => (0 <= fst kx < 5)%Z)
         (ranked (D:=float64) (NP:=stable_NumPy) [0.1; 92.0; 0.05; 4.0; 3.0]%float).
Proof.
  split; [| split].
  - intros NP.
    destruct (@C8_mismatch_returns_none float64 NP
                (mk_model (D:=float64) ["0 cat"; "1 dog"]%string (fun _ => raise RuntimeError))
                (batch1 [0.1; 92.0; 0.05; 4.0; 3.0]%float) 2
                [0.1; 92.0; 0.05; 4.0; 3.0]%float eq_refl) as (Hnone & _ & _).
    apply Hnone. right. exists (3%Z, 4.0%float). split.
    + rewrite (@ranked_unique float64 float64_order NP stable_NumPy
                 [0.1; 92.0; 0.05; 4.0; 3.0]%float eq_refl).
      vm_compute. right. left. reflexivity.
    + cbn. lia.
  - intros NP.
    destruct (@C8_mismatch_returns_none float64 NP
                (mk_model (D:=float64) labels5 (fun _ => raise RuntimeError))
                (batch1 [0.1; 92.0; 0.05; 4.0; 3.0; 0.01]%float) 2
                [0.1; 92.0; 0.05; 4.0; 3.0; 0.01]%float eq_refl) as (_ & Hsome & _).
    apply Hsome.
    + cbn. lia.
    + intros kx H.
      rewrite (@ranked_unique float64 float64_order NP stable_NumPy
                 [0.1; 92.0; 0.05; 4.0; 3.0; 0.01]%float eq_refl) in H.
      vm_compute in H.
      destruct H as [<- | [<- | [<- | []]]]; vm_compute; discriminate.
  - destruct (@C8_mismatch_returns_none float64 stable_NumPy
                (mk_model (D:=float64) labels5 (fun _ => raise RuntimeError))
                (batch1 [0.1; 92.0; 0.05; 4.0; 3.0]%float) 2
                [0.1; 92.0; 0.05; 4.0; 3.0]%float eq_refl) as (_ & _ & Hrange).
    exact Hrange.
Defined.






(** * More of [score.py]: lemmas *)

(** ** What [Postprocess] returns, whatever it is given *)

Lemma asarray_cases {A} (l : list (ndarray A)) :
  (exists a, np_asarray l = ret a) \/ np_asarray l = raise ValueError.
Proof.
  unfold np_asarray. destruct l as [| a rest]; [left; eexists; reflexivity |].
  destruct (forallb _ rest); [left; eexists; reflexivity | right; reflexivity].
Qed.

Lemma along_last_axis_returns {A B} (f : list A -> list B) a b l :
  along_last_axis f a = (Returns b, l) -> l = [] /\ shape b = shape a.
Proof.
  unfold along_last_axis. destruct (shape a) eqn:E; [discriminate |].
  intros H. injection H as <- <-. split; reflexivity.
Qed.

Lemma flip_returns {A} (a b : ndarray A) l :
  flip a = (Returns b, l) -> l = [] /\ shape b = shape a.
Proof.
  unfold flip. destruct (shape a) eqn:E; [discriminate |].
  intros H. injection H as <- <-. split; reflexivity.
Qed.

Lemma item_returns {A} (a b : ndarray A) i l :
  item a i = (Returns b, l) -> l = [] /\ exists n, shape a = n :: shape b /\ i < n.
Proof.
  unfold item. destruct (shape a) as [| n s] eqn:E; [discriminate |].
  destruct (Nat.ltb_spec i n) as [Hlt | Hge]; [| discriminate].
  intros H. injection H as <- <-. split; [reflexivity |]. exists n. auto.
Qed.

Lemma operator_index_returns k j l :
  operator_index k = (Returns j, l) -> l = [] /\ shape k = [] /\ data k = [j].
Proof.
  unfold operator_index. destruct (shape k); [| discriminate].
  destruct (data k) as [| i [| ? ?]]; try discriminate.
  intros H. injection H as <- <-. auto.
Qed.

Lemma getitem_returns {A} (l : list A) i x lg :
  getitem l i = (Returns x, lg) -> lg = [] /\ In x l.
Proof.
  unfold getitem. destruct (_ && _)%bool; [| discriminate].
  destruct (nth_error l _) eqn:E; [| discriminate].
  intros H. injection H as <- <-. split; [reflexivity |].
  eapply nth_error_In, E.
Qed.

Lemma for_range_from_returns {A} (body : nat -> py A) n : forall i r l,
  for_range_from i n body = (Returns r, l) ->
  length r = n /\
  forall k x, nth_error r k = Some x -> exists lx, body (i + k) = (Returns x, lx).
Proof.
  induction n as [| n IH]; intros i r l H; cbn [for_range_from] in H.
  - injection H as <- _. split; [reflexivity |]. intros [| k] x; discriminate.
  - apply bind_returns in H as (x & l1 & l2 & Hx & H & _).
    apply bind_returns in H as (xs & l3 & l4 & Hxs & H & _).
    injection H as <- _. apply IH in Hxs as [Hlen Hnth].
    split; [cbn; rewrite Hlen; reflexivity |].
    intros [| k] y Hy; cbn in Hy.
    + injection Hy as <-. rewrite Nat.add_0_r. eauto.
    + apply Hnth in Hy. replace (i + S k) with (S i + k) by lia. exact Hy.
Qed.

Lemma for_range_from_logs {A} (body : nat -> py A) n : forall i r l,
  (forall k x lx, body k = (Returns x, lx) -> lx = []) ->
  for_range_from i n body = (Returns r, l) -> l = [].
Proof.
  induction n as [| n IH]; intros i r l Hb H; cbn [for_range_from] in H.
  - injection H as _ <-. reflexivity.
  - apply bind_returns in H as (x & l1 & l2 & Hx & H & ->).
    apply bind_returns in H as (xs & l3 & l4 & Hxs & H & ->).
    injection H as _ <-. apply Hb in Hx. apply (IH _ _ _ Hb) in Hxs. subst. reflexivity.
Qed.

Section PostprocessAnyInput.
Context {D : Dtype} {NP : NumPy D}.
Variable self : MLModel.

Lemma sorted_prob_of_returns probabilities sp l :
  sorted_prob_of probabilities = (Returns sp, l) ->
  l = [] /\
  exists a, np_asarray probabilities = ret a /\
            shape sp = filter (fun d => negb (d =? 1)) (shape a).
Proof.
  unfold sorted_prob_of, np_sort. intros H.
  apply bind_returns in H as (s & l1 & l2 & Hs & Hf & ->).
  apply bind_returns in Hs as (a & l3 & l4 & Ha & Hs & ->).
  destruct (asarray_cases probabilities) as [(a' & E) | E]; rewrite E in Ha; [| discriminate].
  injection Ha as <- <-.
  apply along_last_axis_returns in Hs as [-> Hs].
  apply flip_returns in Hf as [-> Hf].
  split; [reflexivity |]. exists a'. split; [exact E |].
  rewrite Hf. cbn [np_squeeze shape]. rewrite Hs. reflexivity.
Qed.

Lemma sorted_indices_of_returns probabilities si l :
  sorted_indices_of probabilities = (Returns si, l) ->
  l = [] /\
  exists a, np_asarray probabilities = ret a /\
            shape si = filter (fun d => negb (d =? 1)) (shape a).
Proof.
  unfold sorted_indices_of, np_argsort. intros H.
  apply bind_returns in H as (s & l1 & l2 & Hs & Hf & ->).
  apply bind_returns in Hs as (a & l3 & l4 & Ha & Hs & ->).
  destruct (asarray_cases probabilities) as [(a' & E) | E]; rewrite E in Ha; [| discriminate].
  injection Ha as <- <-.
  apply along_last_axis_returns in Hs as [-> Hs].
  apply flip_returns in Hf as [-> Hf].
  split; [reflexivity |]. exists a'. split; [exact E |].
  rewrite Hf. cbn [np_squeeze shape]. rewrite Hs. reflexivity.
Qed.

Lemma detect_returns sp si i e l :
  detect self sp si i = (Returns e, l) ->
  l = [] /\
  type_ e = "classification"%string /\
  (exists n, shape si = [n] /\ i < n) /\
  (exists m, shape sp = m :: shape (confidence (classification_tag e))) /\
  (exists obj, In obj (_labelList self) /\
               getitem (split_space_1 obj) 1 = ret (value (classification_tag e))).
Proof.
  unfold detect. intros H.
  apply bind_returns in H as (p & l1 & l2 & Hp & H & ->).
  apply bind_returns in H as (k & l3 & l4 & Hk & H & ->).
  apply bind_returns in H as (j & l5 & l6 & Hj & H & ->).
  apply bind_returns in H as (obj & l7 & l8 & Ho & H & ->).
  apply bind_returns in H as (name & l9 & l10 & Hn & H & ->).
  injection H as <- <-.
  apply item_returns in Hp as [-> (m & Hm & _)].
  apply item_returns in Hk as [-> (n & Hn' & Hi)].
  apply operator_index_returns in Hj as [-> [Hj _]].
  apply getitem_returns in Ho as [-> Ho].
  pose proof (getitem_returns _ _ Hn) as [-> _].
  rewrite Hj in Hn'.
  split; [reflexivity | split; [reflexivity | split; [| split]]].
  - exists n. auto.
  - exists m. exact Hm.
  - exists obj. split; [exact Ho | exact Hn].
Qed.

Lemma Postprocess_some probabilities r l :
  Postprocess self probabilities = (Returns (Some r), l) ->
  l = [] /\
  length r = 3 /\
  Forall (fun e => type_ e = "classification"%string /\
                   shape (confidence (classification_tag e)) = [] /\
                   exists obj, In obj (_labelList self) /\
                     getitem (split_space_1 obj) 1 = ret (value (classification_tag e))) r /\
  exists a n,
    np_asarray probabilities = ret a /\
    filter (fun d => negb (d =? 1)) (shape a) = [n] /\ 3 <= n.
Proof.
  intros H.
  change (Postprocess self probabilities) with
    (guarded (
       sorted_prob <- sorted_prob_of probabilities ;;
       sorted_indices <- sorted_indices_of probabilities ;;
       detectedObjects <- for_range 3 (detect self sorted_prob sorted_indices) ;;
       return_ detectedObjects)) in H.
  unfold guarded, try_except in H.
  match type of H with (match ?b with _ => _ end) = _ => destruct b as [[v | e] lb] eqn:B end;
    [| discriminate].
  injection H as -> ->.
  apply bind_returns in B as (sp & l1 & l2 & Hsp & B & ->).
  apply bind_returns in B as (si & l3 & l4 & Hsi & B & ->).
  apply bind_returns in B as (d & l5 & l6 & Hd & B & ->).
  injection B as -> <-.
  apply sorted_prob_of_returns in Hsp as [-> (a & Ha & Ssp)].
  apply sorted_indices_of_returns in Hsi as [-> (a' & Ha' & Ssi)].
  rewrite Ha in Ha'. injection Ha' as <-.
  unfold for_range in Hd.
  pose proof (for_range_from_logs _ _ _
                (fun k x lx Hk => proj1 (detect_returns _ _ _ Hk)) Hd) as ->.
  apply for_range_from_returns in Hd as [Hlen Hnth].
  split; [reflexivity | split; [exact Hlen |]].
  assert (Hshape : exists n, shape si = [n] /\ 3 <= n).
  { destruct r as [| x0 [| x1 [| x2 r]]]; try discriminate.
    destruct (Hnth 2 x2 eq_refl) as (lx & Hx).
    apply detect_returns in Hx as (_ & _ & (n & Hn & Hi) & _ & _). exists n. split; [exact Hn | lia]. }
  destruct Hshape as (n & Hn & H3).
  split.
  - apply Forall_forall. intros e He. apply In_nth_error in He as (k & Hk).
    destruct (Hnth k e Hk) as (lx & Hx).
    apply detect_returns in Hx as (_ & Ht & _ & (m & Hm) & Hobj).
    split; [exact Ht | split; [| exact Hobj]].
    rewrite Ssp, <- Ssi, Hn in Hm. injection Hm as _ Hm. symmetry. exact Hm.
  - exists a, n. split; [exact Ha | split; [| exact H3]]. rewrite <- Ssi. exact Hn.
Qed.
End PostprocessAnyInput.

(** ** Arrays of more than one axis *)

Lemma along_last_axis_shape {A B} (f : list A -> list B) (a : ndarray A) :
  shape a <> [] -> exists dat, along_last_axis f a = ret (mk_ndarray (shape a) dat).
Proof.
  intros H. unfold along_last_axis. destruct (shape a) eqn:E; [congruence |].
  eexists. reflexivity.
Qed.

Lemma flip_shape {A} (a : ndarray A) n s :
  shape a = n :: s -> exists dat, flip a = ret (mk_ndarray (n :: s) dat).
Proof. intros H. unfold flip. rewrite H. eexists. reflexivity. Qed.

Lemma item_shape {A} (a : ndarray A) n s i :
  shape a = n :: s -> i < n -> exists dat, item a i = ret (mk_ndarray s dat).
Proof.
  intros H Hi. unfold item. rewrite H. apply Nat.ltb_lt in Hi. rewrite Hi.
  eexists. reflexivity.
Qed.

Section SeveralAxes.
Context {D : Dtype} {NP : NumPy D}.
Variable self : MLModel.

Lemma sorted_prob_of_shape probabilities a n s :
  np_asarray probabilities = ret a ->
  filter (fun d => negb (d =? 1)) (shape a) = n :: s ->
  exists dat, sorted_prob_of probabilities = ret (mk_ndarray (n :: s) dat).
Proof.
  intros Ha Hs. unfold sorted_prob_of, np_sort. rewrite Ha, bind_ret.
  destruct (along_last_axis_shape sort_lane a) as (dat & ->).
  { intros E. rewrite E in Hs. discriminate. }
  rewrite bind_ret. apply flip_shape. exact Hs.
Qed.

Lemma sorted_indices_of_shape probabilities a n s :
  np_asarray probabilities = ret a ->
  filter (fun d => negb (d =? 1)) (shape a) = n :: s ->
  exists dat, sorted_indices_of probabilities = ret (mk_ndarray (n :: s) dat).
Proof.
  intros Ha Hs. unfold sorted_indices_of, np_argsort. rewrite Ha, bind_ret.
  destruct (along_last_axis_shape argsort_lane a) as (dat & ->).
  { intros E. rewrite E in Hs. discriminate. }
  rewrite bind_ret. apply flip_shape. exact Hs.
Qed.

Lemma Postprocess_several_axes probabilities a m d s :
  np_asarray probabilities = ret a ->
  filter (fun d => negb (d =? 1)) (shape a) = m :: d :: s ->
  0 < m ->
  Postprocess self probabilities = (Returns None, [TypeError]).
Proof.
  intros Ha Hs Hm.
  change (Postprocess self probabilities) with
    (guarded (
       sorted_prob <- sorted_prob_of probabilities ;;
       sorted_indices <- sorted_indices_of probabilities ;;
       detectedObjects <- for_range 3 (detect self sorted_prob sorted_indices) ;;
       return_ detectedObjects)).
  destruct (sorted_prob_of_shape probabilities Ha Hs) as (dp & ->).
  destruct (sorted_indices_of_shape probabilities Ha Hs) as (di & ->).
  rewrite !bind_ret. unfold for_range. cbn [for_range_from]. unfold detect at 1.
  destruct (@item_shape _ (mk_ndarray (m :: d :: s) dp) m (d :: s) 0 eq_refl Hm) as (xp & ->).
  destruct (@item_shape _ (mk_ndarray (m :: d :: s) di) m (d :: s) 0 eq_refl Hm) as (xi & ->).
  rewrite !bind_ret. reflexivity.
Qed.
End SeveralAxes.

(** ** One column per row *)

Lemma flat_map_singletons {A B} (f : list A -> list B) (g : A -> B) (l : list A) :
  (forall x, f [x] = [g x]) ->
  flat_map f (map (fun x => [x]) l) = map g l.
Proof.
  intros H. induction l as [| x l IH]; cbn; [reflexivity |].
  rewrite H, IH. reflexivity.
Qed.

Section Column.
Context {D : Dtype} {NP : NumPy D}.
Variable self : MLModel.

(** A lane of one element is sorted as it is. *)
Lemma sort_lane_one (x : scalar) : sort_lane [x] = [x].
Proof.
  pose proof (sort_lane_length [x]) as L. pose proof (sort_lane_In [x]) as I.
  destruct (sort_lane [x]) as [| y [| ? ?]]; try discriminate L.
  destruct (I y (or_introl eq_refl)) as [<- | []]. reflexivity.
Qed.

Lemma argsort_lane_one (x : scalar) : argsort_lane [x] = [0%Z].
Proof.
  pose proof (argsort_lane_perm [x]) as P. cbn in P.
  apply Permutation_sym, Permutation_length_1_inv in P. exact P.
Qed.

Lemma Postprocess_column (p : list scalar) name :
  3 <= length p ->
  lookup_name self 0 = Some name ->
  exists x0 x1 x2 rest,
    rev p = x0 :: x1 :: x2 :: rest /\
    Postprocess self [mk_ndarray [length p; 1] p]
    = (Returns (Some [detection name (truediv x0 (of_int 100));
                      detection name (truediv x1 (of_int 100));
                      detection name (truediv x2 (of_int 100))]), []).
Proof.
  intros Hlen Hname.
  pose (r := map (fun x => (0%Z, x)) (rev p)).
  assert (Hr : length r = length p) by (unfold r; rewrite length_map, length_rev; reflexivity).
  assert (Hsnd : map snd r = rev p).
  { unfold r. rewrite map_map. cbn. apply map_id. }
  assert (Hfst : map fst r = rev (map (fun _ => 0%Z) p)).
  { unfold r. rewrite map_map, map_rev. reflexivity. }
  assert (Hsq : forall A (dat : list A),
            np_squeeze (mk_ndarray [1; length p; 1] dat) = mk_ndarray [length p] dat).
  { intros A dat. unfold np_squeeze. cbn [shape data filter Nat.eqb negb].
    destruct (Nat.eqb_spec (length p) 1) as [E | _]; [lia | reflexivity]. }
  assert (Hchunks : forall A (q : list A), length q = length p ->
            chunks 1 (q ++ []) (size [1; length p]) = map (fun x => [x]) q).
  { intros A q Hq. rewrite app_nil_r. replace (size [1; length p]) with (length q).
    - apply chunks_singletons.
    - cbn. lia. }
  assert (Esp : sorted_prob_of [mk_ndarray [length p; 1] p]
                = ret (mk_ndarray [length r] (map snd r))).
  { unfold sorted_prob_of, np_sort, np_asarray. cbn [forallb]. rewrite bind_ret.
    unfold along_last_axis.
    cbn [shape data flat_map length last removelast].
    rewrite (Hchunks _ p eq_refl).
    rewrite (flat_map_singletons sort_lane (fun x => x)) by apply sort_lane_one.
    rewrite map_id, bind_ret, Hsq, flip_1d, Hsnd, Hr. reflexivity. }
  assert (Esi : sorted_indices_of [mk_ndarray [length p; 1] p]
                = ret (mk_ndarray [length r] (map fst r))).
  { unfold sorted_indices_of, np_argsort, np_asarray. cbn [forallb]. rewrite bind_ret.
    unfold along_last_axis.
    cbn [shape data flat_map length last removelast].
    rewrite (Hchunks _ p eq_refl).
    rewrite (flat_map_singletons argsort_lane (fun _ => 0%Z)) by apply argsort_lane_one.
    rewrite bind_ret, Hsq.
    replace (length p) with (length (map (fun _ : scalar => 0%Z) p)) at 1
      by apply length_map.
    rewrite flip_1d, Hfst, Hr, length_map. reflexivity. }
  assert (Hpos : forall kx, In kx r -> (0 <= fst kx)%Z).
  { intros kx Hin. apply in_map_iff in Hin as (x & <- & _). cbn. lia. }
  assert (Hzero : forall kx, In kx r -> fst kx = 0%Z).
  { intros kx Hin. apply in_map_iff in Hin as (x & <- & _). reflexivity. }
  assert (Hentry : forall x, In (0%Z, x) r ->
            entry self (0%Z, x) = Some (detection name (truediv x (of_int 100)))).
  { intros x _. unfold entry. cbn [fst snd]. rewrite Hname. reflexivity. }
  change (Postprocess self [mk_ndarray [length p; 1] p]) with
    (guarded (
       sorted_prob <- sorted_prob_of [mk_ndarray [length p; 1] p] ;;
       sorted_indices <- sorted_indices_of [mk_ndarray [length p; 1] p] ;;
       detectedObjects <- for_range 3 (detect self sorted_prob sorted_indices) ;;
       return_ detectedObjects)).
  rewrite Esp, Esi, !bind_ret. unfold for_range. cbn [for_range_from].
  rewrite !(@detect_ranked D self r _ Hpos).
  rewrite <- Hsnd. clear Esp Esi Hsnd Hfst Hpos.
  destruct r as [| [k0 x0] [| [k1 x1] [| [k2 x2] rest]]]; cbn in Hr; try lia.
  exists x0, x1, x2, (map snd rest). split; [reflexivity |].
  cbn [nth_error].
  assert (K0 : k0 = 0%Z /\ k1 = 0%Z /\ k2 = 0%Z).
  { repeat split.
    - apply (Hzero (k0, x0)). cbn. auto.
    - apply (Hzero (k1, x1)). cbn. auto.
    - apply (Hzero (k2, x2)). cbn. auto. }
  destruct K0 as (-> & -> & ->).
  rewrite !Hentry by (cbn; auto). rewrite !bind_ret. reflexivity.
Qed.
End Column.

(** ** What [Postprocess] reads of the model *)

Section Frame.
Context {D : Dtype} {NP : NumPy D}.

Lemma entry_labels (s1 s2 : MLModel) kx :
  nth_error (_labelList s1) (Z.to_nat (fst kx))
  = nth_error (_labelList s2) (Z.to_nat (fst kx)) ->
  entry s1 kx = entry s2 kx.
Proof. intros H. unfold entry, lookup_name. rewrite H. reflexivity. Qed.

Lemma rank3_labels (s1 s2 : MLModel) p :
  (forall kx, In kx (firstn 3 (ranked p)) ->
     nth_error (_labelList s1) (Z.to_nat (fst kx))
     = nth_error (_labelList s2) (Z.to_nat (fst kx))) ->
  rank3 s1 p = rank3 s2 p.
Proof.
  intros H. unfold rank3.
  destruct (ranked p) as [| a [| b [| c rest]]]; try reflexivity.
  rewrite (@entry_labels s1 s2 a), (@entry_labels s1 s2 b), (@entry_labels s1 s2 c);
    [reflexivity | | |]; apply H; cbn; auto.
Qed.
End Frame.

(** ** Splitting a label line *)

Lemma split_space_1_cases s :
  (has_space s = false /\ split_space_1 s = [s]) \/
  (exists tok rest, has_space tok = false /\ s = (tok ++ String " " rest)%string /\
                    split_space_1 s = [tok; rest]).
Proof.
  induction s as [| c s IH].
  - left. split; reflexivity.
  - cbn [has_space split_space_1]. destruct (Ascii.eqb_spec c " ") as [-> | Hc].
    + right. exists EmptyString, s. repeat split; reflexivity.
    + destruct IH as [[H E] | (tok & rest & H & E & E')].
      * left. rewrite E. split; [exact H | reflexivity].
      * right. exists (String c tok), rest. rewrite E'. repeat split.
        -- cbn. apply Ascii.eqb_neq in Hc. rewrite Hc. exact H.
        -- cbn. rewrite E. reflexivity.
Qed.

Lemma append_space_inj tok tok' rest rest' :
  has_space tok = false -> has_space tok' = false ->
  (tok ++ String " " rest)%string = (tok' ++ String " " rest')%string ->
  tok = tok' /\ rest = rest'.
Proof.
  revert tok'. induction tok as [| c tok IH]; intros [| c' tok'] H H' E; cbn in *.
  - injection E as ->. auto.
  - injection E as <- _. rewrite Ascii.eqb_refl in H'. discriminate.
  - injection E as -> _. rewrite Ascii.eqb_refl in H. discriminate.
  - injection E as -> E. apply orb_false_iff in H as [_ H], H' as [_ H'].
    destruct (IH tok' H H' E) as [-> ->]. auto.
Qed.

(** ** What [Score] returns *)

Lemma guarded_some {A} (body : py (option A)) r l :
  guarded body = (Returns (Some r), l) -> body = (Returns (Some r), l).
Proof.
  destruct body as [[v | e] l0]; cbn.
  - intros H. injection H as -> ->. reflexivity.
  - discriminate.
Qed.

Lemma Score_some {D : Dtype} {NP : NumPy D} {CV : OpenCV} (self : MLModel) img r l :
  Score self img = (Returns (Some r), l) ->
  exists blob probabilities l1 l2,
    Preprocess img = (Returns blob, l1) /\
    _onnxSession self blob = (Returns probabilities, l2) /\
    Postprocess self probabilities = (Returns (Some r), []) /\
    l = l1 ++ l2.
Proof.
  intros H. unfold Score, with_lock, Score_locked in H. apply guarded_some in H.
  apply bind_returns in H as (probabilities & l12 & l3 & H12 & H3 & ->).
  apply bind_returns in H12 as (blob & l1 & l2 & H1 & H2 & ->).
  destruct (@Postprocess_some D NP self probabilities r l3 H3) as (-> & _).
  exists blob, probabilities, l1, l2. rewrite app_nil_r. auto.
Qed.

(** ** Images with an alpha channel *)

Lemma bgr2rgb_length_ge px : 3 <= length px -> length (bgr2rgb px) = 3.
Proof. destruct px as [| b [| g [| r px]]]; cbn; intros; try lia; reflexivity. Qed.

Lemma bgr2rgb_nth_ge px k :
  3 <= length px -> k < 3 -> nth_error (bgr2rgb px) k = nth_error px (2 - k).
Proof.
  destruct px as [| b [| g [| r px]]]; cbn [length]; intros H Hk; try lia.
  destruct k as [| [| [| k]]]; try lia; reflexivity.
Qed.

Section Channels.
Context {CV : OpenCV}.
Variables (img : ndarray Z) (h w c : nat).
Hypothesis Hshape : shape img = [h; w; c].
Hypothesis Hwf : wf img.
Hypothesis Hc : c = 3 \/ c = 4.

Let rgb : ndarray Z :=
  mk_ndarray [h; w; 3] (flat_map bgr2rgb (chunks c (data img) (h * w))).

Lemma image_length : length (data img) = h * w * c.
Proof. clear Hc. unfold wf in Hwf. rewrite Hwf, Hshape. cbn. lia. Qed.

Lemma pixel_length px : In px (chunks c (data img) (h * w)) -> length (bgr2rgb px) = 3.
Proof.
  intros Hpx. apply bgr2rgb_length_ge.
  rewrite (In_chunks_length c (h * w) (data img) px); [lia | rewrite image_length; lia | exact Hpx].
Qed.

Lemma pixels_length : length (data rgb) = h * w * 3.
Proof.
  cbn [rgb data]. rewrite (length_flat_map_uniform bgr2rgb (n:=3)) by apply pixel_length.
  rewrite chunks_length. reflexivity.
Qed.

(** Channel [k] of a pixel of the result is channel [2 - k] of the input;
    channel 3 of the input is not read. *)
Lemma pixels_nth q k :
  q < h * w -> k < 3 ->
  nth_error (data rgb) (q * 3 + k) = nth_error (data img) (q * c + (2 - k)).
Proof.
  intros Hq Hk. cbn [rgb data].
  rewrite (nth_error_flat_map_uniform bgr2rgb (n:=3)) by (apply pixel_length || exact Hk).
  rewrite nth_error_chunks by exact Hq.
  rewrite bgr2rgb_nth_ge; [| | exact Hk].
  - apply nth_error_firstn_skipn. lia.
  - rewrite length_firstn, length_skipn, image_length.
    assert (q * c + c <= h * w * c) by nia. lia.
Qed.

Lemma cvtColor_channels :
  0 < h -> 0 < w -> cvtColor_BGR2RGB img = ret rgb.
Proof.
  intros Hh Hw. apply (cvtColor_BGR2RGB_colour img Hshape Hh Hw Hc).
Qed.
End Channels.

Lemma Preprocess_channels {D : Dtype} {CV : OpenCV} (img : ndarray Z) (h w c : nat) :
  shape img = [h; w; c] -> c = 3 \/ c = 4 -> wf img -> 0 < h -> 0 < w ->
  exists t,
    Preprocess img = (Returns (Some t), []) /\
    shape t = [1; 3; h; w] /\
    wf t /\
    (forall i j k, i < h -> j < w -> k < 3 ->
       exists v, get img [i; j; 2 - k] = Some v /\
                 get t [0; k; i; j] = Some (normalise v)).
Proof.
  intros Hshape Hc Hwf Hh Hw.
  pose proof (@Preprocess_after_cvtColor D CV img _
                (@cvtColor_channels CV img h w c Hshape Hc Hh Hw)) as P.
  pose proof (@pixels_length img h w c Hshape Hwf Hc) as Lrgb.
  pose proof (@pixels_nth img h w c Hshape Hwf Hc) as Nrgb.
  set (rgb := mk_ndarray [h; w; 3] (flat_map bgr2rgb (chunks c (data img) (h * w)))) in *.
  assert (Hs : shape (np_map (fun x => truediv x (of_int 255)) (np_map of_int rgb))
               = [h; w; 3]) by reflexivity.
  assert (Hd : data (np_map (fun x => truediv x (of_int 255)) (np_map of_int rgb))
               = map normalise (data rgb)).
  { cbn [np_map data]. rewrite map_map. reflexivity. }
  set (scaled := np_map (fun x => truediv x (of_int 255)) (np_map of_int rgb)) in *.
  clearbody scaled. clearbody rgb.
  assert (Hl : length (data scaled) = h * w * 3).
  { rewrite Hd, length_map. exact Lrgb. }
  rewrite (@transpose_image _ scaled h w 3 Hs), bind_ret in P.
  pose proof (@transposed_length _ scaled h w 3 Hl) as TL.
  pose proof (@transposed_nth _ scaled h w 3 Hl) as TN.
  cbn [data] in TL, TN.
  set (cells := flat_map _ (seq 0 3)) in *. clearbody cells.
  exists (np_expand_dims_0 (mk_ndarray [3; h; w] cells)).
  split; [| split; [| split]].
  - exact P.
  - reflexivity.
  - unfold wf. cbn [np_expand_dims_0 data shape].
    rewrite TL. cbn. lia.
  - intros i j k Hi Hj Hk.
    assert (Hq : i * w + j < h * w) by nia.
    destruct (nth_error (data img) ((i * w + j) * c + (2 - k))) as [v |] eqn:V.
    2:{ apply nth_error_None in V. rewrite (@image_length img h w c Hshape Hwf) in V.
        assert ((i * w + j) * c + c <= h * w * c) by nia. lia. }
    exists v. split.
    + unfold get. rewrite Hshape. cbn [offset_from].
      apply Nat.ltb_lt in Hi, Hj. rewrite Hi, Hj.
      assert (E : (2 - k <? c) = true) by (apply Nat.ltb_lt; lia). rewrite E.
      rewrite <- V. f_equal.
    + unfold get. cbn [np_expand_dims_0 shape data offset_from].
      pose proof Hi as Hi'. pose proof Hj as Hj'. pose proof Hk as Hk'.
      apply Nat.ltb_lt in Hi', Hj', Hk'.
      change (0 <? 1) with true. cbv iota. rewrite Hk', Hi', Hj'.
      replace ((((0 * 1 + 0) * 3 + k) * h + i) * w + j) with ((k * h + i) * w + j) by lia.
      rewrite (TN k i j Hk Hi Hj).
      rewrite Hd, nth_error_map, (Nrgb _ _ Hq Hk), V. reflexivity.
Qed.

(** ** The label file *)

Lemma rstrip_idem s : rstrip (rstrip s) = rstrip s.
Proof.
  induction s as [| c s IH]; [reflexivity |].
  cbn [rstrip]. destruct (rstrip s) as [| d t] eqn:E.
  - destruct (py_isspace c) eqn:S; [reflexivity |]. cbn. rewrite S. reflexivity.
  - cbn [rstrip]. cbn [rstrip] in IH. 
    destruct (match rstrip t with
              | EmptyString => if py_isspace d then EmptyString else String d EmptyString
              | String a s0 => String d (String a s0)
              end) eqn:F; [discriminate IH |].
    rewrite IH. reflexivity.
Qed.

Lemma rstrip_all_space ws : all_space ws = true -> rstrip ws = EmptyString.
Proof.
  induction ws as [| c ws IH]; [reflexivity |].
  cbn. intros H. apply andb_true_iff in H as [Hc H]. rewrite (IH H), Hc. reflexivity.
Qed.

Lemma rstrip_app_space s ws :
  all_space ws = true -> rstrip (s ++ ws) = rstrip s.
Proof.
  intros H. induction s as [| c s IH]; cbn.
  - apply rstrip_all_space, H.
  - rewrite IH. reflexivity.
Qed.

Lemma string_app_assoc (a b c : string) : ((a ++ b) ++ c = a ++ b ++ c)%string.
Proof. induction a as [| x a IH]; cbn; [| rewrite IH]; reflexivity. Qed.

Lemma string_app_nil_r (a : string) : (a ++ EmptyString)%string = a.
Proof. induction a as [| x a IH]; cbn; [| rewrite IH]; reflexivity. Qed.

Lemma no_newline_app a b : no_newline (a ++ b) = (no_newline a && no_newline b)%bool.
Proof.
  induction a as [| c a IH]; cbn; [reflexivity |].
  rewrite IH, andb_assoc. reflexivity.
Qed.

Lemma no_newline_rstrip s : no_newline s = true -> no_newline (rstrip s) = true.
Proof.
  induction s as [| c s IH]; [reflexivity |].
  cbn [no_newline rstrip]. intros H. apply andb_true_iff in H as [Hc Hs].
  specialize (IH Hs). destruct (rstrip s) as [| d t].
  - destruct (py_isspace c); [reflexivity |]. cbn. rewrite Hc. reflexivity.
  - cbn [no_newline]. cbn [no_newline] in IH. rewrite Hc, IH. reflexivity.
Qed.

(** A string that [rstrip] leaves alone ends in a character that is not
    whitespace, and so does every non-empty tail of it. *)
Lemma rstrip_fixed_tail a b :
  rstrip (a ++ b) = (a ++ b)%string -> rstrip b = b.
Proof.
  induction a as [| c a IH]; cbn [append rstrip]; [auto |].
  destruct (rstrip (a ++ b)) as [| d t] eqn:E.
  - destruct (py_isspace c); [discriminate |].
    intros H. injection H as H. destruct a; [| discriminate]. cbn in H. subst b. reflexivity.
  - intros H. injection H as H. apply IH. exact H.
Qed.

Lemma rstrip_fixed_app a b :
  b <> EmptyString -> rstrip b = b -> rstrip (a ++ b) = (a ++ b)%string.
Proof.
  intros Hb H. induction a as [| c a IH]; cbn [append rstrip]; [exact H |].
  rewrite IH. destruct (a ++ b)%string eqn:E; [| reflexivity].
  destruct a; [| discriminate]. cbn in E. contradiction.
Qed.

Lemma rstrip_space_name name :
  rstrip (String " " name) = String " " name -> name <> EmptyString.
Proof. intros H ->. discriminate H. Qed.

(** One line of the text. *)
Lemma readlines_line l nl rest :
  no_newline l = true -> terminator nl ->
  (nl = String CR EmptyString -> forall r, rest <> String LF r) ->
  readlines (l ++ nl ++ rest) = (l ++ String LF EmptyString)%string :: readlines rest.
Proof.
  intros Hl Hnl Hrest. induction l as [| c l IH].
  - cbn [append]. destruct Hnl as [-> | [-> | ->]]; cbn [append readlines].
    + reflexivity.
    + reflexivity.
    + change (Ascii.eqb CR LF) with false. change (Ascii.eqb CR CR) with true. cbv iota.
      destruct rest as [| c' rest']; [reflexivity |].
      destruct (Ascii.eqb_spec c' LF) as [-> | _]; [| reflexivity].
      exfalso. apply (Hrest eq_refl rest'). reflexivity.
  - cbn [no_newline] in Hl. apply andb_true_iff in Hl as [Hc Hl].
    apply andb_true_iff in Hc as [H1 H2]. apply negb_true_iff in H1, H2.
    cbn [append readlines]. rewrite H1, H2, (IH Hl). reflexivity.
Qed.

Lemma readlines_tail l :
  no_newline l = true -> l <> EmptyString -> readlines l = [l].
Proof.
  induction l as [| c l IH]; [congruence |].
  cbn [no_newline]. intros Hl _. apply andb_true_iff in Hl as [Hc Hl].
  apply andb_true_iff in Hc as [H1 H2]. apply negb_true_iff in H1, H2.
  cbn [readlines]. rewrite H1, H2.
  destruct l as [| d l]; [reflexivity |].
  rewrite (IH Hl) by discriminate. reflexivity.
Qed.

Lemma no_newline_head l text r :
  no_newline l = true -> (forall r', text <> String LF r') ->
  (l ++ text)%string <> String LF r.
Proof.
  destruct l as [| c l]; cbn; [intros _ H; apply H |].
  intros H _ E. injection E as -> _. discriminate.
Qed.

Lemma unlines_head ls tail r :
  Forall clean ls -> (forall r', tail <> String LF r') ->
  (unlines (String CR EmptyString) ls ++ tail)%string <> String LF r.
Proof.
  intros Hls Htail. destruct Hls as [| l ls [Hl _] _]; cbn [unlines fold_right].
  - apply Htail.
  - rewrite !string_app_assoc. apply no_newline_head; [exact Hl |].
    intros r' E. discriminate E.
Qed.

(** The labels of a text made of clean lines are those lines. *)
Lemma labelList_of_unlines nl ls tail :
  Forall clean ls -> terminator nl -> (forall r, tail <> String LF r) ->
  labelList_of (unlines nl ls ++ tail) = ls ++ labelList_of tail.
Proof.
  intros Hls Hnl Htail. unfold labelList_of.
  induction Hls as [| l ls [Hl Hr] Hls IH]; [reflexivity |].
  cbn [unlines fold_right]. fold (unlines nl ls).
  rewrite !string_app_assoc, readlines_line.
  - cbn [map app]. rewrite IH, rstrip_app_space, Hr by reflexivity. reflexivity.
  - exact Hl.
  - exact Hnl.
  - intros -> r. apply unlines_head; assumption.
Qed.

(** Every line that the file yields is a body without a line break,
    followed by at most the one ["\n"]. *)
Lemma readlines_bodies_upto n : forall text,
  String.length text <= n ->
  Forall (fun l => exists body,
            no_newline body = true /\
            (l = (body ++ String LF EmptyString)%string \/ l = body))
         (readlines text).
Proof.
  assert (Hnl : exists body,
            no_newline body = true /\
            (String LF EmptyString = (body ++ String LF EmptyString)%string \/
             String LF EmptyString = body)).
  { exists EmptyString. split; [reflexivity | left; reflexivity]. }
  induction n as [| n IH]; intros [| c rest] Hlen; cbn [String.length] in Hlen;
    try (constructor; fail); [lia |].
  cbn [readlines]. destruct (Ascii.eqb c LF) eqn:E1.
  - constructor; [exact Hnl |]. apply IH. lia.
  - destruct (Ascii.eqb c CR) eqn:E2.
    + constructor; [exact Hnl |].
      destruct rest as [| c' rest']; [constructor |].
      cbn [String.length] in Hlen.
      destruct (Ascii.eqb c' LF); apply IH; cbn [String.length]; lia.
    + assert (IHr := IH rest ltac:(lia)).
      destruct (readlines rest) as [| l ls].
      * constructor; [| constructor]. exists (String c EmptyString).
        split; [cbn; rewrite E1, E2; reflexivity | right; reflexivity].
      * inversion IHr as [| ? ? (body & Hb & Hl) Hls]; subst.
        constructor; [| exact Hls]. exists (String c body). split.
        -- cbn. rewrite E1, E2, Hb. reflexivity.
        -- destruct Hl as [-> | ->]; [left | right]; reflexivity.
Qed.

Lemma readlines_bodies text :
  Forall (fun l => exists body,
            no_newline body = true /\
            (l = (body ++ String LF EmptyString)%string \/ l = body))
         (readlines text).
Proof. apply (@readlines_bodies_upto (String.length text) text). lia. Qed.

Lemma labelList_of_clean text : Forall clean (labelList_of text).
Proof.
  unfold labelList_of. apply Forall_map.
  eapply Forall_impl; [| apply readlines_bodies].
  intros l (body & Hb & Hl). split.
  - destruct Hl as [-> | ->]; [rewrite rstrip_app_space by reflexivity |];
      apply no_newline_rstrip, Hb.
  - apply rstrip_idem.
Qed.

(** ** Names *)

Lemma has_space_at_space tok rest : has_space (tok ++ String " " rest) = true.
Proof.
  induction tok as [| c tok IH]; cbn; [reflexivity |].
  rewrite IH. apply orb_true_r.
Qed.

Lemma getitem_split_1 obj name :
  getitem (split_space_1 obj) 1 = ret name <->
  exists tok, has_space tok = false /\ obj = (tok ++ String " " name)%string.
Proof.
  destruct (split_space_1_cases obj) as [[H E] | (tok & rest & H & E & E')].
  - rewrite E. split; [discriminate |].
    intros (tok & Ht & ->). rewrite has_space_at_space in H. discriminate.
  - rewrite E'. split.
    + intros G. injection G as <-. exists tok. auto.
    + intros (tok' & Ht' & E2). rewrite E in E2.
      destruct (@append_space_inj tok tok' rest name H Ht' E2) as [_ ->]. reflexivity.
Qed.

Lemma clean_name obj name :
  clean obj -> getitem (split_space_1 obj) 1 = ret name ->
  name <> EmptyString /\ clean name.
Proof.
  intros [Hn Hr] G. apply getitem_split_1 in G as (tok & _ & ->).
  apply rstrip_fixed_tail in Hr.
  split; [apply rstrip_space_name, Hr |]. split.
  - rewrite no_newline_app in Hn. apply andb_true_iff in Hn as [_ Hn].
    cbn [no_newline] in Hn. apply andb_true_iff in Hn as [_ Hn]. exact Hn.
  - apply (rstrip_fixed_tail (String " " EmptyString) name). exact Hr.
Qed.

Lemma label_line_clean line : synset_entry line -> clean (label_line line).
Proof.
  destruct line as [id name]. intros (_ & Hid & Hne & Hn & Hr). cbn [fst snd] in *.
  unfold label_line. cbn [fst snd]. split.
  - rewrite no_newline_app, Hid. cbn [no_newline]. rewrite Hn. reflexivity.
  - apply rstrip_fixed_app; [discriminate |].
    apply (@rstrip_fixed_app (String " " EmptyString) name Hne Hr).
Qed.

Section InitFacts.
Context {D : Dtype} {NP : NumPy D}.
Variable session : option (ndarray scalar) -> py (list (ndarray scalar)).

Lemma init_labels nl entries :
  Forall synset_entry entries -> terminator nl ->
  _labelList (__init__ (unlines nl (map label_line entries)) session)
  = map label_line entries.
Proof.
  intros He Hnl. cbn [__init__ _labelList].
  rewrite <- (string_app_nil_r (unlines nl (map label_line entries))).
  rewrite labelList_of_unlines.
  - apply app_nil_r.
  - apply Forall_map. eapply Forall_impl; [| exact He]. apply label_line_clean.
  - exact Hnl.
  - discriminate.
Qed.

Lemma init_lookup nl entries k line :
  Forall synset_entry entries -> terminator nl ->
  nth_error entries k = Some line ->
  lookup_name (__init__ (unlines nl (map label_line entries)) session) (Z.of_nat k)
  = Some (snd line).
Proof.
  intros He Hnl Hk. unfold lookup_name. rewrite (@init_labels nl entries He Hnl), Nat2Z.id.
  rewrite nth_error_map, Hk. cbn [option_map].
  rewrite Forall_forall in He. destruct (He line (nth_error_In _ _ Hk)) as (Hs & _).
  unfold label_line. rewrite (@split_space_1_at_space (fst line) (snd line) Hs). reflexivity.
Qed.

Lemma init_entry nl entries (kx : Z * scalar) :
  Forall synset_entry entries -> terminator nl ->
  (0 <= fst kx < Z.of_nat (length entries))%Z ->
  entry (__init__ (unlines nl (map label_line entries)) session) kx
  = Some (detection (name_at entries kx) (truediv (snd kx) (of_int 100))).
Proof.
  intros He Hnl Hk. unfold entry.
  destruct (nth_error entries (Z.to_nat (fst kx))) as [line |] eqn:E.
  2:{ apply nth_error_None in E. lia. }
  rewrite <- (Z2Nat.id (fst kx)) at 1 by lia.
  rewrite (@init_lookup nl entries (Z.to_nat (fst kx)) line He Hnl E). unfold name_at, detection.
  rewrite (nth_error_nth _ _ EmptyString (map_nth_error snd _ _ E)). reflexivity.
Qed.

Lemma init_Postprocess nl entries probabilities k (p : list scalar) :
  Forall synset_entry entries -> terminator nl ->
  np_asarray probabilities = ret (mk_ndarray (vector_shape k (length p)) p) ->
  3 <= length p <= length entries ->
  exists a b c rest,
    ranked p = a :: b :: c :: rest /\
    Postprocess (__init__ (unlines nl (map label_line entries)) session) probabilities
    = (Returns (Some [detection (name_at entries a) (truediv (snd a) (of_int 100));
                      detection (name_at entries b) (truediv (snd b) (of_int 100));
                      detection (name_at entries c) (truediv (snd c) (of_int 100))]), []).
Proof.
  intros He Hnl Ha [H3 Hle].
  rewrite (@Postprocess_vector D NP _ probabilities k p Ha). unfold rank3.
  pose proof (ranked_length p) as L.
  assert (R : forall kx, In kx (ranked p) -> (0 <= fst kx < Z.of_nat (length entries))%Z).
  { intros [j x] Hin. apply ranked_In in Hin. cbn. lia. }
  destruct (ranked p) as [| a [| b [| c rest]]]; cbn [length] in L; try lia.
  exists a, b, c, rest. split; [reflexivity |].
  rewrite (@init_entry nl entries a He Hnl), (@init_entry nl entries b He Hnl),
    (@init_entry nl entries c He Hnl) by (apply R; cbn; auto). reflexivity.
Qed.

Lemma init_names text probabilities r l :
  Postprocess (__init__ text session) probabilities = (Returns (Some r), l) ->
  Forall (fun e => value (classification_tag e) <> EmptyString /\
                   clean (value (classification_tag e))) r.
Proof.
  intros H. apply Postprocess_some in H as (_ & _ & H & _).
  eapply Forall_impl; [| exact H].
  intros e (_ & _ & obj & Hobj & Hname). cbn [__init__ _labelList] in Hobj.
  pose proof (labelList_of_clean text) as C. rewrite Forall_forall in C.
  apply (@clean_name obj _ (C obj Hobj) Hname).
Qed.
End InitFacts.

(** ** Schedules *)

Section ScheduleFacts.
Context {D : Dtype} {NP : NumPy D} {CV : OpenCV}.
Variable self : MLModel.

(** Every step takes its caller exactly one stage further. *)
Lemma advance_next locked c locked' c' :
  advance self locked c = Some (locked', c') ->
  remaining (at_stage c) = S (remaining (at_stage c')).
Proof.
  destruct c as [img st l]. unfold advance. cbn [cvImage at_stage own_log].
  destruct st as [| | blob | o | [probabilities | e] | r].
  - destruct locked; [discriminate |]. intros H. injection H as <- <-. reflexivity.
  - destruct (Preprocess_returns img) as (r & l' & ->).
    intros H. injection H as <- <-. reflexivity.
  - destruct (_onnxSession self blob) as [o l']. intros H. injection H as <- <-. reflexivity.
  - intros H. injection H as <- <-. reflexivity.
  - destruct (Postprocess self probabilities) as [[r | e] l'];
      intros H; injection H as <- <-; reflexivity.
  - intros H. injection H as <- <-. reflexivity.
  - discriminate.
Qed.

Lemma step_at_total n w w' :
  step_at self n w = Some w' -> total (callers w) = S (total (callers w')).
Proof.
  unfold step_at. destruct (nth_error (callers w) n) as [c |] eqn:N; [| discriminate].
  destruct (advance self (lock w) c) as [[locked' c'] |] eqn:A; [| discriminate].
  intros H. injection H as <-. cbn [callers].
  pose proof (total_update (callers w) n c' N) as T.
  pose proof (@advance_next (lock w) c locked' c' A) as R. lia.
Qed.

Lemma run_total schedule : forall w w',
  run self schedule w = Some w' ->
  total (callers w) = length schedule + total (callers w').
Proof.
  induction schedule as [| n rest IH]; intros w w' H; cbn [run] in H.
  - injection H as <-. reflexivity.
  - destruct (step_at self n w) as [w1 |] eqn:S; [| discriminate].
    apply step_at_total in S. apply IH in H. cbn [length]. lia.
Qed.

Lemma total_initial images : total (callers (initial images)) = 5 * length images.
Proof.
  unfold initial. cbn [callers].
  induction images as [| img images IH]; [reflexivity |].
  cbn [map length]. rewrite total_cons, IH. cbn [at_stage remaining]. lia.
Qed.

Lemma finished_total cs : Forall finished cs -> total cs = 0 /\ active cs = 0.
Proof.
  induction 1 as [| c cs (r & Hc) _ [IHt IHa]]; [split; reflexivity |].
  rewrite total_cons, active_cons, Hc, IHt, IHa. split; reflexivity.
Qed.

Lemma schedule_accounting images schedule w :
  run self schedule (initial images) = Some w ->
  length schedule + total (callers w) = 5 * length images /\
  ((forall n, step_at self n w = None) -> Forall finished (callers w)) /\
  (Forall finished (callers w) ->
   lock w = false /\ length schedule = 5 * length images /\
   forall n, step_at self n w = None).
Proof.
  intros R.
  pose proof (@run_invariant D NP CV self images schedule _ _ R (initial_invariant self images)) as Inv.
  pose proof (run_total _ _ R) as T. rewrite total_initial in T.
  split; [lia | split].
  - intros Stuck. apply total_zero_finished.
    destruct (Nat.eq_dec (total (callers w)) 0) as [Z | NZ]; [exact Z |].
    destruct (@progress D NP CV self images w Inv) as (n & w' & S); [lia |].
    rewrite Stuck in S. discriminate.
  - intros F. destruct (finished_total F) as [Ft Fa].
    destruct Inv as (Hact & _ & _). rewrite Fa in Hact.
    split; [destruct (lock w); [discriminate | reflexivity] |].
    split; [lia |].
    intros n. destruct (step_at self n w) as [w' |] eqn:S; [| reflexivity].
    apply step_at_total in S. lia.
Qed.
End ScheduleFacts.

(** ** Binary64 scores *)

(** A NaN among the scores is ranked first. *)
Lemma ranked_nan_first {NP : NumPy float64} (p : list float) x a rest :
  In x p -> is_nan x = true -> ranked (D:=float64) p = a :: rest ->
  is_nan (snd a) = true.
Proof.
  intros Hx Hn E.
  pose proof (@ranked_best float64 float64_order NP p (snd a) (map snd rest)) as B.
  rewrite E in B. specialize (B eq_refl). rewrite Forall_forall in B.
  apply (float_geq_spec _ _ (B x Hx)). exact Hn.
Qed.

(** * The further properties *)

(** X1.  Whatever [Postprocess] is given, a list that it returns has exactly
    three records and nothing was logged.  Each record has the type
    "classification", a confidence that is a single number, and as its name
    the part after the first space of one of the label lines.  The input
    then was an array that [np.squeeze] reduces to one axis of three or more
    elements. *)
Theorem X1_three_classifications (D : Dtype) (NP : NumPy D) (self : MLModel)
    probabilities r l :
  Postprocess self probabilities = (Returns (Some r), l) ->
  l = [] /\
  length r = 3 /\
  Forall (fun e => type_ e = "classification"%string /\
                   shape (confidence (classification_tag e)) = [] /\
                   exists obj, In obj (_labelList self) /\
                     getitem (split_space_1 obj) 1 = ret (value (classification_tag e))) r /\
  exists a n,
    np_asarray probabilities = ret a /\
    filter (fun d => negb (d =? 1)) (shape a) = [n] /\ 3 <= n.
Proof. apply Postprocess_some. Qed.

Lemma X1_three_classifications_witness :
  exists r,
    Postprocess (NP:=stable_NumPy) loud_session (batch1 [250; 1; 2; 0; 0]%float)
    = (Returns (Some r), []) /\
    length r = 3.
Proof.
  eexists. split; [vm_compute; reflexivity |].
  destruct (@X1_three_classifications float64 stable_NumPy loud_session
              (batch1 [250; 1; 2; 0; 0]%float) _ [] eq_refl) as (_ & H & _).
  exact H.
Defined.

(** X2.  [Score] returns a list only when the session returned and
    [Postprocess] returned that list, of three records, from the session's
    outputs.  What the log then holds was written before [Postprocess] ran,
    by [Preprocess] and by the session.  [Preprocess] need not have
    succeeded: [Score] hands the session whatever [Preprocess] returned. *)
Theorem X2_score_needs_session_and_postprocess (D : Dtype) (NP : NumPy D) (CV : OpenCV)
    (self : MLModel) (img : ndarray Z) r l :
  Score self img = (Returns (Some r), l) ->
  length r = 3 /\
  exists blob probabilities l1 l2,
    Preprocess img = (Returns blob, l1) /\
    _onnxSession self blob = (Returns probabilities, l2) /\
    Postprocess self probabilities = (Returns (Some r), []) /\
    l = l1 ++ l2.
Proof.
  intros H. apply Score_some in H as (blob & probabilities & l1 & l2 & P & R & Q & ->).
  destruct (Postprocess_some _ _ Q) as (_ & Hlen & _).
  split; [exact Hlen |].
  exists blob, probabilities, l1, l2. auto.
Qed.

Lemma X2_score_needs_session_and_postprocess_witness :
  exists r,
    Score (NP:=stable_NumPy) (CV:=strict_OpenCV) loud_session two_channel_image
    = (Returns (Some r), [CvError]) /\
    length r = 3 /\
    Preprocess (D:=float64) (CV:=strict_OpenCV) two_channel_image = (Returns None, [CvError]) /\
    _onnxSession loud_session None = (Returns (batch1 loud_scores), []) /\
    Postprocess (NP:=stable_NumPy) loud_session (batch1 loud_scores) = (Returns (Some r), []).
Proof.
  eexists. split; [vm_compute; reflexivity |].
  destruct (@X2_score_needs_session_and_postprocess float64 stable_NumPy strict_OpenCV
              loud_session two_channel_image _ [CvError] eq_refl) as (Hlen & _).
  split; [exact Hlen |]. repeat split; vm_compute; reflexivity.
Defined.

(** X3.  When the outputs of the session, stacked and squeezed, still have
    two axes or more (a batch of several rows, say), [Postprocess] returns
    [None] and logs one TypeError: a row of indices is not a list index. *)
Theorem X3_rows_are_refused (D : Dtype) (NP : NumPy D) (self : MLModel)
    probabilities a m d s :
  np_asarray probabilities = ret a ->
  filter (fun d => negb (d =? 1)) (shape a) = m :: d :: s ->
  0 < m ->
  Postprocess self probabilities = (Returns None, [TypeError]).
Proof. apply Postprocess_several_axes. Qed.

Lemma X3_rows_are_refused_witness :
  Postprocess (NP:=stable_NumPy) loud_session two_rows = (Returns None, [TypeError]).
Proof.
  apply (@X3_rows_are_refused float64 stable_NumPy loud_session two_rows _ 2 3 [] eq_refl eq_refl).
  apply Nat.lt_0_succ.
Defined.

(** X4.  The scores are sorted along the last axis only.  When the session
    returns them down a column, shape (n, 1), nothing is sorted: the results
    are the last three scores of the column, last first, each divided by 100,
    and all three carry the name of label line 0. *)
Theorem X4_column_is_not_sorted (D : Dtype) (NP : NumPy D) (self : MLModel)
    (p : list scalar) name :
  3 <= length p ->
  lookup_name self 0 = Some name ->
  exists x0 x1 x2 rest,
    rev p = x0 :: x1 :: x2 :: rest /\
    Postprocess self (column p)
    = (Returns (Some [detection name (truediv x0 (of_int 100));
                      detection name (truediv x1 (of_int 100));
                      detection name (truediv x2 (of_int 100))]), []).
Proof. apply Postprocess_column. Qed.

Lemma X4_column_is_not_sorted_witness :
  exists x0 x1 x2 rest,
    rev [250; 1; 2; 0; 0]%float = x0 :: x1 :: x2 :: rest /\
    Postprocess (NP:=stable_NumPy) loud_session (column [250; 1; 2; 0; 0]%float)
    = (Returns (Some [detection (D:=float64) "cat" (x0 / 100)%float;
                      detection (D:=float64) "cat" (x1 / 100)%float;
                      detection (D:=float64) "cat" (x2 / 100)%float]), []).
Proof.
  apply (@X4_column_is_not_sorted float64 stable_NumPy loud_session [250; 1; 2; 0; 0]%float "cat").
  - cbn. lia.
  - reflexivity.
Defined.

(** X6.  Of the model, [Postprocess] reads the label lines of the three
    indices that [np.argsort] put first and nothing else: two models whose label tables agree on
    those three lines give the same result and the same log, whatever their
    other lines, the lengths of their tables and their sessions are. *)
Theorem X6_only_three_lines_are_read (D : Dtype) (NP : NumPy D) (s1 s2 : MLModel)
    probabilities k
    (p : list scalar) :
  np_asarray probabilities = ret (mk_ndarray (vector_shape k (length p)) p) ->
  (forall kx, In kx (firstn 3 (ranked p)) ->
     nth_error (_labelList s1) (Z.to_nat (fst kx))
     = nth_error (_labelList s2) (Z.to_nat (fst kx))) ->
  Postprocess s1 probabilities = Postprocess s2 probabilities.
Proof.
  intros Ha H.
  rewrite (@Postprocess_vector D NP s1 probabilities k p Ha),
          (@Postprocess_vector D NP s2 probabilities k p Ha),
          (@rank3_labels D NP s1 s2 p H).
  reflexivity.
Qed.

Lemma X6_only_three_lines_are_read_witness :
  Postprocess (NP:=stable_NumPy) loud_session (batch1 [0.1; 92.0; 0.05; 4.0; 3.0]%float)
  = Postprocess (NP:=stable_NumPy) (mk_model (D:=float64) other_labels (fun _ => raise (SessionError 2)))
                (batch1 [0.1; 92.0; 0.05; 4.0; 3.0]%float).
Proof.
  apply (@X6_only_three_lines_are_read float64 stable_NumPy loud_session
           (mk_model (D:=float64) other_labels (fun _ => raise (SessionError 2)))
           (batch1 [0.1; 92.0; 0.05; 4.0; 3.0]%float) 2
           [0.1; 92.0; 0.05; 4.0; 3.0]%float eq_refl).
  intros kx H. vm_compute in H.
  destruct H as [<- | [<- | [<- | []]]]; reflexivity.
Defined.

(** X7.  An image with a fourth (alpha) channel is accepted, of any height
    and width: the tensor has shape (1, 3, h, w) and its element
    (0, k, i, j) is sample (i, j, 2 - k) of the image divided by 255.  The
    fourth channel is not read. *)
Theorem X7_alpha_channel_is_dropped (D : Dtype) (CV : OpenCV) (img : ndarray Z)
    (h w c : nat) :
  shape img = [h; w; c] -> c = 3 \/ c = 4 -> wf img -> 0 < h -> 0 < w ->
  exists t,
    Preprocess img = (Returns (Some t), []) /\
    shape t = [1; 3; h; w] /\
    wf t /\
    (forall i j k, i < h -> j < w -> k < 3 ->
       exists v, get img [i; j; 2 - k] = Some v /\
                 get t [0; k; i; j] = Some (normalise v)).
Proof. apply Preprocess_channels. Qed.

Lemma X7_alpha_channel_is_dropped_witness :
  exists t,
    Preprocess (D:=rational) (CV:=strict_OpenCV) bgra_image = (Returns (Some t), []) /\
    shape t = [1; 3; 1; 2] /\
    get bgra_image [0; 1; 2] = Some 60%Z /\
    get t [0; 0; 0; 1] = Some (normalise (D:=rational) 60).
Proof.
  destruct (@X7_alpha_channel_is_dropped rational strict_OpenCV bgra_image 1 2 4 eq_refl
              (or_intror eq_refl) eq_refl (Nat.lt_0_succ 0) (Nat.lt_0_succ 1))
    as (t & P & S & _ & G).
  exists t. split; [exact P | split; [exact S |]].
  destruct (G 0 1 0 (Nat.lt_0_succ 0) (Nat.lt_succ_diag_r 1) (Nat.lt_0_succ 2))
    as (v & Gi & Gt).
  cbn in Gi. injection Gi as <-. split; [reflexivity | exact Gt].
Defined.

(** X9.  The name lookup [obj.split(' ', 1)[1]] gives [name] exactly for the
    lines [tok ++ " " ++ name] whose [tok] has no space, and raises
    IndexError exactly for the lines without a space; there is no third
    outcome. *)
Theorem X9_name_lookup (obj : string) :
  (forall name,
     getitem (split_space_1 obj) 1 = ret name <->
     exists tok, has_space tok = false /\ obj = (tok ++ String " " name)%string) /\
  (getitem (split_space_1 obj) 1 = raise IndexError <-> has_space obj = false) /\
  ((exists name, getitem (split_space_1 obj) 1 = ret name) \/
   getitem (split_space_1 obj) 1 = raise IndexError).
Proof.
  split; [intros name; apply getitem_split_1 |].
  destruct (split_space_1_cases obj) as [[H E] | (tok & rest & H & -> & E')].
  - rewrite E. split; [split; [intros _; exact H | reflexivity] | right; reflexivity].
  - rewrite E', has_space_at_space. split; [split; discriminate |].
    left. exists rest. reflexivity.
Qed.

(** X10.  Reading the label file gives back the lines it was written from:
    for labels without a line break and without whitespace at their end,
    each written with ["\n"], ["\r\n"] or ["\r"] after it, [__init__] stores
    exactly those labels, in order and with the empty ones in place.  A last
    line without a terminator is one more label. *)
Theorem X10_label_file_round_trip (nl : string) (ls : list string) :
  terminator nl -> Forall clean ls ->
  labelList_of (unlines nl ls) = ls /\
  (forall last, clean last -> last <> EmptyString ->
     labelList_of (unlines nl ls ++ last) = ls ++ [last]).
Proof.
  intros Hnl Hls. split.
  - rewrite <- (string_app_nil_r (unlines nl ls)).
    rewrite (@labelList_of_unlines nl ls EmptyString Hls Hnl) by discriminate.
    apply app_nil_r.
  - intros last [Hn Hr] He.
    rewrite (@labelList_of_unlines nl ls last Hls Hnl).
    + unfold labelList_of. rewrite (@readlines_tail last Hn He). cbn [map]. rewrite Hr.
      reflexivity.
    + intros r ->. discriminate Hn.
Qed.

Lemma X10_label_file_round_trip_witness :
  labelList_of (unlines CRLF gapped_labels) = gapped_labels /\
  labelList_of (unlines CRLF gapped_labels ++ "3 fish") = gapped_labels ++ ["3 fish"%string].
Proof.
  destruct (@X10_label_file_round_trip CRLF gapped_labels) as [H1 H2].
  - right. left. reflexivity.
  - repeat constructor.
  - split; [exact H1 |]. apply (H2 "3 fish"%string).
    + split; reflexivity.
    + discriminate.
Defined.

(** X11.  After [__init__] has read the label file, whatever the file
    holds: every name that [Postprocess] returns is non-empty, contains no
    line break and has no whitespace at its end. *)
Theorem X11_names_are_clean (D : Dtype) (NP : NumPy D) (text : string)
    (session : option (ndarray scalar) -> py (list (ndarray scalar))) probabilities r l :
  Postprocess (__init__ text session) probabilities = (Returns (Some r), l) ->
  Forall (fun e => value (classification_tag e) <> EmptyString /\
                   no_newline (value (classification_tag e)) = true /\
                   rstrip (value (classification_tag e)) = value (classification_tag e)) r.
Proof. apply init_names. Qed.

Lemma X11_names_are_clean_witness :
  exists r,
    Postprocess (NP:=stable_NumPy)
                (__init__ (D:=float64) (unlines CRLF padded_labels) (fun _ => raise RuntimeError))
                (vec [3; 2; 1]%float)
    = (Returns (Some r), []) /\
    map (fun e => value (classification_tag e)) r = ["cat"; "dog"; "b"]%string /\
    Forall (fun e => value (classification_tag e) <> EmptyString /\
                     no_newline (value (classification_tag e)) = true /\
                     rstrip (value (classification_tag e)) = value (classification_tag e)) r.
Proof.
  eexists. split; [vm_compute; reflexivity |]. split; [reflexivity |].
  apply (@X11_names_are_clean float64 stable_NumPy (unlines CRLF padded_labels)
           (fun _ => raise RuntimeError) (vec [3; 2; 1]%float) _ [] eq_refl).
Defined.

(** X12.  From the label file to the result.  When the file holds lines of
    the form identifier, space, name (the identifier without a space, the
    name not empty and without whitespace at its end), ended by any of the
    three terminators, and the session returns one vector of at least three
    scores and of no more scores than there are lines, then [Postprocess]
    returns, without logging, the names on the lines of the three indices that
    [np.argsort] put first, each with the score that [np.sort] put at the
    same position, divided by 100. *)
Theorem X12_file_to_result (D : Dtype) (NP : NumPy D)
    (session : option (ndarray scalar) -> py (list (ndarray scalar)))
    (nl : string) (entries : list (string * string)) probabilities k (p : list scalar) :
  Forall synset_entry entries -> terminator nl ->
  np_asarray probabilities = ret (mk_ndarray (vector_shape k (length p)) p) ->
  3 <= length p <= length entries ->
  exists a b c rest,
    ranked p = a :: b :: c :: rest /\
    Postprocess (__init__ (unlines nl (map label_line entries)) session) probabilities
    = (Returns (Some [detection (name_at entries a) (truediv (snd a) (of_int 100));
                      detection (name_at entries b) (truediv (snd b) (of_int 100));
                      detection (name_at entries c) (truediv (snd c) (of_int 100))]), []).
Proof. apply init_Postprocess. Qed.

Lemma X12_file_to_result_witness :
  Postprocess (NP:=stable_NumPy)
              (__init__ (D:=float64) (unlines CRLF (map label_line synset5))
                        (fun _ => raise RuntimeError))
              (batch1 [0.1; 92.0; 0.05; 4.0; 3.0]%float)
  = (Returns (Some [detection (D:=float64) "goldfish, Carassius auratus" 0.92%float;
                    detection (D:=float64) "tiger shark" 0.04%float;
                    detection (D:=float64) "hammerhead" 0.03%float]), []).
Proof.
  destruct (@X12_file_to_result float64 stable_NumPy (fun _ => raise RuntimeError) CRLF synset5
              (batch1 [0.1; 92.0; 0.05; 4.0; 3.0]%float) 2
              [0.1; 92.0; 0.05; 4.0; 3.0]%float)
    as (a & b & c & rest & E & P).
  - repeat constructor; discriminate.
  - right. left. reflexivity.
  - reflexivity.
  - cbn. lia.
  - vm_compute in E. injection E as <- <- <- <-. exact P.
Defined.

(** X13.  Whatever the scheduler does, every call of [Score] takes exactly
    five steps: a schedule that has run [s] steps leaves [5 n - s] steps to
    the [n] callers.  When no caller can move, all of them have returned;
    and when all have returned, the lock is free, the schedule has had
    [5 n] steps and nobody can move. *)
Theorem X13_five_steps_a_call (D : Dtype) (NP : NumPy D) (CV : OpenCV) (self : MLModel)
    (images : list (ndarray Z)) (schedule : list nat) (w : world) :
  run self schedule (initial images) = Some w ->
  length schedule + total (callers w) = 5 * length images /\
  ((forall n, step_at self n w = None) -> Forall finished (callers w)) /\
  (Forall finished (callers w) ->
   lock w = false /\ length schedule = 5 * length images /\
   forall n, step_at self n w = None).
Proof. apply schedule_accounting. Qed.

Lemma X13_five_steps_a_call_witness :
  exists w,
    run (NP:=stable_NumPy) (CV:=strict_OpenCV) loud_session [0; 0; 0; 0; 1; 0; 1; 1]
        (initial [plain_image 1 1 0; plain_image 1 1 9])
    = Some w /\
    8 + total (callers w) = 10.
Proof.
  eexists. split; [vm_compute; reflexivity |].
  destruct (@X13_five_steps_a_call float64 stable_NumPy strict_OpenCV loud_session
              [plain_image 1 1 0; plain_image 1 1 9] [0; 0; 0; 0; 1; 0; 1; 1] _ eq_refl)
    as (H & _).
  exact H.
Defined.

(** X14.  Binary64 scores come out in NumPy's order: down [sorted_prob],
    first every NaN, then the numbers, never increasing.  Position by
    position: a later NaN means an earlier NaN, and after a number comes a
    number that is at most as large. *)
Theorem X14_binary64_order (NP : NumPy float64) probabilities k (p : list float) :
  np_asarray probabilities = ret (mk_ndarray (vector_shape k (length p)) p) ->
  length p <> 1 ->
  exists sorted_prob,
    sorted_prob_of (D:=float64) probabilities = ret sorted_prob /\
    forall i j x y,
      i < j ->
      nth_error (data sorted_prob) i = Some x ->
      nth_error (data sorted_prob) j = Some y ->
      (is_nan y = true -> is_nan x = true) /\
      (is_nan x = false -> is_nan y = false /\ PrimFloat.leb y x = true).
Proof.
  intros Ha Hn. apply Nat.eqb_neq in Hn.
  pose proof (@sorted_prob_of_vector float64 NP probabilities k p Ha) as E.
  cbn [scalar float64] in E. rewrite Hn in E.
  exists (mk_ndarray [length p] (map snd (ranked (D:=float64) p))).
  split; [exact E |]. cbn [data].
  intros i j x y Hij Hi Hj.
  rewrite nth_error_map in Hi, Hj.
  destruct (nth_error (ranked (D:=float64) p) i) as [a |] eqn:Ei; [| discriminate].
  destruct (nth_error (ranked (D:=float64) p) j) as [b |] eqn:Ej; [| discriminate].
  injection Hi as <-. injection Hj as <-.
  apply float_geq_spec.
  apply (@StronglySorted_nth _ _ _ (@ranked_sorted float64 NP p) i j a b Hij Ei Ej).
Qed.

Lemma X14_binary64_order_witness :
  exists sorted_prob x y,
    sorted_prob_of (D:=float64) (NP:=stable_NumPy) (vec nan_scores) = ret sorted_prob /\
    nth_error (data sorted_prob) 0 = Some x /\
    nth_error (data sorted_prob) 2 = Some y /\
    is_nan x = true /\ y = 0.5%float.
Proof.
  destruct (@X14_binary64_order stable_NumPy (vec nan_scores) 0 nan_scores eq_refl)
    as (sp & E & H).
  - cbn. discriminate.
  - exists sp, PrimFloat.nan, 0.5%float.
    assert (E' : sorted_prob_of (D:=float64) (NP:=stable_NumPy) (vec nan_scores)
                 = ret (mk_ndarray [3] [PrimFloat.nan; 3.0; 0.5]%float))
      by (vm_compute; reflexivity).
    rewrite E' in E. injection E as <-.
    repeat split; reflexivity.
Defined.

(** X15.  A NaN among the scores takes rank 0: when the vector holds a NaN
    and [Postprocess] returns a list, the confidence of the first record is
    NaN. *)
Theorem X15_nan_is_reported_first (NP : NumPy float64) (self : MLModel (D:=float64))
    probabilities k
    (p : list float) x r l :
  np_asarray probabilities = ret (mk_ndarray (vector_shape k (length p)) p) ->
  In x p -> is_nan x = true ->
  Postprocess self probabilities = (Returns (Some r), l) ->
  exists name c rest, r = detection (D:=float64) name c :: rest /\ is_nan c = true.
Proof.
  intros Ha Hx Hn H.
  rewrite (@Postprocess_vector float64 NP self probabilities k p Ha) in H.
  destruct (rank3 self p) as [r' |] eqn:R; [| discriminate].
  injection H as <- _.
  apply rank3_some in R as (a & b & c & rest & ea & eb & ec & E & Ea & _ & _ & ->).
  unfold entry in Ea. destruct (lookup_name self (fst a)) as [name |]; [| discriminate].
  injection Ea as <-.
  exists name, (truediv (snd a) (of_int 100)), [eb; ec]. split; [reflexivity |].
  apply is_nan_div. apply (@ranked_nan_first NP p x a _ Hx Hn E).
Qed.

Lemma X15_nan_is_reported_first_witness :
  exists name c rest,
    Postprocess (NP:=stable_NumPy) loud_session (vec nan_scores)
    = (Returns (Some (detection (D:=float64) name c :: rest)), []) /\
    is_nan c = true.
Proof.
  assert (P : exists r, Postprocess (NP:=stable_NumPy) loud_session (vec nan_scores)
                        = (Returns (Some r), []))
    by (eexists; vm_compute; reflexivity).
  destruct P as (r & P).
  destruct (@X15_nan_is_reported_first stable_NumPy loud_session (vec nan_scores) 0 nan_scores
              PrimFloat.nan r [] eq_refl (or_intror (or_introl eq_refl)) eq_refl P)
    as (name & c & rest & -> & N).
  exists name, c, rest. split; [exact P | exact N].
Defined.
